(** * A shallow embedding of the QUIC transport core

    The development follows the layout of the sources:
    - [quic/state/StreamData.h]: stream buffers, the loss buffer and the
      acked-interval bookkeeping of [QuicStreamLike] / [QuicStreamState];
    - [quic/api/QuicTransportFunctions.cpp]: the bookkeeping done when a
      packet is written ([handleStreamWritten], [updateConnection],
      [writeConnectionDataToSocket]), the writable-bytes budget and the
      1-RTT key update;
    - the frame decoder exercised by the decoder tests.

    Unsigned 64-bit quantities ([uint64_t], [size_t], [PacketNum]) are
    integers in [Z]; every addition or subtraction the code performs on them
    is wrapped with [wrap64].  Byte payloads are lists of [Byte.byte]. *)

From Stdlib Require Import ZArith List Bool Lia Sorted.
From Stdlib.Strings Require Import Byte.
From stdpp Require Import base option list sorting gmap.

#[local] Open Scope Z_scope.

(** ** Machine integers *)

Definition wrap64 (x : Z) : Z := x mod 2 ^ 64.

Definition uint64_max : Z := 2 ^ 64 - 1.

Definition is_uint64 (x : Z) : Prop := 0 <= x < 2 ^ 64.

(** ** Outcomes of effectful code

    A call either returns normally, throws an exception, or aborts the
    process (a failed [CHECK], [LOG(FATAL)], a null dereference).  What is
    thrown is a [QuicTransportException] carrying a transport error code
    or the [folly::ConversionError] of a checked integer conversion
    ([folly::to]) whose value does not fit.  A thrown exception leaves
    behind the state as it was at the [throw]. *)

Inductive TransportErrorCode : Type :=
| INTERNAL_ERROR
| CRYPTO_ERROR
| FRAME_ENCODING_ERROR.

Inductive Exception : Type :=
| QuicTransportException (code : TransportErrorCode)
| ConversionError.

Coercion QuicTransportException : TransportErrorCode >-> Exception.

Inductive Outcome (S A : Type) : Type :=
| Returned (a : A) (s : S)
| Thrown (code : Exception) (s : S)
| Fatal.

Arguments Returned {S A} a s.
Arguments Thrown {S A} code s.
Arguments Fatal {S A}.

Definition M (S A : Type) : Type := S -> Outcome S A.

Definition ret {S A} (a : A) : M S A := fun s => Returned a s.

Definition bind {S A B} (c : M S A) (k : A -> M S B) : M S B :=
  fun s =>
    match c s with
    | Returned a s' => k a s'
    | Thrown code s' => Thrown code s'
    | Fatal => Fatal
    end.

Definition get {S} : M S S := fun s => Returned s s.
Definition put {S} (s : S) : M S unit := fun _ => Returned tt s.
Definition modify {S} (f : S -> S) : M S unit := fun s => Returned tt (f s).
Definition throw {S A} (code : Exception) : M S A :=
  fun s => Thrown code s.
Definition abort {S A} : M S A := fun _ => Fatal.
(** [CHECK(b)]: abort unless [b]. *)
Definition CHECK {S} (b : bool) : M S unit :=
  fun s => if b then Returned tt s else Fatal.
(** [folly::to<uint32_t>(x)] of an unsigned [x]: [x] if it fits, otherwise
    a [folly::ConversionError] is thrown. *)
Definition to_uint32 {S} (x : Z) : M S Z :=
  if 2 ^ 32 - 1 <? x then throw ConversionError else ret x.

Notation "x <-- c ;; k" := (bind c (fun x => k))
  (at level 200, c at level 99, k at level 200, right associativity).
Notation "c ;;; k" := (bind c (fun _ => k))
  (at level 200, k at level 200, right associativity).

(** ** Byte chains

    [ChainedByteRangeHead] and [BufQueue] are chains of byte ranges; only
    their content matters here, so a chain is the list of its bytes. *)

Definition ChainedByteRangeHead : Type := list byte.

Definition chainLength (d : ChainedByteRangeHead) : Z := Z.of_nat (length d).

Definition chainEmpty (d : ChainedByteRangeHead) : bool :=
  match d with [] => true | _ => false end.

(** [d.splitAtMost(n)]: removes up to [n] leading bytes from [d] and returns
    them; the result is (the split-off head, what is left in [d]). *)
Definition splitAtMost (n : Z) (d : ChainedByteRangeHead)
  : ChainedByteRangeHead * ChainedByteRangeHead :=
  (take (Z.to_nat n) d, drop (Z.to_nat n) d).

(** [d.trimStartAtMost(n)]: drops up to [n] leading bytes from [d] and
    returns how many were dropped; the result is (amount, what is left). *)
Definition trimStartAtMost (n : Z) (d : ChainedByteRangeHead)
  : Z * ChainedByteRangeHead :=
  (Z.min n (chainLength d), drop (Z.to_nat n) d).

(** ** Binary searches

    [std::upper_bound] and [std::lower_bound] over a range that is
    partitioned by the comparator return the partition point, which is what
    the scans below compute. *)

(** Index of the first element [e] with [comp value e]. *)
Fixpoint upper_bound {A V} (comp : V -> A -> bool) (l : list A) (value : V)
  : nat :=
  match l with
  | [] => O
  | e :: r => if comp value e then O else S (upper_bound comp r value)
  end.

(** Index of the first element [e] for which [comp e value] fails. *)
Fixpoint lower_bound {A V} (comp : A -> V -> bool) (l : list A) (value : V)
  : nat :=
  match l with
  | [] => O
  | e :: r => if comp e value then S (lower_bound comp r value) else O
  end.

(** [c.emplace(it, x)] / [c.insert(it, x)] on a deque: [x] is placed in
    front of position [it]. *)
Definition emplace {A} (it : nat) (x : A) (l : list A) : list A :=
  take it l ++ x :: drop it l.

(** [c.erase(it)]. *)
Definition erase {A} (it : nat) (l : list A) : list A :=
  take it l ++ drop (S it) l.

(** ** Interval sets *)

Module IntervalSet.

(** Modelled from the spec: [IntervalSet] (quic/common/IntervalSet.h) is
    not among the sources.  Per the data model it is "a sorted, coalescing
    set of [start, end] intervals", "disjoint, non-adjacent, and
    canonically merged on insert". *)
Definition t : Type := list (Z * Z).

Definition empty : t := [].

Fixpoint insert (s e : Z) (l : t) : t :=
  match l with
  | [] => [(s, e)]
  | (a, b) :: r =>
      if b + 1 <? s then (a, b) :: insert s e r
      else if e + 1 <? a then (s, e) :: (a, b) :: r
      else insert (Z.min s a) (Z.max e b) r
  end.

Definition contains (x : Z) (l : t) : Prop :=
  exists a b, In (a, b) l /\ a <= x <= b.

Definition valid (l : t) : Prop :=
  forall a b, In (a, b) l -> a <= b.

End IntervalSet.

(** ** Stream buffers (quic/state/StreamData.h) *)

Module WriteBufferMeta.
Record t : Type := mk { length : Z; offset : Z; eof : bool }.

(** [WriteBufferMeta::split]: the [CHECK_GE] aborts when more than the
    whole buffer is asked for.  Returns (the split-off head, the rest). *)
Definition split (splitLen : Z) (m : t) : option (t * t) :=
  if length m <? splitLen then None
  else
    let splitEof := (splitLen =? length m) && eof m in
    Some (mk splitLen (offset m) splitEof,
          mk (wrap64 (length m - splitLen))
             (wrap64 (offset m + splitLen)) (eof m)).
End WriteBufferMeta.

Module WriteStreamBuffer.
Record t : Type :=
  mk { data : ChainedByteRangeHead; offset : Z; eof : bool }.
End WriteStreamBuffer.

Abbreviation WSB := WriteStreamBuffer.t.
Abbreviation WBM := WriteBufferMeta.t.

(** The send-side fields of [QuicStreamLike] that the functions below
    touch.  The read side ([readBuffer], [currentReadOffset], ...) and
    [writeBuffer] are left out. *)
Record QuicStreamLike : Type := mkStreamLike {
  pendingWrites : ChainedByteRangeHead;
  retransmissionBuffer : gmap Z WSB;
  ackedIntervals : IntervalSet.t;
  lossBuffer : list WSB;
  currentWriteOffset : Z;
  numPacketsTxWithNewData : Z
}.

Definition set_pendingWrites (v : ChainedByteRangeHead) (s : QuicStreamLike) :=
  mkStreamLike v (retransmissionBuffer s) (ackedIntervals s) (lossBuffer s)
    (currentWriteOffset s) (numPacketsTxWithNewData s).
Definition set_retransmissionBuffer (v : gmap Z WSB) (s : QuicStreamLike) :=
  mkStreamLike (pendingWrites s) v (ackedIntervals s) (lossBuffer s)
    (currentWriteOffset s) (numPacketsTxWithNewData s).
Definition set_ackedIntervals (v : IntervalSet.t) (s : QuicStreamLike) :=
  mkStreamLike (pendingWrites s) (retransmissionBuffer s) v (lossBuffer s)
    (currentWriteOffset s) (numPacketsTxWithNewData s).
Definition set_lossBuffer (v : list WSB) (s : QuicStreamLike) :=
  mkStreamLike (pendingWrites s) (retransmissionBuffer s) (ackedIntervals s) v
    (currentWriteOffset s) (numPacketsTxWithNewData s).
Definition set_currentWriteOffset (v : Z) (s : QuicStreamLike) :=
  mkStreamLike (pendingWrites s) (retransmissionBuffer s) (ackedIntervals s)
    (lossBuffer s) v (numPacketsTxWithNewData s).
Definition set_numPacketsTxWithNewData (v : Z) (s : QuicStreamLike) :=
  mkStreamLike (pendingWrites s) (retransmissionBuffer s) (ackedIntervals s)
    (lossBuffer s) (currentWriteOffset s) v.

Definition emptyStream : QuicStreamLike :=
  mkStreamLike [] ∅ IntervalSet.empty [] 0 0.

(** [QuicStreamLike::updateAckedIntervals].  [lenAdjustment] is an [int]
    that is converted to [uint64_t] in the subtraction. *)
Definition updateAckedIntervals (offset len : Z) (eof : bool)
  : M QuicStreamLike unit :=
  let lenAdjustment := if eof then 0 else 1 in
  if negb (lenAdjustment =? 0) && (len =? 0) then abort
  else
    modify (fun s =>
      set_ackedIntervals
        (IntervalSet.insert offset (wrap64 (offset + len - lenAdjustment))
           (ackedIntervals s)) s).

(** [QuicStreamLike::insertIntoLossBuffer]. *)
Definition insertIntoLossBuffer (buf : WSB) (s : QuicStreamLike)
  : QuicStreamLike :=
  let lossItr :=
    upper_bound (fun offset buffer => offset <? WriteStreamBuffer.offset buffer)
      (lossBuffer s) (WriteStreamBuffer.offset buf) in
  match lossItr with
  | S p =>
      match lossBuffer s !! p with
      | Some prev =>
          if wrap64 (WriteStreamBuffer.offset prev
                     + chainLength (WriteStreamBuffer.data prev))
             =? WriteStreamBuffer.offset buf
          then
            set_lossBuffer
              (<[p := WriteStreamBuffer.mk
                        (WriteStreamBuffer.data prev
                           ++ WriteStreamBuffer.data buf)
                        (WriteStreamBuffer.offset prev)
                        (WriteStreamBuffer.eof buf)]> (lossBuffer s)) s
          else set_lossBuffer (emplace lossItr buf (lossBuffer s)) s
      | None => set_lossBuffer (emplace lossItr buf (lossBuffer s)) s
      end
  | O => set_lossBuffer (emplace lossItr buf (lossBuffer s)) s
  end.

(** The body of the loop of [QuicStreamLike::removeFromLossBuffer]:
    [lossItr] is the position reached and [rest] the entries from there on. *)
Fixpoint removeFromLossBuffer_from (offset len : Z) (eof : bool)
    (lossItr : nat) (rest : list WSB) (s : QuicStreamLike) : QuicStreamLike :=
  match rest with
  | [] => s
  | entry :: rest' =>
      let lossStartOffset := WriteStreamBuffer.offset entry in
      let lossEndOffset :=
        wrap64 (WriteStreamBuffer.offset entry
                + chainLength (WriteStreamBuffer.data entry)) in
      let removedStartOffset := offset in
      let removedEndOffset := wrap64 (offset + len) in
      if removedEndOffset <? lossStartOffset then s
      else if ((lossStartOffset <=? removedStartOffset)
               && (removedEndOffset <=? lossEndOffset))
              || ((removedStartOffset <=? lossStartOffset)
                  && (lossEndOffset <=? removedEndOffset))
      then
        let amountToSplit :=
          if lossStartOffset <? removedStartOffset
          then removedStartOffset - lossStartOffset else 0 in
        let '(splitBuf, entry1) :=
          if 0 <? amountToSplit then
            let '(hd, tl) :=
              splitAtMost amountToSplit (WriteStreamBuffer.data entry) in
            (hd, WriteStreamBuffer.mk tl
                   (wrap64 (WriteStreamBuffer.offset entry + amountToSplit))
                   (WriteStreamBuffer.eof entry))
          else ([], entry) in
        let '(trimmed, tl) :=
          trimStartAtMost len (WriteStreamBuffer.data entry1) in
        let entry2 :=
          WriteStreamBuffer.mk tl
            (wrap64 (WriteStreamBuffer.offset entry1 + trimmed))
            (WriteStreamBuffer.eof entry1) in
        let s1 :=
          if chainEmpty (WriteStreamBuffer.data entry2)
             && Bool.eqb (WriteStreamBuffer.eof entry2) eof
          then set_lossBuffer (erase lossItr (lossBuffer s)) s
          else set_lossBuffer (<[lossItr := entry2]> (lossBuffer s)) s in
        if negb (chainEmpty splitBuf) then
          insertIntoLossBuffer
            (WriteStreamBuffer.mk splitBuf lossStartOffset false) s1
        else s1
      else removeFromLossBuffer_from offset len eof (S lossItr) rest' s
  end.

(** [QuicStreamLike::removeFromLossBuffer]. *)
Definition removeFromLossBuffer (offset len : Z) (eof : bool)
    (s : QuicStreamLike) : QuicStreamLike :=
  if (match lossBuffer s with [] => true | _ => false end) || (len =? 0) then s
  else removeFromLossBuffer_from offset len eof O (lossBuffer s) s.

(** The fields [QuicStreamState] adds to [QuicStreamLike] for buffers
    without data (DSR). *)
Record QuicStreamState : Type := mkStreamState {
  base : QuicStreamLike;
  finalWriteOffset : option Z;
  writeBufMeta : WBM;
  retransmissionBufMetas : gmap Z WBM;
  lossBufMetas : list WBM
}.

Definition set_base (v : QuicStreamLike) (s : QuicStreamState) :=
  mkStreamState v (finalWriteOffset s) (writeBufMeta s)
    (retransmissionBufMetas s) (lossBufMetas s).
Definition set_writeBufMeta (v : WBM) (s : QuicStreamState) :=
  mkStreamState (base s) (finalWriteOffset s) v
    (retransmissionBufMetas s) (lossBufMetas s).
Definition set_retransmissionBufMetas (v : gmap Z WBM) (s : QuicStreamState) :=
  mkStreamState (base s) (finalWriteOffset s) (writeBufMeta s) v
    (lossBufMetas s).
Definition set_lossBufMetas (v : list WBM) (s : QuicStreamState) :=
  mkStreamState (base s) (finalWriteOffset s) (writeBufMeta s)
    (retransmissionBufMetas s) v.

Definition emptyStreamState : QuicStreamState :=
  mkStreamState emptyStream None (WriteBufferMeta.mk 0 0 false) ∅ [].

(** [QuicStreamState::insertIntoLossBufMeta]. *)
Definition insertIntoLossBufMeta (bufMeta : WBM) (s : QuicStreamState)
  : QuicStreamState :=
  let lossItr :=
    upper_bound
      (fun offset wBufMeta => offset <? WriteBufferMeta.offset wBufMeta)
      (lossBufMetas s) (WriteBufferMeta.offset bufMeta) in
  match lossItr with
  | S p =>
      match lossBufMetas s !! p with
      | Some prev =>
          if wrap64 (WriteBufferMeta.offset prev + WriteBufferMeta.length prev)
             =? WriteBufferMeta.offset bufMeta
          then
            set_lossBufMetas
              (<[p := WriteBufferMeta.mk
                        (wrap64 (WriteBufferMeta.length prev
                                 + WriteBufferMeta.length bufMeta))
                        (WriteBufferMeta.offset prev)
                        (WriteBufferMeta.eof bufMeta)]> (lossBufMetas s)) s
          else set_lossBufMetas (emplace lossItr bufMeta (lossBufMetas s)) s
      | None => set_lossBufMetas (emplace lossItr bufMeta (lossBufMetas s)) s
      end
  | O => set_lossBufMetas (emplace lossItr bufMeta (lossBufMetas s)) s
  end.

(** ** Lost segments, generically

    [lossBuffer] and [lossBufMetas] hold segments of the stream's offset
    space: an offset, a length, and a way to append a segment to the one
    that ends where it starts.  Both insertion routines are instances of
    [insertSegment]. *)

Class Segment (A : Type) : Type := {
  segOffset : A -> Z;
  segLength : A -> Z;
  segAppend : A -> A -> A
}.

#[global] Instance WSB_Segment : Segment WSB := {|
  segOffset := WriteStreamBuffer.offset;
  segLength := fun b => chainLength (WriteStreamBuffer.data b);
  segAppend := fun prev buf =>
    WriteStreamBuffer.mk
      (WriteStreamBuffer.data prev ++ WriteStreamBuffer.data buf)
      (WriteStreamBuffer.offset prev) (WriteStreamBuffer.eof buf)
|}.

#[global] Instance WBM_Segment : Segment WBM := {|
  segOffset := WriteBufferMeta.offset;
  segLength := WriteBufferMeta.length;
  segAppend := fun prev bufMeta =>
    WriteBufferMeta.mk
      (wrap64 (WriteBufferMeta.length prev + WriteBufferMeta.length bufMeta))
      (WriteBufferMeta.offset prev) (WriteBufferMeta.eof bufMeta)
|}.

Class SegmentLaws (A : Type) `{Segment A} : Prop := {
  segOffset_append : forall a b : A, segOffset (segAppend a b) = segOffset a;
  segLength_append : forall a b : A,
    0 <= segLength a -> 0 <= segLength b ->
    segLength a + segLength b < 2 ^ 64 ->
    segLength (segAppend a b) = segLength a + segLength b
}.

Section Segments.
Context {A : Type} `{Segment A}.

Definition insertSegment (buf : A) (l : list A) : list A :=
  let lossItr :=
    upper_bound (fun offset b => offset <? segOffset b) l (segOffset buf) in
  match lossItr with
  | S p =>
      match l !! p with
      | Some prev =>
          if wrap64 (segOffset prev + segLength prev) =? segOffset buf
          then <[p := segAppend prev buf]> l
          else emplace lossItr buf l
      | None => emplace lossItr buf l
      end
  | O => emplace lossItr buf l
  end.

Definition segEnd (a : A) : Z := segOffset a + segLength a.

(** A segment that fits in the 64-bit offset space. *)
Definition segValid (a : A) : Prop :=
  0 <= segOffset a /\ 0 <= segLength a /\ segEnd a < 2 ^ 64.

(** [a] lies entirely before [b], at a smaller offset. *)
Definition segBefore (a b : A) : Prop :=
  segEnd a <= segOffset b /\ segOffset a < segOffset b.

Definition nonOverlapping (a b : A) : Prop :=
  segBefore a b \/ segBefore b a.

(** Pairwise non-overlapping segments, in any order. *)
Fixpoint pairwiseNonOverlapping (l : list A) : Prop :=
  match l with
  | [] => True
  | a :: r => Forall (nonOverlapping a) r /\ pairwiseNonOverlapping r
  end.

(** Sorted by offset, every entry ending before the next one starts. *)
Definition sortedDisjoint (l : list A) : Prop := StronglySorted segBefore l.

Definition sortedByOffset (l : list A) : Prop :=
  StronglySorted (fun a b => segOffset a < segOffset b) l.

(** No entry ends exactly where the next one starts. *)
Definition noContiguousEntries (l : list A) : Prop :=
  forall (i : nat) (a b : A),
    l !! i = Some a -> l !! S i = Some b -> segEnd a <> segOffset b.

End Segments.

(** A sequence of insertions, one lost segment after the other. *)
Definition insertAllIntoLossBuffer (segs : list WSB) (s : QuicStreamLike)
  : QuicStreamLike :=
  fold_left (fun s buf => insertIntoLossBuffer buf s) segs s.

Definition insertAllIntoLossBufMeta (metas : list WBM) (s : QuicStreamState)
  : QuicStreamState :=
  fold_left (fun s bufMeta => insertIntoLossBufMeta bufMeta s) metas s.

(** Sample data: five payload bytes, and two lost segments of a stream, the
    second one ending where the first one starts. *)
Definition fiveBytes : ChainedByteRangeHead := [x01; x02; x03; x04; x05].
Definition lostAt10 : WSB := WriteStreamBuffer.mk fiveBytes 10 false.
Definition lostAt5 : WSB := WriteStreamBuffer.mk fiveBytes 5 false.
Definition lostAt15 : WSB := WriteStreamBuffer.mk fiveBytes 15 true.
Definition lostMetaAt10 : WBM := WriteBufferMeta.mk 5 10 false.
Definition lostMetaAt5 : WBM := WriteBufferMeta.mk 5 5 false.
Definition lostMetaAt15 : WBM := WriteBufferMeta.mk 5 15 true.

(** The part of [entry] in front of [offset] sits in [l] with its [eof]
    flag cleared: some entry without [eof] ends at [offset] and its data
    ends with those leading bytes of [entry]. *)
Definition headReinserted (entry : WSB) (offset : Z) (l : list WSB) : Prop :=
  exists h front,
    h ∈ l
    /\ WriteStreamBuffer.eof h = false
    /\ WriteStreamBuffer.offset h + chainLength (WriteStreamBuffer.data h)
       = offset
    /\ WriteStreamBuffer.data h
       = front ++ take (Z.to_nat (offset - WriteStreamBuffer.offset entry))
                    (WriteStreamBuffer.data entry).

(** A stream whose loss buffer holds the one segment [10, 15). *)
Definition streamWithLoss : QuicStreamLike :=
  set_lossBuffer [lostAt10] emptyStream.

(** The lost segment [10, 15) followed, after a gap, by a lost byte at
    16. *)
Definition lostAt16 : WSB := WriteStreamBuffer.mk (take 1 fiveBytes) 16 false.

Definition streamWithGappedLosses : QuicStreamLike :=
  set_lossBuffer [lostAt10; lostAt16] emptyStream.

(** ** Connection state (quic/state/StateData.h)

    The enumerations keep the scoping of the C++ [enum class]es. *)

Module PacketNumberSpace.
Inductive t : Type := Initial | Handshake | AppData.
#[global] Instance eq_dec : EqDecision t.
Proof. solve_decision. Defined.
End PacketNumberSpace.

Module ProtectionType.
Inductive t : Type :=
  Initial | Handshake | ZeroRtt | KeyPhaseZero | KeyPhaseOne.
#[global] Instance eq_dec : EqDecision t.
Proof. solve_decision. Defined.
End ProtectionType.

Module EncryptionLevel.
Inductive t : Type := Initial | Handshake | EarlyData | AppData.
#[global] Instance eq_dec : EqDecision t.
Proof. solve_decision. Defined.
End EncryptionLevel.

Inductive NoWriteReason : Type :=
| WRITE_OK
| EMPTY_SCHEDULER
| NO_FRAME
| NO_BODY
| SOCKET_FAILURE.

Inductive QuicBatchingMode : Type :=
| BATCHING_MODE_NONE
| BATCHING_MODE_GSO
| BATCHING_MODE_SENDMMSG
| BATCHING_MODE_SENDMMSG_GSO.

(** The frames a written packet is made of, with the fields
    [updateConnection] reads. *)
Inductive QuicWriteFrame : Type :=
| WriteStreamFrame (streamId offset len : Z) (fin fromBufMeta : bool)
| WriteCryptoFrame (offset len : Z)
| WriteAckFrame (largestAcked : Z)
| RstStreamFrame (streamId : Z)
| MaxDataFrame (maximumData : Z)
| DataBlockedFrame
| MaxStreamDataFrame (streamId maximumData : Z)
| StreamDataBlockedFrame (streamId : Z)
| PingFrame
| QuicSimpleFrame
| PaddingFrame
| DatagramFrame
| ImmediateAckFrame
| OtherFrame.

Record PacketHeader : Type := mkHeader {
  packetNumberSpace : PacketNumberSpace.t;
  protectionType : ProtectionType.t;
  packetSequenceNum : Z
}.

Record RegularQuicWritePacket : Type := mkPacket {
  header : PacketHeader;
  frames : list QuicWriteFrame
}.

(** An entry of [conn.outstandings.packets]: the packet and the metadata
    recorded when it was sent. *)
Record OutstandingPacketWrapper : Type := mkOutstanding {
  packet : RegularQuicWritePacket;
  time : Z;
  encodedSize : Z;
  encodedBodySize : Z;
  metadataTotalBytesSent : Z;
  metadataInflightBytes : Z;
  maybeClonedPacketIdentifier : option Z;
  isDSRPacket : bool;
  nonDsrPacketSequenceNumber : option Z
}.

Record LossState : Type := mkLossState {
  srtt : Z;
  largestSent : option Z;
  totalBytesSent : Z;
  totalBodyBytesSent : Z;
  totalPacketsSent : Z;
  totalAckElicitingPacketsSent : Z;
  totalBytesRetransmitted : Z;
  totalStreamBytesCloned : Z;
  totalBytesCloned : Z;
  inflightBytes : Z
}.

Definition set_largestSent (v : option Z) (x : LossState) : LossState :=
  mkLossState (srtt x) v (totalBytesSent x) (totalBodyBytesSent x)
    (totalPacketsSent x) (totalAckElicitingPacketsSent x)
    (totalBytesRetransmitted x) (totalStreamBytesCloned x) (totalBytesCloned
    x) (inflightBytes x).
Definition set_totalBytesSent (v : Z) (x : LossState) : LossState :=
  mkLossState (srtt x) (largestSent x) v (totalBodyBytesSent x)
    (totalPacketsSent x) (totalAckElicitingPacketsSent x)
    (totalBytesRetransmitted x) (totalStreamBytesCloned x) (totalBytesCloned
    x) (inflightBytes x).
Definition set_totalBodyBytesSent (v : Z) (x : LossState) : LossState :=
  mkLossState (srtt x) (largestSent x) (totalBytesSent x) v (totalPacketsSent
    x) (totalAckElicitingPacketsSent x) (totalBytesRetransmitted x)
    (totalStreamBytesCloned x) (totalBytesCloned x) (inflightBytes x).
Definition set_totalPacketsSent (v : Z) (x : LossState) : LossState :=
  mkLossState (srtt x) (largestSent x) (totalBytesSent x) (totalBodyBytesSent
    x) v (totalAckElicitingPacketsSent x) (totalBytesRetransmitted x)
    (totalStreamBytesCloned x) (totalBytesCloned x) (inflightBytes x).
Definition set_totalAckElicitingPacketsSent (v : Z) (x : LossState)
  : LossState :=
  mkLossState (srtt x) (largestSent x) (totalBytesSent x) (totalBodyBytesSent
    x) (totalPacketsSent x) v (totalBytesRetransmitted x)
    (totalStreamBytesCloned x) (totalBytesCloned x) (inflightBytes x).
Definition set_totalBytesRetransmitted (v : Z) (x : LossState) : LossState :=
  mkLossState (srtt x) (largestSent x) (totalBytesSent x) (totalBodyBytesSent
    x) (totalPacketsSent x) (totalAckElicitingPacketsSent x) v
    (totalStreamBytesCloned x) (totalBytesCloned x) (inflightBytes x).
Definition set_totalStreamBytesCloned (v : Z) (x : LossState) : LossState :=
  mkLossState (srtt x) (largestSent x) (totalBytesSent x) (totalBodyBytesSent
    x) (totalPacketsSent x) (totalAckElicitingPacketsSent x)
    (totalBytesRetransmitted x) v (totalBytesCloned x) (inflightBytes x).
Definition set_totalBytesCloned (v : Z) (x : LossState) : LossState :=
  mkLossState (srtt x) (largestSent x) (totalBytesSent x) (totalBodyBytesSent
    x) (totalPacketsSent x) (totalAckElicitingPacketsSent x)
    (totalBytesRetransmitted x) (totalStreamBytesCloned x) v (inflightBytes
    x).

Record AckState : Type := mkAckState {
  nextPacketNum : Z;
  ackNonDsrPacketSequenceNumber : Z
}.

Record AckStates : Type := mkAckStates {
  initialAckState : option AckState;
  handshakeAckState : option AckState;
  appDataAckState : AckState
}.

Definition set_initialAckState (v : option AckState) (x : AckStates)
  : AckStates :=
  mkAckStates v (handshakeAckState x) (appDataAckState x).
Definition set_handshakeAckState (v : option AckState) (x : AckStates)
  : AckStates :=
  mkAckStates (initialAckState x) v (appDataAckState x).
Definition set_appDataAckState (v : AckState) (x : AckStates) : AckStates :=
  mkAckStates (initialAckState x) (handshakeAckState x) v.

Record OutstandingsInfo : Type := mkOutstandings {
  packets : list OutstandingPacketWrapper;
  packetCount : PacketNumberSpace.t -> Z;
  clonedPacketCount : PacketNumberSpace.t -> Z;
  dsrCount : Z
}.

Definition set_packets (v : list OutstandingPacketWrapper) (x : OutstandingsInfo)
  : OutstandingsInfo :=
  mkOutstandings v (packetCount x) (clonedPacketCount x) (dsrCount x).
Definition set_packetCount (v : PacketNumberSpace.t -> Z) (x : OutstandingsInfo)
  : OutstandingsInfo :=
  mkOutstandings (packets x) v (clonedPacketCount x) (dsrCount x).
Definition set_clonedPacketCount (v : PacketNumberSpace.t -> Z) (x : OutstandingsInfo)
  : OutstandingsInfo :=
  mkOutstandings (packets x) (packetCount x) v (dsrCount x).
Definition set_dsrCount (v : Z) (x : OutstandingsInfo) : OutstandingsInfo :=
  mkOutstandings (packets x) (packetCount x) (clonedPacketCount x) v.

Record PendingEvents : Type := mkPendingEvents {
  setLossDetectionAlarm : bool;
  sendPing : bool;
  sendDataBlocked : bool;
  requestImmediateAck : bool;
  pathChallenge : bool;
  resets : gset Z
}.

Definition set_setLossDetectionAlarm (v : bool) (x : PendingEvents)
  : PendingEvents :=
  mkPendingEvents v (sendPing x) (sendDataBlocked x) (requestImmediateAck x)
    (pathChallenge x) (resets x).
Definition set_sendPing (v : bool) (x : PendingEvents) : PendingEvents :=
  mkPendingEvents (setLossDetectionAlarm x) v (sendDataBlocked x)
    (requestImmediateAck x) (pathChallenge x) (resets x).
Definition set_sendDataBlocked (v : bool) (x : PendingEvents)
  : PendingEvents :=
  mkPendingEvents (setLossDetectionAlarm x) (sendPing x) v
    (requestImmediateAck x) (pathChallenge x) (resets x).
Definition set_requestImmediateAck (v : bool) (x : PendingEvents)
  : PendingEvents :=
  mkPendingEvents (setLossDetectionAlarm x) (sendPing x) (sendDataBlocked x) v
    (pathChallenge x) (resets x).
Definition set_resets (v : gset Z) (x : PendingEvents) : PendingEvents :=
  mkPendingEvents (setLossDetectionAlarm x) (sendPing x) (sendDataBlocked x)
    (requestImmediateAck x) (pathChallenge x) v.

Record TransportSettings : Type := mkTransportSettings {
  initiateKeyUpdate : bool;
  firstKeyUpdatePacketCount : option Z;
  keyUpdatePacketCountInterval : Z;
  batchingMode : QuicBatchingMode;
  maxBatchSize : Z;
  writeConnectionDataPacketsLimit : Z;
  writeLimitRttFraction : Z;
  singlePacketInplaceBatchWriter : bool
}.

Definition set_firstKeyUpdatePacketCount (v : option Z) (x : TransportSettings)
  : TransportSettings :=
  mkTransportSettings (initiateKeyUpdate x) v (keyUpdatePacketCountInterval x)
    (batchingMode x) (maxBatchSize x) (writeConnectionDataPacketsLimit x)
    (writeLimitRttFraction x) (singlePacketInplaceBatchWriter x).

(** Modelled from the spec: the read codec ([QuicReadCodec]) is not among
    the sources.  Of its state only the current 1-RTT read phase and whether
    it is ready for a key update matter here; per the data model the "key
    phase flips on each 1-RTT key update". *)
Record QuicReadCodec : Type := mkReadCodec {
  currentOneRttReadPhase : ProtectionType.t;
  readyForKeyUpdate : bool
}.

Definition set_currentOneRttReadPhase (v : ProtectionType.t) (x : QuicReadCodec)
  : QuicReadCodec :=
  mkReadCodec v (readyForKeyUpdate x).

Definition canInitiateKeyUpdate (codec : QuicReadCodec) : bool :=
  readyForKeyUpdate codec.

Definition advanceOneRttReadPhase (codec : QuicReadCodec) : QuicReadCodec :=
  set_currentOneRttReadPhase
    (match currentOneRttReadPhase codec with
     | ProtectionType.KeyPhaseZero => ProtectionType.KeyPhaseOne
     | _ => ProtectionType.KeyPhaseZero
     end) codec.

(** The fields of [QuicConnectionStateBase] read or written by the
    functions below.  The objects a connection points to are kept by what
    they report: [congestionController] is the writable bytes the attached
    controller returns, [pathValidationLimiter] the credit the attached
    limiter returns, [throttlingBytesToSend] the [maybeBytesToSend] of the
    current throttling signal; [streams] is the stream manager's table and
    [cryptoState] the crypto stream of each encryption level. *)
Record QuicConnectionStateBase : Type := mkConn {
  udpSendPacketLen : Z;
  writableBytesLimit : option Z;
  isClientAddrVerified : bool;
  lossState : LossState;
  ackStates : AckStates;
  outstandings : OutstandingsInfo;
  pendingEvents : PendingEvents;
  outstandingPathValidation : bool;
  streams : gmap Z QuicStreamState;
  cryptoState : EncryptionLevel.t -> QuicStreamLike;
  transportSettings : TransportSettings;
  oneRttWritePhase : ProtectionType.t;
  oneRttWritePendingVerification : bool;
  oneRttWritePendingVerificationPacketNumber : option Z;
  oneRttWritePacketsSentInCurrentPhase : Z;
  readCodec : QuicReadCodec;
  congestionController : option Z;
  pathValidationLimiter : option Z;
  throttlingBytesToSend : option Z;
  loopDetectorCallback : bool;
  noWriteReason : NoWriteReason
}.

Definition set_writableBytesLimit (v : option Z) (x : QuicConnectionStateBase)
  : QuicConnectionStateBase :=
  mkConn (udpSendPacketLen x) v (isClientAddrVerified x) (lossState x)
    (ackStates x) (outstandings x) (pendingEvents x)
    (outstandingPathValidation x) (streams x) (cryptoState x)
    (transportSettings x) (oneRttWritePhase x) (oneRttWritePendingVerification
    x) (oneRttWritePendingVerificationPacketNumber x)
    (oneRttWritePacketsSentInCurrentPhase x) (readCodec x)
    (congestionController x) (pathValidationLimiter x) (throttlingBytesToSend
    x) (loopDetectorCallback x) (noWriteReason x).
Definition set_isClientAddrVerified (v : bool) (x : QuicConnectionStateBase)
  : QuicConnectionStateBase :=
  mkConn (udpSendPacketLen x) (writableBytesLimit x) v (lossState x)
    (ackStates x) (outstandings x) (pendingEvents x)
    (outstandingPathValidation x) (streams x) (cryptoState x)
    (transportSettings x) (oneRttWritePhase x) (oneRttWritePendingVerification
    x) (oneRttWritePendingVerificationPacketNumber x)
    (oneRttWritePacketsSentInCurrentPhase x) (readCodec x)
    (congestionController x) (pathValidationLimiter x) (throttlingBytesToSend
    x) (loopDetectorCallback x) (noWriteReason x).
Definition set_lossState (v : LossState) (x : QuicConnectionStateBase)
  : QuicConnectionStateBase :=
  mkConn (udpSendPacketLen x) (writableBytesLimit x) (isClientAddrVerified x)
    v (ackStates x) (outstandings x) (pendingEvents x)
    (outstandingPathValidation x) (streams x) (cryptoState x)
    (transportSettings x) (oneRttWritePhase x) (oneRttWritePendingVerification
    x) (oneRttWritePendingVerificationPacketNumber x)
    (oneRttWritePacketsSentInCurrentPhase x) (readCodec x)
    (congestionController x) (pathValidationLimiter x) (throttlingBytesToSend
    x) (loopDetectorCallback x) (noWriteReason x).
Definition set_ackStates (v : AckStates) (x : QuicConnectionStateBase)
  : QuicConnectionStateBase :=
  mkConn (udpSendPacketLen x) (writableBytesLimit x) (isClientAddrVerified x)
    (lossState x) v (outstandings x) (pendingEvents x)
    (outstandingPathValidation x) (streams x) (cryptoState x)
    (transportSettings x) (oneRttWritePhase x) (oneRttWritePendingVerification
    x) (oneRttWritePendingVerificationPacketNumber x)
    (oneRttWritePacketsSentInCurrentPhase x) (readCodec x)
    (congestionController x) (pathValidationLimiter x) (throttlingBytesToSend
    x) (loopDetectorCallback x) (noWriteReason x).
Definition set_outstandings (v : OutstandingsInfo) (x : QuicConnectionStateBase)
  : QuicConnectionStateBase :=
  mkConn (udpSendPacketLen x) (writableBytesLimit x) (isClientAddrVerified x)
    (lossState x) (ackStates x) v (pendingEvents x) (outstandingPathValidation
    x) (streams x) (cryptoState x) (transportSettings x) (oneRttWritePhase x)
    (oneRttWritePendingVerification x)
    (oneRttWritePendingVerificationPacketNumber x)
    (oneRttWritePacketsSentInCurrentPhase x) (readCodec x)
    (congestionController x) (pathValidationLimiter x) (throttlingBytesToSend
    x) (loopDetectorCallback x) (noWriteReason x).
Definition set_pendingEvents (v : PendingEvents) (x : QuicConnectionStateBase)
  : QuicConnectionStateBase :=
  mkConn (udpSendPacketLen x) (writableBytesLimit x) (isClientAddrVerified x)
    (lossState x) (ackStates x) (outstandings x) v (outstandingPathValidation
    x) (streams x) (cryptoState x) (transportSettings x) (oneRttWritePhase x)
    (oneRttWritePendingVerification x)
    (oneRttWritePendingVerificationPacketNumber x)
    (oneRttWritePacketsSentInCurrentPhase x) (readCodec x)
    (congestionController x) (pathValidationLimiter x) (throttlingBytesToSend
    x) (loopDetectorCallback x) (noWriteReason x).
Definition set_streams (v : gmap Z QuicStreamState) (x : QuicConnectionStateBase)
  : QuicConnectionStateBase :=
  mkConn (udpSendPacketLen x) (writableBytesLimit x) (isClientAddrVerified x)
    (lossState x) (ackStates x) (outstandings x) (pendingEvents x)
    (outstandingPathValidation x) v (cryptoState x) (transportSettings x)
    (oneRttWritePhase x) (oneRttWritePendingVerification x)
    (oneRttWritePendingVerificationPacketNumber x)
    (oneRttWritePacketsSentInCurrentPhase x) (readCodec x)
    (congestionController x) (pathValidationLimiter x) (throttlingBytesToSend
    x) (loopDetectorCallback x) (noWriteReason x).
Definition set_cryptoState (v : EncryptionLevel.t -> QuicStreamLike) (x : QuicConnectionStateBase)
  : QuicConnectionStateBase :=
  mkConn (udpSendPacketLen x) (writableBytesLimit x) (isClientAddrVerified x)
    (lossState x) (ackStates x) (outstandings x) (pendingEvents x)
    (outstandingPathValidation x) (streams x) v (transportSettings x)
    (oneRttWritePhase x) (oneRttWritePendingVerification x)
    (oneRttWritePendingVerificationPacketNumber x)
    (oneRttWritePacketsSentInCurrentPhase x) (readCodec x)
    (congestionController x) (pathValidationLimiter x) (throttlingBytesToSend
    x) (loopDetectorCallback x) (noWriteReason x).
Definition set_transportSettings (v : TransportSettings) (x : QuicConnectionStateBase)
  : QuicConnectionStateBase :=
  mkConn (udpSendPacketLen x) (writableBytesLimit x) (isClientAddrVerified x)
    (lossState x) (ackStates x) (outstandings x) (pendingEvents x)
    (outstandingPathValidation x) (streams x) (cryptoState x) v
    (oneRttWritePhase x) (oneRttWritePendingVerification x)
    (oneRttWritePendingVerificationPacketNumber x)
    (oneRttWritePacketsSentInCurrentPhase x) (readCodec x)
    (congestionController x) (pathValidationLimiter x) (throttlingBytesToSend
    x) (loopDetectorCallback x) (noWriteReason x).
Definition set_oneRttWritePhase (v : ProtectionType.t) (x : QuicConnectionStateBase)
  : QuicConnectionStateBase :=
  mkConn (udpSendPacketLen x) (writableBytesLimit x) (isClientAddrVerified x)
    (lossState x) (ackStates x) (outstandings x) (pendingEvents x)
    (outstandingPathValidation x) (streams x) (cryptoState x)
    (transportSettings x) v (oneRttWritePendingVerification x)
    (oneRttWritePendingVerificationPacketNumber x)
    (oneRttWritePacketsSentInCurrentPhase x) (readCodec x)
    (congestionController x) (pathValidationLimiter x) (throttlingBytesToSend
    x) (loopDetectorCallback x) (noWriteReason x).
Definition set_oneRttWritePendingVerification (v : bool) (x : QuicConnectionStateBase)
  : QuicConnectionStateBase :=
  mkConn (udpSendPacketLen x) (writableBytesLimit x) (isClientAddrVerified x)
    (lossState x) (ackStates x) (outstandings x) (pendingEvents x)
    (outstandingPathValidation x) (streams x) (cryptoState x)
    (transportSettings x) (oneRttWritePhase x) v
    (oneRttWritePendingVerificationPacketNumber x)
    (oneRttWritePacketsSentInCurrentPhase x) (readCodec x)
    (congestionController x) (pathValidationLimiter x) (throttlingBytesToSend
    x) (loopDetectorCallback x) (noWriteReason x).
Definition set_oneRttWritePendingVerificationPacketNumber (v : option Z) (x : QuicConnectionStateBase)
  : QuicConnectionStateBase :=
  mkConn (udpSendPacketLen x) (writableBytesLimit x) (isClientAddrVerified x)
    (lossState x) (ackStates x) (outstandings x) (pendingEvents x)
    (outstandingPathValidation x) (streams x) (cryptoState x)
    (transportSettings x) (oneRttWritePhase x) (oneRttWritePendingVerification
    x) v (oneRttWritePacketsSentInCurrentPhase x) (readCodec x)
    (congestionController x) (pathValidationLimiter x) (throttlingBytesToSend
    x) (loopDetectorCallback x) (noWriteReason x).
Definition set_oneRttWritePacketsSentInCurrentPhase (v : Z) (x : QuicConnectionStateBase)
  : QuicConnectionStateBase :=
  mkConn (udpSendPacketLen x) (writableBytesLimit x) (isClientAddrVerified x)
    (lossState x) (ackStates x) (outstandings x) (pendingEvents x)
    (outstandingPathValidation x) (streams x) (cryptoState x)
    (transportSettings x) (oneRttWritePhase x) (oneRttWritePendingVerification
    x) (oneRttWritePendingVerificationPacketNumber x) v (readCodec x)
    (congestionController x) (pathValidationLimiter x) (throttlingBytesToSend
    x) (loopDetectorCallback x) (noWriteReason x).
Definition set_readCodec (v : QuicReadCodec) (x : QuicConnectionStateBase)
  : QuicConnectionStateBase :=
  mkConn (udpSendPacketLen x) (writableBytesLimit x) (isClientAddrVerified x)
    (lossState x) (ackStates x) (outstandings x) (pendingEvents x)
    (outstandingPathValidation x) (streams x) (cryptoState x)
    (transportSettings x) (oneRttWritePhase x) (oneRttWritePendingVerification
    x) (oneRttWritePendingVerificationPacketNumber x)
    (oneRttWritePacketsSentInCurrentPhase x) v (congestionController x)
    (pathValidationLimiter x) (throttlingBytesToSend x) (loopDetectorCallback
    x) (noWriteReason x).
Definition set_noWriteReason (v : NoWriteReason) (x : QuicConnectionStateBase)
  : QuicConnectionStateBase :=
  mkConn (udpSendPacketLen x) (writableBytesLimit x) (isClientAddrVerified x)
    (lossState x) (ackStates x) (outstandings x) (pendingEvents x)
    (outstandingPathValidation x) (streams x) (cryptoState x)
    (transportSettings x) (oneRttWritePhase x) (oneRttWritePendingVerification
    x) (oneRttWritePendingVerificationPacketNumber x)
    (oneRttWritePacketsSentInCurrentPhase x) (readCodec x)
    (congestionController x) (pathValidationLimiter x) (throttlingBytesToSend
    x) (loopDetectorCallback x) v.

Definition emptyLossState : LossState := mkLossState 0 None 0 0 0 0 0 0 0 0.

(** ** Bookkeeping of written stream data
    (quic/api/QuicTransportFunctions.cpp) *)

(** Running code that works on one part of the state. *)
Definition onStream {C A} (c : M QuicStreamLike A) : M (C * QuicStreamLike) A :=
  fun '(conn, stream) =>
    match c stream with
    | Returned a stream' => Returned a (conn, stream')
    | Thrown code stream' => Thrown code (conn, stream')
    | Fatal => Fatal
    end.

Definition onBase {A} (c : M QuicStreamLike A) : M QuicStreamState A :=
  fun stream =>
    match c (base stream) with
    | Returned a b => Returned a (set_base b stream)
    | Thrown code b => Thrown code (set_base b stream)
    | Fatal => Fatal
    end.

Definition onConn {S} (f : QuicConnectionStateBase -> QuicConnectionStateBase)
  : M (QuicConnectionStateBase * S) unit :=
  fun '(conn, stream) => Returned tt (f conn, stream).

(** [handleNewStreamDataWritten].  The [DCHECK_EQ] on the length of the
    split-off chain is compiled out of release builds; the [CHECK] on
    [emplace] aborts when [originalOffset] is already a key. *)
Definition handleNewStreamDataWritten (frameLen : Z) (frameFin : bool)
  : M QuicStreamLike unit :=
  stream <-- get ;;
  let originalOffset := currentWriteOffset stream in
  let stream :=
    set_currentWriteOffset (wrap64 (currentWriteOffset stream + frameLen))
      stream in
  let '(bufWritten, rest) := splitAtMost frameLen (pendingWrites stream) in
  let stream := set_pendingWrites rest stream in
  let stream :=
    set_currentWriteOffset
      (wrap64 (currentWriteOffset stream + (if frameFin then 1 else 0)))
      stream in
  CHECK (bool_decide (retransmissionBuffer stream !! originalOffset = None)) ;;;
  put (set_retransmissionBuffer
         (<[originalOffset :=
              WriteStreamBuffer.mk bufWritten originalOffset frameFin]>
            (retransmissionBuffer stream)) stream).

(** [handleRetransmissionWritten]; [lossBufferIter] is a valid position of
    the loss buffer. *)
Definition handleRetransmissionWritten (frameOffset frameLen : Z)
    (frameFin : bool) (lossBufferIter : nat) : M QuicStreamLike unit :=
  stream <-- get ;;
  match lossBuffer stream !! lossBufferIter with
  | None => abort
  | Some entry =>
      let bufferLen := chainLength (WriteStreamBuffer.data entry) in
      if (frameLen =? bufferLen)
         && Bool.eqb frameFin (WriteStreamBuffer.eof entry)
      then
        let bufWritten := WriteStreamBuffer.data entry in
        let stream :=
          set_lossBuffer (erase lossBufferIter (lossBuffer stream)) stream in
        CHECK (bool_decide (retransmissionBuffer stream !! frameOffset = None)) ;;;
        put (set_retransmissionBuffer
               (<[frameOffset :=
                    WriteStreamBuffer.mk bufWritten frameOffset frameFin]>
                  (retransmissionBuffer stream)) stream)
      else
        let '(bufWritten, rest) :=
          splitAtMost frameLen (WriteStreamBuffer.data entry) in
        let entry' :=
          WriteStreamBuffer.mk rest
            (wrap64 (WriteStreamBuffer.offset entry + frameLen))
            (WriteStreamBuffer.eof entry) in
        let stream :=
          set_lossBuffer (<[lossBufferIter := entry']> (lossBuffer stream))
            stream in
        CHECK (bool_decide (retransmissionBuffer stream !! frameOffset = None)) ;;;
        put (set_retransmissionBuffer
               (<[frameOffset :=
                    WriteStreamBuffer.mk bufWritten frameOffset frameFin]>
                  (retransmissionBuffer stream)) stream)
  end.

Definition add_totalBytesRetransmitted (n : Z) (conn : QuicConnectionStateBase)
  : QuicConnectionStateBase :=
  set_lossState
    (set_totalBytesRetransmitted
       (wrap64 (totalBytesRetransmitted (lossState conn) + n))
       (lossState conn)) conn.

Definition add_totalStreamBytesCloned (n : Z) (conn : QuicConnectionStateBase)
  : QuicConnectionStateBase :=
  set_lossState
    (set_totalStreamBytesCloned
       (wrap64 (totalStreamBytesCloned (lossState conn) + n))
       (lossState conn)) conn.

(** [handleStreamWritten]: returns [true] when the data written is new.
    [packetNum] and [packetNumberSpace] are only logged. *)
Definition handleStreamWritten (frameOffset frameLen : Z) (frameFin : bool)
    (packetNum : Z) (packetNumberSpace : PacketNumberSpace.t)
  : M (QuicConnectionStateBase * QuicStreamLike) bool :=
  st <-- get ;;
  let stream := snd st in
  if frameOffset =? currentWriteOffset stream then
    onStream (handleNewStreamDataWritten frameLen frameFin) ;;;
    onStream (modify (fun stream =>
      set_numPacketsTxWithNewData
        (wrap64 (numPacketsTxWithNewData stream + 1)) stream)) ;;;
    ret true
  else if currentWriteOffset stream <? frameOffset then
    throw INTERNAL_ERROR
  else
    let lossBufferIter :=
      lower_bound (fun buf off => WriteStreamBuffer.offset buf <? off)
        (lossBuffer stream) frameOffset in
    match lossBuffer stream !! lossBufferIter with
    | Some entry =>
        if WriteStreamBuffer.offset entry =? frameOffset then
          onStream (handleRetransmissionWritten frameOffset frameLen frameFin
                      lossBufferIter) ;;;
          onConn (add_totalBytesRetransmitted frameLen) ;;;
          ret false
        else
          onConn (add_totalStreamBytesCloned frameLen) ;;;
          ret false
    | None =>
        onConn (add_totalStreamBytesCloned frameLen) ;;;
        ret false
    end.

(** [handleNewStreamBufMetaWritten]. *)
Definition handleNewStreamBufMetaWritten (frameLen : Z) (frameFin : bool)
  : M QuicStreamState unit :=
  stream <-- get ;;
  CHECK (0 <? WriteBufferMeta.offset (writeBufMeta stream)) ;;;
  let originalOffset := WriteBufferMeta.offset (writeBufMeta stream) in
  match WriteBufferMeta.split frameLen (writeBufMeta stream) with
  | None => abort
  | Some (bufMetaSplit, rest) =>
      CHECK (WriteBufferMeta.offset bufMetaSplit =? originalOffset) ;;;
      rest' <--
        (if frameFin then
           CHECK (0 =? WriteBufferMeta.length rest) ;;;
           let rest' :=
             WriteBufferMeta.mk (WriteBufferMeta.length rest)
               (wrap64 (WriteBufferMeta.offset rest + 1))
               (WriteBufferMeta.eof rest) in
           match finalWriteOffset stream with
           | Some final =>
               CHECK (final <? WriteBufferMeta.offset rest') ;;; ret rest'
           | None => abort
           end
         else ret rest) ;;
      CHECK (bool_decide
               (retransmissionBufMetas stream !! originalOffset = None)) ;;;
      put (set_retransmissionBufMetas
             (<[originalOffset := bufMetaSplit]>
                (retransmissionBufMetas stream))
             (set_writeBufMeta rest' stream))
  end.

(** [handleRetransmissionBufMetaWritten]. *)
Definition handleRetransmissionBufMetaWritten (frameOffset frameLen : Z)
    (frameFin : bool) (lossBufMetaIter : nat) : M QuicStreamState unit :=
  stream <-- get ;;
  match lossBufMetas stream !! lossBufMetaIter with
  | None => abort
  | Some entry =>
      metas <--
        (if (frameLen =? WriteBufferMeta.length entry)
            && Bool.eqb frameFin (WriteBufferMeta.eof entry)
         then ret (erase lossBufMetaIter (lossBufMetas stream))
         else
           CHECK (frameLen <? WriteBufferMeta.length entry) ;;;
           ret (<[lossBufMetaIter :=
                    WriteBufferMeta.mk
                      (wrap64 (WriteBufferMeta.length entry - frameLen))
                      (wrap64 (WriteBufferMeta.offset entry + frameLen))
                      (WriteBufferMeta.eof entry)]> (lossBufMetas stream))) ;;
      CHECK (bool_decide
               (retransmissionBufMetas stream !! frameOffset = None)) ;;;
      put (set_retransmissionBufMetas
             (<[frameOffset := WriteBufferMeta.mk frameLen frameOffset frameFin]>
                (retransmissionBufMetas stream))
             (set_lossBufMetas metas stream))
  end.

Definition onStreamState {C A} (c : M QuicStreamState A)
  : M (C * QuicStreamState) A :=
  fun '(conn, stream) =>
    match c stream with
    | Returned a stream' => Returned a (conn, stream')
    | Thrown code stream' => Thrown code (conn, stream')
    | Fatal => Fatal
    end.

(** [handleStreamBufMetaWritten]. *)
Definition handleStreamBufMetaWritten (frameOffset frameLen : Z)
    (frameFin : bool) (packetNum : Z) (packetNumberSpace : PacketNumberSpace.t)
  : M (QuicConnectionStateBase * QuicStreamState) bool :=
  st <-- get ;;
  let stream := snd st in
  if (0 <? WriteBufferMeta.offset (writeBufMeta stream))
     && (frameOffset =? WriteBufferMeta.offset (writeBufMeta stream))
  then
    onStreamState (handleNewStreamBufMetaWritten frameLen frameFin) ;;;
    onStreamState (onBase (modify (fun stream =>
      set_numPacketsTxWithNewData
        (wrap64 (numPacketsTxWithNewData stream + 1)) stream))) ;;;
    ret true
  else
    let lossBufMetaIter :=
      lower_bound (fun bufMeta offset => WriteBufferMeta.offset bufMeta <? offset)
        (lossBufMetas stream) frameOffset in
    match lossBufMetas stream !! lossBufMetaIter with
    | None => abort
    | Some entry =>
        CHECK (WriteBufferMeta.offset entry =? frameOffset) ;;;
        onStreamState (handleRetransmissionBufMetaWritten frameOffset frameLen
                         frameFin lossBufMetaIter) ;;;
        onConn (add_totalBytesRetransmitted frameLen) ;;;
        ret false
    end.

(** ** Packet-number spaces *)

(** Modelled from the spec: [getAckState], [getNextPacketNum] and
    [increaseNextPacketNum] (quic/state/QuicStateFunctions.cpp) are not
    among the sources.  Per the spec "each space has independent send and
    receive counters" and packet numbers are "monotonically increasing
    within a PacketNumberSpace"; [updateConnection] notes that the call
    "increments the next packet number and (potentially) the next non-DSR
    packet sequence number".  The ack states of the Initial and Handshake
    spaces are held by pointers that are null once the space is dropped. *)
Definition getAckState (conn : QuicConnectionStateBase)
    (pnSpace : PacketNumberSpace.t) : option AckState :=
  match pnSpace with
  | PacketNumberSpace.Initial => initialAckState (ackStates conn)
  | PacketNumberSpace.Handshake => handshakeAckState (ackStates conn)
  | PacketNumberSpace.AppData => Some (appDataAckState (ackStates conn))
  end.

Definition setAckState (pnSpace : PacketNumberSpace.t) (a : AckState)
    (conn : QuicConnectionStateBase) : QuicConnectionStateBase :=
  set_ackStates
    (match pnSpace with
     | PacketNumberSpace.Initial =>
         set_initialAckState (Some a) (ackStates conn)
     | PacketNumberSpace.Handshake =>
         set_handshakeAckState (Some a) (ackStates conn)
     | PacketNumberSpace.AppData => set_appDataAckState a (ackStates conn)
     end) conn.

Definition getNextPacketNum (conn : QuicConnectionStateBase)
    (pnSpace : PacketNumberSpace.t) : option Z :=
  nextPacketNum <$> getAckState conn pnSpace.

Definition increaseNextPacketNum (pnSpace : PacketNumberSpace.t)
    (dsrPacket : bool) : M QuicConnectionStateBase unit :=
  conn <-- get ;;
  match getAckState conn pnSpace with
  | None => abort
  | Some ackState =>
      put (setAckState pnSpace
             (mkAckState
                (wrap64 (nextPacketNum ackState + 1))
                (if dsrPacket then ackNonDsrPacketSequenceNumber ackState
                 else wrap64 (ackNonDsrPacketSequenceNumber ackState + 1)))
             conn)
  end.

(** ** Recording a sent packet *)

(** [std::find_if] from [rbegin()] on, then [.base()]: the position right
    behind the last element that satisfies [pred], the front when there is
    none.  [rl] is the sequence in reverse. *)
Fixpoint find_if_reverse_base {A} (pred : A -> bool) (rl : list A) : nat :=
  match rl with
  | [] => O
  | x :: r => if pred x then length rl else find_if_reverse_base pred r
  end.

(** The locals of [updateConnection] that the loop over the frames sets. *)
Record FrameLoopLocals : Type := mkLocals {
  retransmittable : bool;
  isPing : bool;
  connWindowUpdateSent : Z
}.

Definition mark_retransmittable (l : FrameLoopLocals) : FrameLoopLocals :=
  mkLocals true (isPing l) (connWindowUpdateSent l).

(** Running stream bookkeeping on a stream of the stream manager
    ([CHECK_NOTNULL(conn.streamManager->getStream(id))]) or on a crypto
    stream, with the connection at hand. *)
Definition withStream {A} (streamId : Z)
    (c : M (QuicConnectionStateBase * QuicStreamState) A)
  : M QuicConnectionStateBase A :=
  fun conn =>
    match streams conn !! streamId with
    | None => Fatal
    | Some stream =>
        match c (conn, stream) with
        | Returned a (conn', stream') =>
            Returned a (set_streams (<[streamId := stream']> (streams conn'))
                          conn')
        | Thrown code (conn', stream') =>
            Thrown code (set_streams (<[streamId := stream']> (streams conn'))
                           conn')
        | Fatal => Fatal
        end
    end.

Definition withCryptoStream {A} (level : EncryptionLevel.t)
    (c : M (QuicConnectionStateBase * QuicStreamLike) A)
  : M QuicConnectionStateBase A :=
  fun conn =>
    let update stream' conn' :=
      set_cryptoState
        (fun l => if decide (l = level) then stream' else cryptoState conn' l)
        conn' in
    match c (conn, cryptoState conn level) with
    | Returned a (conn', stream') => Returned a (update stream' conn')
    | Thrown code (conn', stream') => Thrown code (update stream' conn')
    | Fatal => Fatal
    end.

Definition onStreamBase {A}
    (c : M (QuicConnectionStateBase * QuicStreamLike) A)
  : M (QuicConnectionStateBase * QuicStreamState) A :=
  fun '(conn, stream) =>
    match c (conn, base stream) with
    | Returned a (conn', b) => Returned a (conn', set_base b stream)
    | Thrown code (conn', b) => Thrown code (conn', set_base b stream)
    | Fatal => Fatal
    end.

Definition modifyPendingEvents (f : PendingEvents -> PendingEvents)
  : M QuicConnectionStateBase unit :=
  modify (fun conn => set_pendingEvents (f (pendingEvents conn)) conn).

Definition modifyLossState (f : LossState -> LossState)
  : M QuicConnectionStateBase unit :=
  modify (fun conn => set_lossState (f (lossState conn)) conn).

Fixpoint forEachFrame {S L} (body : QuicWriteFrame -> L -> M S L)
    (frames : list QuicWriteFrame) (locals : L) : M S L :=
  match frames with
  | [] => ret locals
  | frame :: rest =>
      locals' <-- body frame locals ;; forEachFrame body rest locals'
  end.

(** A frame that makes its packet ack-eliciting, as [updateConnection]
    tells: everything but ACK, PADDING and DATAGRAM frames. *)
Definition frameIsRetransmittable (frame : QuicWriteFrame) : bool :=
  match frame with
  | WriteAckFrame _ | PaddingFrame | DatagramFrame => false
  | _ => true
  end.

Definition isAckEliciting (packet : RegularQuicWritePacket) : bool :=
  existsb frameIsRetransmittable (frames packet).

Section Transport.

(** [protectionTypeToEncryptionLevel] (quic/handshake/HandshakeLayer.cpp)
    is a parameter here: what is proved of its callers holds for every
    assignment of encryption levels to protection types. *)
Variable protectionTypeToEncryptionLevel :
  ProtectionType.t -> EncryptionLevel.t.

(** One round of the [switch] over the frames of the packet in
    [updateConnection].  Left out is what the callees do to state that is
    not kept here: flow control, the stream manager's queues, the ack
    state's scheduling flags, simple-frame bookkeeping, counters of
    statistics. *)
Definition updateConnection_frame (packet : RegularQuicWritePacket)
    (clonedPacketIdentifier : option Z) (frame : QuicWriteFrame)
    (locals : FrameLoopLocals) : M QuicConnectionStateBase FrameLoopLocals :=
  let packetNum := packetSequenceNum (header packet) in
  let packetNumberSpace := packetNumberSpace (header packet) in
  match frame with
  | WriteStreamFrame streamId offset len fin fromBufMeta =>
      (if fromBufMeta then
         withStream streamId
           (handleStreamBufMetaWritten offset len fin packetNum
              packetNumberSpace)
       else
         withStream streamId
           (onStreamBase
              (handleStreamWritten offset len fin packetNum
                 packetNumberSpace))) ;;;
      ret (mark_retransmittable locals)
  | WriteCryptoFrame offset len =>
      let encryptionLevel :=
        protectionTypeToEncryptionLevel (protectionType (header packet)) in
      withCryptoStream encryptionLevel
        (handleStreamWritten offset len false packetNum packetNumberSpace) ;;;
      ret (mark_retransmittable locals)
  | WriteAckFrame _ => ret locals
  | RstStreamFrame streamId =>
      modifyPendingEvents (fun e => set_resets (resets e ∖ {[streamId]}) e) ;;;
      ret (mark_retransmittable locals)
  | MaxDataFrame _ =>
      CHECK (connWindowUpdateSent locals =? 0) ;;;
      ret (mkLocals true (isPing locals)
             (connWindowUpdateSent locals + 1))
  | DataBlockedFrame =>
      modifyPendingEvents (set_sendDataBlocked false) ;;;
      ret (mark_retransmittable locals)
  | MaxStreamDataFrame streamId _ =>
      conn <-- get ;;
      CHECK (bool_decide (is_Some (streams conn !! streamId))) ;;;
      ret (mark_retransmittable locals)
  | StreamDataBlockedFrame _ => ret (mark_retransmittable locals)
  | PingFrame =>
      modifyPendingEvents (set_sendPing false) ;;;
      ret (mkLocals true true (connWindowUpdateSent locals))
  | QuicSimpleFrame => ret (mark_retransmittable locals)
  | PaddingFrame => ret locals
  | DatagramFrame => ret locals
  | ImmediateAckFrame =>
      modifyPendingEvents (set_requestImmediateAck false) ;;;
      ret (mark_retransmittable locals)
  | OtherFrame => ret (mark_retransmittable locals)
  end.

(** The key-phase bookkeeping of [updateConnection]. *)
Definition countPacketInCurrentPhase (packet : RegularQuicWritePacket)
    (conn : QuicConnectionStateBase) : QuicConnectionStateBase :=
  if decide (protectionType (header packet) = oneRttWritePhase conn) then
    let conn :=
      if oneRttWritePendingVerification conn
         && (oneRttWritePacketsSentInCurrentPhase conn =? 0)
      then
        set_oneRttWritePendingVerificationPacketNumber
          (Some (packetSequenceNum (header packet))) conn
      else conn in
    set_oneRttWritePacketsSentInCurrentPhase
      (wrap64 (oneRttWritePacketsSentInCurrentPhase conn + 1)) conn
  else conn.

(** Where [updateConnection] puts the new entry of
    [conn.outstandings.packets]. *)
Definition outstandingInsertPosition (packetNum : Z)
    (packets : list OutstandingPacketWrapper) : nat :=
  find_if_reverse_base
    (fun packetWithTime =>
       packetSequenceNum (header (packet packetWithTime)) <? packetNum)
    (rev packets).

Definition bump (pnSpace : PacketNumberSpace.t)
    (count : PacketNumberSpace.t -> Z) : PacketNumberSpace.t -> Z :=
  fun s => if decide (s = pnSpace) then wrap64 (count s + 1) else count s.

(** [updateConnection].  [encodedSize] and [encodedBodySize] are
    [uint32_t]s added to 64-bit counters.  Not kept: the time stamps of
    [lossState], per-stream details and packet marks, and what the
    congestion controller, the pacer, the packet processors and the
    path-validation limiter do when they are told of the packet
    ([onPacketSent]).  It is the congestion controller that raises
    [lossState.inflightBytes] there, so for a connection with a controller
    attached that field is the one from before the call. *)
Definition updateConnection (clonedPacketIdentifier : option Z)
    (packet : RegularQuicWritePacket)
    (sentTime encodedSize encodedBodySize : Z) (isDSRPacket : bool)
  : M QuicConnectionStateBase unit :=
  let packetNum := packetSequenceNum (header packet) in
  let packetNumberSpace := packetNumberSpace (header packet) in
  locals <--
    forEachFrame (updateConnection_frame packet clonedPacketIdentifier)
      (frames packet) (mkLocals false false 0) ;;
  conn <-- get ;;
  match getAckState conn packetNumberSpace with
  | None => abort
  | Some ackState =>
      let nonDsrPacketSequenceNumber :=
        ackNonDsrPacketSequenceNumber ackState in
      increaseNextPacketNum packetNumberSpace isDSRPacket ;;;
      modifyLossState (fun ls =>
        set_largestSent
          (Some (Z.max (default packetNum (largestSent ls)) packetNum))
          ls) ;;;
      modifyPendingEvents (fun e =>
        if setLossDetectionAlarm e then e
        else set_setLossDetectionAlarm (retransmittable locals) e) ;;;
      modifyLossState (fun ls =>
        set_totalBytesSent (wrap64 (totalBytesSent ls + encodedSize)) ls) ;;;
      modifyLossState (fun ls =>
        set_totalBodyBytesSent
          (wrap64 (totalBodyBytesSent ls + encodedBodySize)) ls) ;;;
      modifyLossState (fun ls =>
        set_totalPacketsSent (wrap64 (totalPacketsSent ls + 1)) ls) ;;;
      modify (countPacketInCurrentPhase packet) ;;;
      if negb (retransmittable locals) && negb (isPing locals) then ret tt
      else
        modifyLossState (fun ls =>
          set_totalAckElicitingPacketsSent
            (wrap64 (totalAckElicitingPacketsSent ls + 1)) ls) ;;;
        conn <-- get ;;
        let packetIt :=
          outstandingInsertPosition packetNum
            (packets (outstandings conn)) in
        let pkt :=
          mkOutstanding packet sentTime encodedSize encodedBodySize
            (totalBytesSent (lossState conn))
            (wrap64 (inflightBytes (lossState conn) + encodedSize))
            clonedPacketIdentifier isDSRPacket
            (if isDSRPacket then None else Some nonDsrPacketSequenceNumber) in
        let out := outstandings conn in
        let out := set_packets (emplace packetIt pkt (packets out)) out in
        let out :=
          if isDSRPacket then set_dsrCount (wrap64 (dsrCount out + 1)) out
          else out in
        let out :=
          match clonedPacketIdentifier with
          | Some _ =>
              set_clonedPacketCount
                (bump packetNumberSpace (clonedPacketCount out)) out
          | None =>
              set_packetCount (bump packetNumberSpace (packetCount out)) out
          end in
        let ls := lossState conn in
        let ls :=
          match clonedPacketIdentifier with
          | Some _ =>
              set_totalBytesCloned
                (wrap64 (totalBytesCloned ls + encodedSize)) ls
          | None => ls
          end in
        put (set_lossState ls (set_outstandings out conn))
  end.

(** *** Key update *)

(** [updateOneRttWriteCipher]; the cipher itself is not kept. *)
Definition updateOneRttWriteCipher (oneRttPhase : ProtectionType.t)
  : M QuicConnectionStateBase unit :=
  conn <-- get ;;
  CHECK (bool_decide (oneRttPhase = ProtectionType.KeyPhaseZero)
         || bool_decide (oneRttPhase = ProtectionType.KeyPhaseOne)) ;;;
  CHECK (negb (bool_decide (oneRttPhase = oneRttWritePhase conn))) ;;;
  put (set_oneRttWritePacketsSentInCurrentPhase 0
         (set_oneRttWritePhase oneRttPhase conn)).

(** [maybeHandleIncomingKeyUpdate]. *)
Definition maybeHandleIncomingKeyUpdate : M QuicConnectionStateBase unit :=
  conn <-- get ;;
  if negb (bool_decide (currentOneRttReadPhase (readCodec conn)
                        = oneRttWritePhase conn))
  then updateOneRttWriteCipher (currentOneRttReadPhase (readCodec conn))
  else ret tt.

(** [maybeInitiateKeyUpdate]. *)
Definition maybeInitiateKeyUpdate : M QuicConnectionStateBase unit :=
  conn <-- get ;;
  if initiateKeyUpdate (transportSettings conn) then
    let packetsBeforeNextUpdate :=
      match firstKeyUpdatePacketCount (transportSettings conn) with
      | Some n => n
      | None => keyUpdatePacketCountInterval (transportSettings conn)
      end in
    if (packetsBeforeNextUpdate <? oneRttWritePacketsSentInCurrentPhase conn)
       && canInitiateKeyUpdate (readCodec conn)
    then
      modify (fun conn =>
        set_readCodec (advanceOneRttReadPhase (readCodec conn)) conn) ;;;
      modify (fun conn =>
        set_transportSettings
          (set_firstKeyUpdatePacketCount None (transportSettings conn))
          conn) ;;;
      conn <-- get ;;
      updateOneRttWriteCipher (currentOneRttReadPhase (readCodec conn)) ;;;
      modify (set_oneRttWritePendingVerification true) ;;;
      modify (set_oneRttWritePendingVerificationPacketNumber None)
    else ret tt
  else ret tt.

(** [maybeVerifyPendingKeyUpdate]: [outstandingPacket] is being
    acknowledged by the received packet [ackPacket]. *)
Definition maybeVerifyPendingKeyUpdate
    (outstandingPacket : OutstandingPacketWrapper)
    (ackPacket : PacketHeader) : M QuicConnectionStateBase unit :=
  conn <-- get ;;
  if negb (bool_decide
             (protectionTypeToEncryptionLevel
                (protectionType (header (packet outstandingPacket)))
              = EncryptionLevel.AppData))
  then ret tt
  else
    match oneRttWritePendingVerificationPacketNumber conn with
    | Some pending =>
        if pending <=? packetSequenceNum (header (packet outstandingPacket))
        then
          if bool_decide (protectionType ackPacket = oneRttWritePhase conn)
          then
            modify (set_oneRttWritePendingVerificationPacketNumber None) ;;;
            modify (set_oneRttWritePendingVerification false)
          else throw CRYPTO_ERROR
        else ret tt
    | None => ret tt
    end.

(** *** Writable bytes *)

Definition unlimitedWritableBytes (conn : QuicConnectionStateBase) : Z :=
  uint64_max.

(** Unsigned division traps on a zero divisor. *)
Definition roundUpToPacketLen (writableBytes : Z)
  : M QuicConnectionStateBase Z :=
  conn <-- get ;;
  if udpSendPacketLen conn =? 0 then abort
  else
    ret (wrap64 (wrap64 (writableBytes + udpSendPacketLen conn - 1)
                 / udpSendPacketLen conn * udpSendPacketLen conn)).

(** [maybeUnvalidatedClientWritableBytes]. *)
Definition maybeUnvalidatedClientWritableBytes
  : M QuicConnectionStateBase Z :=
  conn <-- get ;;
  match writableBytesLimit conn with
  | None => ret (unlimitedWritableBytes conn)
  | Some limit =>
      if limit <=? totalBytesSent (lossState conn) then ret 0
      else
        let writableBytes :=
          wrap64 (limit - totalBytesSent (lossState conn)) in
        roundUpToPacketLen writableBytes
  end.

(** [congestionControlWritableBytes]. *)
Definition congestionControlWritableBytes : M QuicConnectionStateBase Z :=
  conn <-- get ;;
  writableBytes <--
    (if pathChallenge (pendingEvents conn) || outstandingPathValidation conn
     then
       match pathValidationLimiter conn with
       | None => abort
       | Some credit =>
           CHECK (bool_decide (writableBytesLimit conn = None)) ;;;
           ret credit
       end
     else
       match writableBytesLimit conn with
       | Some _ => maybeUnvalidatedClientWritableBytes
       | None => ret uint64_max
       end) ;;
  let writableBytes :=
    match congestionController conn with
    | Some ccWritableBytes =>
        let writableBytes := Z.min writableBytes ccWritableBytes in
        match throttlingBytesToSend conn with
        | Some bytesToSend => Z.min bytesToSend writableBytes
        | None => writableBytes
        end
    | None => writableBytes
    end in
  if writableBytes =? uint64_max then ret writableBytes
  else roundUpToPacketLen writableBytes.

(** [QuicServerTransport::verifiedClientAddress], for a transport that
    has its server connection. *)
Definition verifiedClientAddress (conn : QuicConnectionStateBase)
  : QuicConnectionStateBase :=
  set_writableBytesLimit None (set_isClientAddrVerified true conn).

End Transport.

(** ** Sending, as the write functions do it

    A packet is built for the next packet number of its space
    ([getNextPacketNum], as [writeConnectionDataToSocket] does) and then
    recorded with [updateConnection]; a probe write first skips a packet
    number ([writeProbingDataToSocket]). *)

Record PacketToSend : Type := mkToSend {
  toSendSpace : PacketNumberSpace.t;
  toSendProtection : ProtectionType.t;
  toSendFrames : list QuicWriteFrame;
  toSendCloned : option Z;
  toSendTime : Z;
  toSendSize : Z;
  toSendBodySize : Z;
  toSendDSR : bool
}.

Inductive SendEvent : Type :=
| SendPacket (p : PacketToSend)
| SkipPacketNumber (pnSpace : PacketNumberSpace.t).

Section Sending.
Variable protectionTypeToEncryptionLevel :
  ProtectionType.t -> EncryptionLevel.t.

Definition sendPacket (p : PacketToSend) : M QuicConnectionStateBase unit :=
  conn <-- get ;;
  match getNextPacketNum conn (toSendSpace p) with
  | None => abort
  | Some packetNum =>
      updateConnection protectionTypeToEncryptionLevel (toSendCloned p)
        (mkPacket
           (mkHeader (toSendSpace p) (toSendProtection p) packetNum)
           (toSendFrames p))
        (toSendTime p) (toSendSize p) (toSendBodySize p) (toSendDSR p)
  end.

Definition runSendEvent (e : SendEvent) : M QuicConnectionStateBase unit :=
  match e with
  | SendPacket p => sendPacket p
  | SkipPacketNumber pnSpace => increaseNextPacketNum pnSpace false
  end.

Fixpoint runSendEvents (events : list SendEvent)
  : M QuicConnectionStateBase unit :=
  match events with
  | [] => ret tt
  | e :: rest => runSendEvent e ;;; runSendEvents rest
  end.
End Sending.

Definition packetNumOf (op : OutstandingPacketWrapper) : Z :=
  packetSequenceNum (header (packet op)).

Definition spaceOf (op : OutstandingPacketWrapper) : PacketNumberSpace.t :=
  packetNumberSpace (header (packet op)).

(** The packet numbers of the outstanding packets of one space, in the
    order of the list. *)
Definition packetNumsInSpace (pnSpace : PacketNumberSpace.t)
    (l : list OutstandingPacketWrapper) : list Z :=
  packetNumOf <$> filter (fun op => spaceOf op = pnSpace) l.

(** Within every packet-number space, strictly increasing packet
    numbers. *)
Definition sortedInEachSpace (l : list OutstandingPacketWrapper) : Prop :=
  forall pnSpace, StronglySorted Z.lt (packetNumsInSpace pnSpace l).

(** ** Writing packets to the socket *)

(** What the packet builder hands back for one packet: the frames the
    scheduler put into it and the lengths of the encoded header and body.
    The builder keeps the header it was created with. *)
Record BuiltPacket : Type := mkBuilt {
  builtFrames : list QuicWriteFrame;
  builtHeaderLen : Z;
  builtBodyLen : Z
}.

Module SchedulingResult.
Record t : Type := mk {
  clonedPacketIdentifier : option Z;
  packet : option BuiltPacket;
  shortHeaderPadding : Z
}.
End SchedulingResult.

Module DataPathResult.
Record t : Type := mk {
  buildSuccess : bool;
  writeSuccess : bool;
  result : option SchedulingResult.t;
  encodedSize : Z;
  encodedBodySize : Z
}.
Definition makeBuildFailure : t := mk false false None 0 0.
Definition makeWriteResult (written : bool) (r : SchedulingResult.t)
    (encodedSize encodedBodySize : Z) : t :=
  mk true written (Some r) encodedSize encodedBodySize.
End DataPathResult.

Record WriteQuicDataResult : Type := mkWriteResult {
  packetsWritten : Z;
  probesWritten : Z;
  bytesWritten : Z
}.

(** The collaborators of the write loop, which live outside the core: the
    packet scheduler ([QuicPacketScheduler]) and the batch with its socket
    and the clock ([IOBufQuicBatch], [Clock]).  A scheduler may change the
    connection while it schedules frames. *)
Class WriteEnvironment (Scheduler World : Type) : Type := {
  hasData : Scheduler -> QuicConnectionStateBase -> bool;
  scheduleFramesForPacket :
    PacketHeader -> Z -> Z -> Scheduler * QuicConnectionStateBase ->
    SchedulingResult.t * (Scheduler * QuicConnectionStateBase);
  hasBufferedDataToWrite : World -> bool;
  batchWrite : Z -> World -> bool * World;
  batchFlush : World -> bool * World;
  getPktSent : World -> Z;
  clockNow : World -> Z
}.

Section WriteLoop.
Context {Scheduler World : Type} `{WriteEnvironment Scheduler World}.

Variable protectionTypeToEncryptionLevel :
  ProtectionType.t -> EncryptionLevel.t.

Record WriteState : Type := mkWriteState {
  connection : QuicConnectionStateBase;
  scheduler : Scheduler;
  ioBufBatch : World
}.

Definition onConnection {A} (c : M QuicConnectionStateBase A)
  : M WriteState A :=
  fun st =>
    match c (connection st) with
    | Returned a conn =>
        Returned a (mkWriteState conn (scheduler st) (ioBufBatch st))
    | Thrown code conn =>
        Thrown code (mkWriteState conn (scheduler st) (ioBufBatch st))
    | Fatal => Fatal
    end.

(** [ioBufBatch.flush()] followed by [updateErrnoCount], whose counters
    ([eagainOrEwouldblockCount], [enobufsCount]) are not kept. *)
Definition flush : M WriteState bool :=
  fun st =>
    let '(ok, world) := batchFlush (ioBufBatch st) in
    Returned ok (mkWriteState (connection st) (scheduler st) world).

Definition write (encodedSize : Z) : M WriteState bool :=
  fun st =>
    let '(ok, world) := batchWrite encodedSize (ioBufBatch st) in
    Returned ok (mkWriteState (connection st) (scheduler st) world).

Definition noteNoWriteReason (reason : NoWriteReason) : M WriteState unit :=
  onConnection (modify (fun conn =>
    if loopDetectorCallback conn then set_noWriteReason reason conn
    else conn)).

(** [writeLoopTimeLimit]. *)
Definition writeLoopTimeLimit (loopBeginTime now : Z)
    (conn : QuicConnectionStateBase) : bool :=
  (srtt (lossState conn) =? 0)
  || (writeLimitRttFraction (transportSettings conn) =? 0)
  || (now - loopBeginTime
      <? srtt (lossState conn)
         / writeLimitRttFraction (transportSettings conn)).

(** [iobufChainBasedBuildScheduleEncrypt]: schedule the frames of one
    packet, encrypt it and hand it to the batch.  The encrypted packet is
    the header, the body and the cipher overhead.
    [continuousMemoryBuildScheduleEncrypt] does the same bookkeeping on a
    shared buffer. *)
Definition iobufChainBasedBuildScheduleEncrypt (header : PacketHeader)
    (pnSpace : PacketNumberSpace.t) (packetNum cipherOverhead : Z)
    (writableBytes : Z) : M WriteState DataPathResult.t :=
  st <-- get ;;
  let '(result, (sched, conn)) :=
    scheduleFramesForPacket header cipherOverhead writableBytes
      (scheduler st, connection st) in
  put (mkWriteState conn sched (ioBufBatch st)) ;;;
  match SchedulingResult.packet result with
  | None =>
      flush ;;; noteNoWriteReason NO_FRAME ;;;
      ret DataPathResult.makeBuildFailure
  | Some built =>
      match builtFrames built with
      | [] =>
          flush ;;; noteNoWriteReason NO_FRAME ;;;
          ret DataPathResult.makeBuildFailure
      | _ :: _ =>
          if builtBodyLen built =? 0 then
            flush ;;; noteNoWriteReason NO_BODY ;;;
            ret DataPathResult.makeBuildFailure
          else
            let encodedSize :=
              builtHeaderLen built + builtBodyLen built + cipherOverhead in
            let encodedBodySize := encodedSize - builtHeaderLen built in
            written <-- write encodedSize ;;
            ret (DataPathResult.makeWriteResult written result encodedSize
                   encodedBodySize)
      end
  end.

Inductive LoopStep : Type :=
| Continue (bytesWritten : Z)
| Return (r : WriteQuicDataResult).

(** One round of the [while] loop of [writeConnectionDataToSocket].  The
    writable bytes and the sizes handed to [updateConnection] go through
    [folly::to<uint32_t>]. *)
Definition writeConnectionDataToSocket_round
    (builder : Z -> PacketHeader) (pnSpace : PacketNumberSpace.t)
    (writableBytesFunc : M QuicConnectionStateBase Z)
    (cipherOverhead sentTime bytesWritten : Z) : M WriteState LoopStep :=
  st <-- get ;;
  match getNextPacketNum (connection st) pnSpace with
  | None => abort
  | Some packetNum =>
      let header := builder packetNum in
      budget <-- onConnection writableBytesFunc ;;
      writableBytes <--
        to_uint32 (Z.min (udpSendPacketLen (connection st)) budget) ;;
      let writableBytes :=
        if writableBytes <? cipherOverhead then 0
        else writableBytes - cipherOverhead in
      ret' <--
        iobufChainBasedBuildScheduleEncrypt header pnSpace packetNum
          cipherOverhead writableBytes ;;
      if negb (DataPathResult.buildSuccess ret') then
        flush ;;;
        st <-- get ;;
        ret (Return (mkWriteResult (getPktSent (ioBufBatch st)) 0
                       bytesWritten))
      else
        match DataPathResult.result ret' with
        | Some result =>
            match SchedulingResult.packet result with
            | Some built =>
                let bytesWritten :=
                  wrap64 (bytesWritten + DataPathResult.encodedSize ret') in
                encodedSize <--
                  to_uint32 (DataPathResult.encodedSize ret') ;;
                encodedBodySize <--
                  to_uint32 (DataPathResult.encodedBodySize ret') ;;
                onConnection
                  (updateConnection protectionTypeToEncryptionLevel
                     (SchedulingResult.clonedPacketIdentifier result)
                     (mkPacket header (builtFrames built))
                     sentTime encodedSize encodedBodySize false) ;;;
                if negb (DataPathResult.writeSuccess ret') then
                  noteNoWriteReason SOCKET_FAILURE ;;;
                  st <-- get ;;
                  ret (Return (mkWriteResult (getPktSent (ioBufBatch st)) 0
                                 bytesWritten))
                else
                  st <-- get ;;
                  (if match batchingMode
                              (transportSettings (connection st)) with
                      | BATCHING_MODE_NONE =>
                          singlePacketInplaceBatchWriter
                            (transportSettings (connection st))
                      | _ => false
                      end
                   then flush ;;; ret tt else ret tt) ;;;
                  ret (Continue bytesWritten)
            | None => abort
            end
        | None => abort
        end
  end.

(** The [while] loop; [fuel] bounds the number of rounds. *)
Fixpoint writeConnectionDataToSocket_loop (fuel : nat)
    (builder : Z -> PacketHeader) (pnSpace : PacketNumberSpace.t)
    (writableBytesFunc : M QuicConnectionStateBase Z)
    (packetLimit cipherOverhead writeLoopBeginTime sentTime batchSize : Z)
    (bytesWritten : Z) : M WriteState (option LoopStep) :=
  match fuel with
  | O => ret None
  | S fuel' =>
      st <-- get ;;
      let pktSent := getPktSent (ioBufBatch st) in
      if hasData (scheduler st) (connection st)
         && (pktSent <? packetLimit)
         && ((pktSent <? batchSize)
             || writeLoopTimeLimit writeLoopBeginTime
                  (clockNow (ioBufBatch st)) (connection st))
      then
        step <--
          writeConnectionDataToSocket_round builder pnSpace
            writableBytesFunc cipherOverhead sentTime bytesWritten ;;
        match step with
        | Continue bytesWritten' =>
            writeConnectionDataToSocket_loop fuel' builder pnSpace
              writableBytesFunc packetLimit cipherOverhead
              writeLoopBeginTime sentTime batchSize bytesWritten'
        | Return r => ret (Some (Return r))
        end
      else ret (Some (Continue bytesWritten))
  end.

(** [writeConnectionDataToSocket]; [None] when [fuel] rounds did not
    finish the loop.  The probing of GSO support and the choice of the
    batch writer are left to the environment, and what the function notes
    besides for diagnosis is not kept: the scheduler's name in
    [writeDebugState], [gsoSupported], the fall-back of
    [transportSettings.dataPathType] to chained memory, the errno counters
    and the statistics callbacks. *)
Definition writeConnectionDataToSocket (fuel : nat)
    (builder : Z -> PacketHeader) (pnSpace : PacketNumberSpace.t)
    (writableBytesFunc : M QuicConnectionStateBase Z)
    (packetLimit cipherOverhead writeLoopBeginTime : Z)
  : M WriteState (option WriteQuicDataResult) :=
  onConnection (modify (fun conn =>
    if loopDetectorCallback conn then set_noWriteReason WRITE_OK conn
    else conn)) ;;;
  st <-- get ;;
  let pendingBufferedWrite := hasBufferedDataToWrite (ioBufBatch st) in
  if negb (hasData (scheduler st) (connection st))
     && negb pendingBufferedWrite
  then
    noteNoWriteReason EMPTY_SCHEDULER ;;;
    ret (Some (mkWriteResult 0 0 0))
  else
    flushed <-- (if pendingBufferedWrite then flush else ret true) ;;
    if negb flushed then ret (Some (mkWriteResult 0 0 0))
    else
      st <-- get ;;
      let batchSize :=
        match batchingMode (transportSettings (connection st)) with
        | BATCHING_MODE_NONE =>
            writeConnectionDataPacketsLimit
              (transportSettings (connection st))
        | _ => maxBatchSize (transportSettings (connection st))
        end in
      let sentTime := clockNow (ioBufBatch st) in
      step <--
        writeConnectionDataToSocket_loop fuel builder pnSpace
          writableBytesFunc packetLimit cipherOverhead writeLoopBeginTime
          sentTime batchSize 0 ;;
      match step with
      | None => ret None
      | Some (Return r) => ret (Some r)
      | Some (Continue bytesWritten) =>
          flush ;;;
          st <-- get ;;
          ret (Some (mkWriteResult (getPktSent (ioBufBatch st)) 0
                       bytesWritten))
      end.

End WriteLoop.

(** ** Wire codec *)

(** Big-endian bytes, as 8-bit integers. *)
Fixpoint bytesBE (n : nat) (x : Z) : list Z :=
  match n with
  | O => []
  | S n' => (x / 256 ^ Z.of_nat n') mod 256 :: bytesBE n' x
  end.

Definition fromBE (l : list Z) : Z :=
  fold_left (fun acc b => acc * 256 + b) l 0.

Module QuicInteger.

(** Modelled from the spec: the variable-length integer codec
    (quic/codec/QuicInteger.h) is not among the sources.  "Two
    most-significant bits of the first byte encode the length: 00 -> 1
    byte (6-bit value), 01 -> 2 (14), 10 -> 4 (30), 11 -> 8 (62).  Values
    >= 2^62 must not be encoded", and "the encoded length matches the
    minimum form class". *)
Definition encode (v : Z) : option (list Z) :=
  if v <? 0 then None
  else if v <? 2 ^ 6 then Some (bytesBE 1 v)
  else if v <? 2 ^ 14 then Some (bytesBE 2 (1 * 2 ^ 14 + v))
  else if v <? 2 ^ 30 then Some (bytesBE 4 (2 * 2 ^ 30 + v))
  else if v <? 2 ^ 62 then Some (bytesBE 8 (3 * 2 ^ 62 + v))
  else None.

(** Modelled from the spec: decoding consumes 1, 2, 4 or 8 bytes as the
    first byte says and fails on truncation. *)
Definition decode (cursor : list Z) : option (Z * list Z) :=
  match cursor with
  | [] => None
  | b0 :: _ =>
      let len := Z.to_nat (2 ^ (b0 / 64)) in
      if (length cursor <? len)%nat then None
      else
        Some (fromBE (take len cursor) mod 2 ^ (8 * Z.of_nat len - 2),
              drop len cursor)
  end.

End QuicInteger.

(** The frame types used below, with the values RFC 9000 and the
    reliable-reset extension give them; quic/QuicConstants.h is not among
    the sources. *)
Module FrameType.
Definition ACK : Z := 0x02.
Definition ACK_ECN : Z := 0x03.
Definition RST_STREAM : Z := 0x04.
Definition RST_STREAM_AT : Z := 0x24.
End FrameType.

Record AckBlock : Type := mkAckBlock { startPacket : Z; endPacket : Z }.

Record ReadAckFrame : Type := mkReadAckFrame {
  largestAcked : Z;
  ackDelay : Z;
  ackBlocks : list AckBlock
}.

Module RstStreamFrame.
Record t : Type := mk {
  streamId : Z;
  errorCode : Z;
  finalSize : Z;
  reliableSize : option Z
}.
End RstStreamFrame.

Inductive QuicFrame : Type :=
| ReadAckFrame_ (f : ReadAckFrame)
| RstStreamFrame_ (f : RstStreamFrame.t)
| OtherFrame_ (frameType : Z).

Module Decode.

(** A decoder reads from the cursor, the bytes not consumed yet. *)
Definition Cursor : Type := list Z.

(** Modelled from the spec: reading a variable-length integer of a frame;
    "the decoder fails with FrameEncodingError on truncation". *)
Definition decodeQuicInteger : M Cursor Z :=
  cursor <-- get ;;
  match QuicInteger.decode cursor with
  | Some (v, rest) => put rest ;;; ret v
  | None => throw FRAME_ENCODING_ERROR
  end.

(** Modelled from the spec: "for each subsequent pair (gap, blockLen):
    the next block ends at prevStart - gap - 2 and has length blockLen.
    Underflow of the end (< 0) or of the start is a protocol error.  A
    zero-length block yields a single-packet range [end, end]". *)
Fixpoint decodeAckBlocks (numBlocks : nat) (prevStart : Z)
  : M Cursor (list AckBlock) :=
  match numBlocks with
  | O => ret []
  | S n =>
      gap <-- decodeQuicInteger ;;
      blockLen <-- decodeQuicInteger ;;
      if prevStart <? gap + 2 then throw FRAME_ENCODING_ERROR
      else
        let nextEnd := prevStart - gap - 2 in
        if nextEnd <? blockLen then throw FRAME_ENCODING_ERROR
        else
          let start := nextEnd - blockLen in
          rest <-- decodeAckBlocks n start ;;
          ret (mkAckBlock start nextEnd :: rest)
  end.

(** Modelled from the spec: the ACK frame decoder ([decodeAckFrame] of
    quic/codec/Decode.cpp, not among the sources).  "Read largestAcked,
    ackDelay, numAdditionalBlocks, firstAckBlockLength.  First block
    covers [largestAcked - firstAckBlockLength, largestAcked];
    firstAckBlockLength > largestAcked is a protocol error. [...]
    ackDelay is multiplied by 2^ackDelayExponent microseconds; values
    overflowing u64 microseconds are a protocol error." *)
Definition decodeAckFrame (ackDelayExponent : Z) : M Cursor ReadAckFrame :=
  largestAcked <-- decodeQuicInteger ;;
  ackDelay <-- decodeQuicInteger ;;
  numAdditionalBlocks <-- decodeQuicInteger ;;
  firstAckBlockLength <-- decodeQuicInteger ;;
  if largestAcked <? firstAckBlockLength then throw FRAME_ENCODING_ERROR
  else
    let currentPacketNum := largestAcked - firstAckBlockLength in
    let adjustedAckDelay := ackDelay * 2 ^ ackDelayExponent in
    if 2 ^ 64 <=? adjustedAckDelay then throw FRAME_ENCODING_ERROR
    else
      blocks <--
        decodeAckBlocks (Z.to_nat numAdditionalBlocks) currentPacketNum ;;
      ret (mkReadAckFrame largestAcked adjustedAckDelay
             (mkAckBlock currentPacketNum largestAcked :: blocks)).

(** Modelled from the spec: the decoder of RESET_STREAM and
    RESET_STREAM_AT, which "extends RESET_STREAM with a reliableSize;
    reliableSize > finalSize is a protocol error". *)
Definition decodeRstStreamFrame (reliable : bool)
  : M Cursor RstStreamFrame.t :=
  streamId <-- decodeQuicInteger ;;
  errorCode <-- decodeQuicInteger ;;
  finalSize <-- decodeQuicInteger ;;
  if reliable then
    reliableSize <-- decodeQuicInteger ;;
    if finalSize <? reliableSize then throw FRAME_ENCODING_ERROR
    else
      ret (RstStreamFrame.mk streamId errorCode finalSize
             (Some reliableSize))
  else ret (RstStreamFrame.mk streamId errorCode finalSize None).

(** Modelled from the spec: "the decoder reads a frame type, dispatches
    on it, and consumes the enclosed fields".  Only the frames above are
    decoded here; of any other frame the type is reported. *)
Definition parseFrame (ackDelayExponent : Z) : M Cursor QuicFrame :=
  frameType <-- decodeQuicInteger ;;
  if frameType =? FrameType.ACK then
    f <-- decodeAckFrame ackDelayExponent ;; ret (ReadAckFrame_ f)
  else if frameType =? FrameType.RST_STREAM then
    f <-- decodeRstStreamFrame false ;; ret (RstStreamFrame_ f)
  else if frameType =? FrameType.RST_STREAM_AT then
    f <-- decodeRstStreamFrame true ;; ret (RstStreamFrame_ f)
  else ret (OtherFrame_ frameType).

End Decode.

(** *** The frame writers of the decoder tests *)

Module DecodeTest.

(** [QuicInteger::encode] into the appender; a value that cannot be
    encoded writes nothing. *)
Definition encode (v : Z) : list Z :=
  match QuicInteger.encode v with
  | Some bytes => bytes
  | None => []
  end.

Definition encodeOpt (v : option Z) : list Z :=
  match v with
  | Some v => encode v
  | None => []
  end.

Definition kDefaultAckDelayExponent : Z := 3.

(** [createAckFrame]: each of the four leading fields is written when
    given; [useRealValuesForLargestAcked] and [useRealValuesForAckDelay]
    write the raw integer instead ([realWidth] bytes for the largest
    acked, 8 for the delay); [ackBlocks] are pairs (gap, blockLen). *)
Definition createAckFrame (largestAcked ackDelay : option Z)
    (numAdditionalBlocks firstAckBlockLength : option Z)
    (ackBlocks : list (Z * Z))
    (useRealValuesForLargestAcked useRealValuesForAckDelay : bool)
    (addEcnCounts : bool) (realWidth : nat) : list Z :=
  (match largestAcked with
   | Some v =>
       if useRealValuesForLargestAcked
       then bytesBE realWidth (v mod 256 ^ Z.of_nat realWidth)
       else encode v
   | None => []
   end)
  ++ (match ackDelay with
      | Some v => if useRealValuesForAckDelay then bytesBE 8 v else encode v
      | None => []
      end)
  ++ encodeOpt numAdditionalBlocks
  ++ encodeOpt firstAckBlockLength
  ++ flat_map (fun '(gap, blockLen) => encode gap ++ encode blockLen)
       ackBlocks
  ++ (if addEcnCounts then encode 1 ++ encode 2 ++ encode 3 else []).

(** [createRstStreamFrame]. *)
Definition createRstStreamFrame (streamId errorCode finalSize : Z)
    (reliableSize : option Z) : list Z :=
  let frameType :=
    match reliableSize with
    | Some _ => FrameType.RST_STREAM_AT
    | None => FrameType.RST_STREAM
    end in
  encode frameType
  ++ encode streamId
  ++ encode errorCode
  ++ encode finalSize
  ++ encodeOpt reliableSize.

(** The frame of the test [AckFrameBlockLengthZero]. *)
Definition ackFrameBlockLengthZero : list Z :=
  createAckFrame (Some 1000) (Some 100) (Some 3) (Some 10)
    [(10, 10); (10, 0); (0, 10)] false false false 8.

End DecodeTest.

(** What the decoder is to make of the (gap, blockLen) pairs of an ACK
    frame: each block ends at the start of the one before, less the gap,
    less 2, and spans [blockLen] packets below its end. *)
Fixpoint followsGaps (prevStart : Z) (pairs : list (Z * Z))
    (blocks : list AckBlock) : Prop :=
  match pairs, blocks with
  | [], [] => True
  | (gap, blockLen) :: pairs', block :: blocks' =>
      endPacket block = prevStart - gap - 2
      /\ startPacket block = endPacket block - blockLen
      /\ followsGaps (startPacket block) pairs' blocks'
  | _, _ => False
  end.

(** ** Notions used in the statements *)

(** The entries the loop of [removeFromLossBuffer] walks past. *)
Definition skipsEntry (offset len : Z) (p : WSB) : Prop :=
  (wrap64 (offset + len) <? WriteStreamBuffer.offset p) = false
  /\ ((WriteStreamBuffer.offset p <=? offset)
      && (wrap64 (offset + len)
          <=? wrap64 (WriteStreamBuffer.offset p
                      + chainLength (WriteStreamBuffer.data p)))
      || (offset <=? WriteStreamBuffer.offset p)
         && (wrap64 (WriteStreamBuffer.offset p
                     + chainLength (WriteStreamBuffer.data p))
             <=? wrap64 (offset + len))) = false.

(** What the loop over the frames of a packet leaves alone. *)
Definition sameSendState (c c' : QuicConnectionStateBase) : Prop :=
  ackStates c' = ackStates c
  /\ outstandings c' = outstandings c
  /\ totalBytesSent (lossState c') = totalBytesSent (lossState c)
  /\ inflightBytes (lossState c') = inflightBytes (lossState c)
  /\ oneRttWritePhase c' = oneRttWritePhase c
  /\ oneRttWritePendingVerification c' = oneRttWritePendingVerification c
  /\ oneRttWritePendingVerificationPacketNumber c'
     = oneRttWritePendingVerificationPacketNumber c
  /\ oneRttWritePacketsSentInCurrentPhase c'
     = oneRttWritePacketsSentInCurrentPhase c
  /\ writableBytesLimit c' = writableBytesLimit c
  /\ udpSendPacketLen c' = udpSendPacketLen c
  /\ loopDetectorCallback c' = loopDetectorCallback c
  /\ transportSettings c' = transportSettings c.

(** A property of the state a computation ends in, whether it returns or
    throws. *)
Definition outcomeState {S A} (P : S -> Prop) (o : Outcome S A) : Prop :=
  match o with
  | Returned _ s => P s
  | Thrown _ s => P s
  | Fatal => True
  end.

(** [c] only takes a state to states related to it by [R]. *)
Definition preserves {S A} (R : relation S) (c : M S A) : Prop :=
  forall s, outcomeState (R s) (c s).

(** Relating the connections of two states that pair a connection with a
    stream. *)
Definition onFst {C S} (R : relation C) : relation (C * S) :=
  fun st st' => R (fst st) (fst st').

(** The entry [updateConnection] makes for a packet. *)
Definition outstandingEntry (conn : QuicConnectionStateBase)
    (ackState : AckState) (cloned : option Z)
    (pkt : RegularQuicWritePacket) (sentTime size bodySize : Z)
    (isDSR : bool) : OutstandingPacketWrapper :=
  mkOutstanding pkt sentTime size bodySize
    (wrap64 (totalBytesSent (lossState conn) + size))
    (wrap64 (inflightBytes (lossState conn) + size))
    cloned isDSR
    (if isDSR then None
     else Some (ackNonDsrPacketSequenceNumber ackState)).

(** What holds of a connection between writes: in every space the
    outstanding packets are in strictly increasing order of packet number,
    all numbers used lie below the next packet number of their space, and
    [k] more packet numbers can be handed out before the counters wrap. *)
Definition sendInvariant (k : Z) (conn : QuicConnectionStateBase) : Prop :=
  sortedInEachSpace (packets (outstandings conn))
  /\ (forall op, op ∈ packets (outstandings conn) ->
        exists a, getAckState conn (spaceOf op) = Some a
                  /\ packetNumOf op < nextPacketNum a)
  /\ (forall space a, getAckState conn space = Some a ->
        0 <= nextPacketNum a /\ nextPacketNum a + k < 2 ^ 64).


(** ** Sample connections and collaborators *)

(** [protectionTypeToEncryptionLevel] as quic/handshake/HandshakeLayer.cpp
    has it. *)
Definition sampleEncryptionLevel (t : ProtectionType.t) : EncryptionLevel.t :=
  match t with
  | ProtectionType.Initial => EncryptionLevel.Initial
  | ProtectionType.Handshake => EncryptionLevel.Handshake
  | ProtectionType.ZeroRtt => EncryptionLevel.EarlyData
  | ProtectionType.KeyPhaseZero | ProtectionType.KeyPhaseOne =>
      EncryptionLevel.AppData
  end.

(** A freshly set up connection: nothing sent, all three packet-number
    spaces alive, packets of up to 1252 bytes. *)
Definition sampleConn : QuicConnectionStateBase :=
  mkConn 1252 None false emptyLossState
    (mkAckStates (Some (mkAckState 0 0)) (Some (mkAckState 0 0))
       (mkAckState 0 0))
    (mkOutstandings [] (fun _ => 0) (fun _ => 0) 0)
    (mkPendingEvents false false false false false ∅)
    false ∅ (fun _ => emptyStream)
    (mkTransportSettings false None 0 BATCHING_MODE_NONE 16 5 0 false)
    ProtectionType.KeyPhaseZero false None 0
    (mkReadCodec ProtectionType.KeyPhaseZero true)
    None None None false WRITE_OK.

(** A server connection whose client address is not validated yet and that
    may send 100 bytes. *)
Definition sampleUnvalidatedConn : QuicConnectionStateBase :=
  set_writableBytesLimit (Some 100) sampleConn.

(** A scheduler with a queue of packets to build, each filling the space it
    is given behind a 20-byte header, and a socket that counts the packets
    written and either takes them all or fails on each. *)
#[global] Instance sampleEnvironment
  : WriteEnvironment (list (list QuicWriteFrame)) (Z * bool) := {|
  hasData := fun sched _ => match sched with [] => false | _ => true end;
  scheduleFramesForPacket := fun _ _ writableBytes '(sched, conn) =>
    match sched with
    | [] => (SchedulingResult.mk None None 0, (sched, conn))
    | frames :: rest =>
        (SchedulingResult.mk None
           (Some (mkBuilt frames 20 (writableBytes - 20))) 0,
         (rest, conn))
    end;
  hasBufferedDataToWrite := fun _ => false;
  batchWrite := fun _ '(sent, ok) => (ok, (sent + 1, ok));
  batchFlush := fun '(sent, ok) => (ok, (sent, ok));
  getPktSent := fun '(sent, _) => sent;
  clockNow := fun _ => 0
|}.

Definition sampleShortHeaderBuilder (packetNum : Z) : PacketHeader :=
  mkHeader PacketNumberSpace.AppData ProtectionType.KeyPhaseZero packetNum.

(** Whether a computation returns. *)
Definition isReturned {S A} (o : Outcome S A) : bool :=
  match o with
  | Returned _ _ => true
  | _ => false
  end.

(** The state a computation ends in, [d] when it aborts. *)
Definition finalState {S A} (o : Outcome S A) (d : S) : S :=
  match o with
  | Returned _ s => s
  | Thrown _ s => s
  | Fatal => d
  end.

(** A stream with five bytes waiting to be written. *)
Definition streamWithPendingWrites : QuicStreamLike :=
  set_pendingWrites fiveBytes emptyStream.

(** A connection that is due to initiate a key update: updates are enabled
    with an interval of 0 packets and one packet has been sent in the
    current phase. *)
Definition keyUpdateDueConn : QuicConnectionStateBase :=
  set_oneRttWritePacketsSentInCurrentPhase 1
    (set_transportSettings
       (mkTransportSettings true None 0 BATCHING_MODE_NONE 16 5 0 false)
       sampleConn).

Definition keyUpdatedConn : QuicConnectionStateBase :=
  finalState (maybeInitiateKeyUpdate keyUpdateDueConn) keyUpdateDueConn.

(** The first packet of the new phase, a ping of 100 bytes. *)
Definition firstPacketOfPhase : RegularQuicWritePacket :=
  mkPacket
    (mkHeader PacketNumberSpace.AppData ProtectionType.KeyPhaseOne 0)
    [PingFrame].

Definition verificationPendingConn : QuicConnectionStateBase :=
  finalState
    (updateConnection sampleEncryptionLevel None firstPacketOfPhase 0 100 80
       false keyUpdatedConn)
    keyUpdatedConn.

Definition firstPacketOfPhaseOutstanding : OutstandingPacketWrapper :=
  mkOutstanding firstPacketOfPhase 0 100 80 100 100 None false (Some 0).

(** Two pings in the AppData space with a skipped packet number between
    them. *)
Definition samplePing : PacketToSend :=
  mkToSend PacketNumberSpace.AppData ProtectionType.KeyPhaseZero [PingFrame]
    None 0 100 80 false.

Definition sampleSendEvents : list SendEvent :=
  [SendPacket samplePing; SkipPacketNumber PacketNumberSpace.AppData].

Definition connAfterSendEvents : QuicConnectionStateBase :=
  finalState (runSendEvents sampleEncryptionLevel sampleSendEvents sampleConn)
    sampleConn.

Definition connAfterSecondPing : QuicConnectionStateBase :=
  finalState (sendPacket sampleEncryptionLevel samplePing connAfterSendEvents)
    connAfterSendEvents.



(** ** Dropping what lies at or beyond an offset
    (quic/state/StreamData.h)

    Unsigned 32-bit conversions ([uint32_t(x)]) are written [wrap32]. *)

Definition wrap32 (x : Z) : Z := x mod 2 ^ 32.

(** The loop of [QuicStreamLike::removeFromLossBufStartingAtOffset], on
    the loss buffer in reverse: [lossBuffer.back()] is the head of [rl].
    [data = data.splitAtMost(n)] keeps the split-off head. *)
Fixpoint removeFromLossBufStartingAtOffset_loop (startingOffset : Z)
    (rl : list WSB) : list WSB :=
  match rl with
  | [] => []
  | lastElement :: r =>
      if startingOffset <=? WriteStreamBuffer.offset lastElement then
        removeFromLossBufStartingAtOffset_loop startingOffset r
      else if startingOffset
              <=? wrap64 (WriteStreamBuffer.offset lastElement
                          + chainLength (WriteStreamBuffer.data lastElement))
      then
        WriteStreamBuffer.mk
          (fst (splitAtMost
                  (wrap64 (startingOffset
                           - WriteStreamBuffer.offset lastElement))
                  (WriteStreamBuffer.data lastElement)))
          (WriteStreamBuffer.offset lastElement)
          (WriteStreamBuffer.eof lastElement) :: r
      else rl
  end.

(** [QuicStreamLike::removeFromLossBufStartingAtOffset]. *)
Definition removeFromLossBufStartingAtOffset (startingOffset : Z)
    (s : QuicStreamLike) : QuicStreamLike :=
  set_lossBuffer
    (rev (removeFromLossBufStartingAtOffset_loop startingOffset
            (rev (lossBuffer s)))) s.

(** [QuicStreamLike::removeFromRetransmissionBufStartingAtOffset]: the
    first loop shortens the buffers that reach [startingOffset] and
    collects the keys at or beyond it, the second erases those keys. *)
Definition removeFromRetransmissionBufStartingAtOffset (startingOffset : Z)
    (s : QuicStreamLike) : QuicStreamLike :=
  let offsetsToRemove : gset Z :=
    dom (filter (fun kv => startingOffset <= kv.1)
           (retransmissionBuffer s)) in
  let shortened : gmap Z WSB :=
    map_imap
      (fun offset buf =>
         Some
           (if startingOffset <=? offset then buf
            else if startingOffset
                    <=? wrap64 (offset
                                + chainLength (WriteStreamBuffer.data buf))
            then
              WriteStreamBuffer.mk
                (fst (splitAtMost (wrap64 (startingOffset - offset))
                        (WriteStreamBuffer.data buf)))
                (WriteStreamBuffer.offset buf) (WriteStreamBuffer.eof buf)
            else buf))
      (retransmissionBuffer s) in
  set_retransmissionBuffer
    (set_fold (fun offset m => delete offset m) shortened offsetsToRemove) s.

(** [writeBuffer] and [writeBufferStartOffset] of [QuicStreamLike]: the
    bytes written to the transport that are not scheduled yet. *)
Record WriteBuffer : Type := mkWriteBuffer {
  writeBufferStartOffset : Z;
  writeBuffer : ChainedByteRangeHead
}.

(** [QuicStreamLike::removeFromWriteBufStartingAtOffset]. *)
Definition removeFromWriteBufStartingAtOffset (startingOffset : Z)
    (s : WriteBuffer) : WriteBuffer :=
  if chainEmpty (writeBuffer s)
     || (wrap64 (writeBufferStartOffset s + chainLength (writeBuffer s))
         <=? startingOffset)
  then s
  else if writeBufferStartOffset s <? startingOffset then
    mkWriteBuffer (writeBufferStartOffset s)
      (fst (splitAtMost (wrap64 (startingOffset - writeBufferStartOffset s))
              (writeBuffer s)))
  else
    mkWriteBuffer (writeBufferStartOffset s)
      (snd (splitAtMost (chainLength (writeBuffer s)) (writeBuffer s))).

(** [QuicStreamLike::removeFromPendingWritesStartingAtOffset]. *)
Definition removeFromPendingWritesStartingAtOffset (startingOffset : Z)
    (s : QuicStreamLike) : QuicStreamLike :=
  if chainEmpty (pendingWrites s)
     || (wrap64 (currentWriteOffset s + chainLength (pendingWrites s))
         <=? startingOffset)
  then s
  else if currentWriteOffset s <? startingOffset then
    set_pendingWrites
      (fst (splitAtMost (wrap64 (startingOffset - currentWriteOffset s))
              (pendingWrites s))) s
  else
    set_pendingWrites
      (snd (splitAtMost (chainLength (pendingWrites s)) (pendingWrites s)))
      s.

(** [QuicStreamState::removeFromWriteBufMetaStartingAtOffset]; the new
    length goes through [uint32_t]. *)
Definition removeFromWriteBufMetaStartingAtOffset (startingOffset : Z)
    (s : QuicStreamState) : QuicStreamState :=
  let m := writeBufMeta s in
  if startingOffset <=? WriteBufferMeta.offset m then
    set_writeBufMeta
      (WriteBufferMeta.mk 0 (WriteBufferMeta.offset m)
         (WriteBufferMeta.eof m)) s
  else if (WriteBufferMeta.offset m <? startingOffset)
          && (startingOffset
              <=? wrap64 (WriteBufferMeta.offset m
                          + WriteBufferMeta.length m))
  then
    set_writeBufMeta
      (WriteBufferMeta.mk
         (wrap32 (wrap64 (startingOffset - WriteBufferMeta.offset m)))
         (WriteBufferMeta.offset m) (WriteBufferMeta.eof m)) s
  else s.

(** [QuicStreamState::removeFromRetransmissionBufMetasStartingAtOffset]. *)
Definition removeFromRetransmissionBufMetasStartingAtOffset
    (startingOffset : Z) (s : QuicStreamState) : QuicStreamState :=
  let offsetsToRemove : gset Z :=
    dom (filter (fun kv => startingOffset <= kv.1)
           (retransmissionBufMetas s)) in
  let shortened : gmap Z WBM :=
    map_imap
      (fun offset buf =>
         Some
           (if startingOffset <=? offset then buf
            else if startingOffset
                    <=? wrap64 (offset + WriteBufferMeta.length buf)
            then
              WriteBufferMeta.mk (wrap64 (startingOffset - offset))
                (WriteBufferMeta.offset buf) (WriteBufferMeta.eof buf)
            else buf))
      (retransmissionBufMetas s) in
  set_retransmissionBufMetas
    (set_fold (fun offset m => delete offset m) shortened offsetsToRemove) s.

(** The loop of [QuicStreamState::removeFromLossBufMetasStartingAtOffset],
    on [lossBufMetas] in reverse; the new length goes through
    [uint32_t]. *)
Fixpoint removeFromLossBufMetasStartingAtOffset_loop (startingOffset : Z)
    (rl : list WBM) : list WBM :=
  match rl with
  | [] => []
  | lastElement :: r =>
      if startingOffset <=? WriteBufferMeta.offset lastElement then
        removeFromLossBufMetasStartingAtOffset_loop startingOffset r
      else if startingOffset
              <=? wrap64 (WriteBufferMeta.offset lastElement
                          + WriteBufferMeta.length lastElement)
      then
        WriteBufferMeta.mk
          (wrap32 (wrap64 (startingOffset
                           - WriteBufferMeta.offset lastElement)))
          (WriteBufferMeta.offset lastElement)
          (WriteBufferMeta.eof lastElement) :: r
      else rl
  end.

(** [QuicStreamState::removeFromLossBufMetasStartingAtOffset]. *)
Definition removeFromLossBufMetasStartingAtOffset (startingOffset : Z)
    (s : QuicStreamState) : QuicStreamState :=
  set_lossBufMetas
    (rev (removeFromLossBufMetasStartingAtOffset_loop startingOffset
            (rev (lossBufMetas s)))) s.

(** *** What a stream has to send *)

(** [QuicStreamState::hasSentFIN]. *)
Definition hasSentFIN (s : QuicStreamState) : bool :=
  match finalWriteOffset s with
  | None => false
  | Some final =>
      (final <? currentWriteOffset (base s))
      || (final <? WriteBufferMeta.offset (writeBufMeta s))
  end.

(** Sample streams for the functions above: three lost segments [5, 10),
    [10, 15) and [15, 20), as data and as buffer metas, and two sent
    segments [0, 5) and [10, 15) awaiting acknowledgement. *)
Definition streamWithThreeLosses : QuicStreamLike :=
  set_lossBuffer [lostAt5; lostAt10; lostAt15] emptyStream.

Definition streamWithThreeLostMetas : QuicStreamState :=
  set_lossBufMetas [lostMetaAt5; lostMetaAt10; lostMetaAt15]
    emptyStreamState.

Definition streamWithSentData : QuicStreamLike :=
  set_retransmissionBuffer
    (<[0 := WriteStreamBuffer.mk fiveBytes 0 false]>
       (<[10 := lostAt10]> ∅))
    (set_currentWriteOffset 15 emptyStream).

Definition streamWithSentMetas : QuicStreamState :=
  set_retransmissionBufMetas
    (<[0 := WriteBufferMeta.mk 5 0 false]> (<[10 := lostMetaAt10]> ∅))
    emptyStreamState.

(** A write buffer [3, 8), and a stream that writes through buffer metas
    from offset 5 on, with its end at offset 10. *)
Definition sampleWriteBuffer : WriteBuffer := mkWriteBuffer 3 fiveBytes.

Definition streamWithBufMeta : QuicStreamState :=
  mkStreamState (set_currentWriteOffset 5 emptyStream) (Some 10)
    (WriteBufferMeta.mk 5 5 true) ∅ [].

(** A stream that has five bytes to write and ends behind them. *)
Definition streamWithFinalData : QuicStreamState :=
  mkStreamState streamWithPendingWrites (Some 5)
    (WriteBufferMeta.mk 0 0 false) ∅ [].

(** A stream with the lost buffer meta [10, 15) whose buffer metas start
    at offset 20. *)
Definition streamWithLostMeta : QuicStreamState :=
  mkStreamState emptyStream None (WriteBufferMeta.mk 5 20 false) ∅
    [lostMetaAt10].

(** A stream that has sent its first 20 bytes and lost [10, 15). *)
Definition streamWithLossAfterSend : QuicStreamLike :=
  set_currentWriteOffset 20 streamWithLoss.

(** ** Notions for the bookkeeping of sent packets *)

(** What the loop over the frames of a packet cannot touch: everything of
    the connection but the streams, the crypto streams, the pending events
    other than the loss-detection alarm and the path challenge, and the
    counters of retransmitted and cloned stream bytes. *)
Definition sentStateUntouched (c c' : QuicConnectionStateBase) : Prop :=
  udpSendPacketLen c' = udpSendPacketLen c
  /\ writableBytesLimit c' = writableBytesLimit c
  /\ isClientAddrVerified c' = isClientAddrVerified c
  /\ srtt (lossState c') = srtt (lossState c)
  /\ largestSent (lossState c') = largestSent (lossState c)
  /\ totalBytesSent (lossState c') = totalBytesSent (lossState c)
  /\ totalBodyBytesSent (lossState c') = totalBodyBytesSent (lossState c)
  /\ totalPacketsSent (lossState c') = totalPacketsSent (lossState c)
  /\ totalAckElicitingPacketsSent (lossState c')
     = totalAckElicitingPacketsSent (lossState c)
  /\ totalBytesCloned (lossState c') = totalBytesCloned (lossState c)
  /\ inflightBytes (lossState c') = inflightBytes (lossState c)
  /\ ackStates c' = ackStates c
  /\ outstandings c' = outstandings c
  /\ setLossDetectionAlarm (pendingEvents c')
     = setLossDetectionAlarm (pendingEvents c)
  /\ pathChallenge (pendingEvents c') = pathChallenge (pendingEvents c)
  /\ outstandingPathValidation c' = outstandingPathValidation c
  /\ transportSettings c' = transportSettings c
  /\ oneRttWritePhase c' = oneRttWritePhase c
  /\ oneRttWritePendingVerification c' = oneRttWritePendingVerification c
  /\ oneRttWritePendingVerificationPacketNumber c'
     = oneRttWritePendingVerificationPacketNumber c
  /\ oneRttWritePacketsSentInCurrentPhase c'
     = oneRttWritePacketsSentInCurrentPhase c
  /\ readCodec c' = readCodec c
  /\ congestionController c' = congestionController c
  /\ pathValidationLimiter c' = pathValidationLimiter c
  /\ throttlingBytesToSend c' = throttlingBytesToSend c
  /\ loopDetectorCallback c' = loopDetectorCallback c
  /\ noWriteReason c' = noWriteReason c.

(** [c] throws nothing but [code]. *)
Definition throwsOnly {S A} (code : Exception) (c : M S A) : Prop :=
  forall s,
    match c s with
    | Thrown code' _ => code' = code
    | _ => True
    end.

(** The error a computation throws, if it throws. *)
Definition thrownCode {S A} (o : Outcome S A) : option Exception :=
  match o with
  | Thrown code _ => Some code
  | _ => None
  end.

(** A connection whose Initial crypto stream has nothing to send, and a
    packet that claims to carry five bytes of it from offset 5 on. *)
Definition cryptoFrameBeyondOffset : RegularQuicWritePacket :=
  mkPacket
    (mkHeader PacketNumberSpace.Initial ProtectionType.Initial 0)
    [PingFrame; WriteCryptoFrame 5 5].

(** A packet that only acknowledges. *)
Definition pureAckPacket : RegularQuicWritePacket :=
  mkPacket
    (mkHeader PacketNumberSpace.AppData ProtectionType.KeyPhaseZero 0)
    [WriteAckFrame 7; PaddingFrame].

Definition samplePingPacket : RegularQuicWritePacket :=
  mkPacket
    (mkHeader PacketNumberSpace.AppData ProtectionType.KeyPhaseZero 0)
    [PingFrame].

(** A connection whose peer has moved on to the next key phase. *)
Definition peerUpdatedKeysConn : QuicConnectionStateBase :=
  set_readCodec (mkReadCodec ProtectionType.KeyPhaseOne true) sampleConn.

(** A connection with a congestion controller that allows 3000 bytes. *)
Definition congestionLimitedConn : QuicConnectionStateBase :=
  mkConn 1252 None true emptyLossState
    (mkAckStates (Some (mkAckState 0 0)) (Some (mkAckState 0 0))
       (mkAckState 0 0))
    (mkOutstandings [] (fun _ => 0) (fun _ => 0) 0)
    (mkPendingEvents false false false false false ∅)
    false ∅ (fun _ => emptyStream)
    (mkTransportSettings false None 0 BATCHING_MODE_NONE 16 5 0 false)
    ProtectionType.KeyPhaseZero false None 0
    (mkReadCodec ProtectionType.KeyPhaseZero true)
    (Some 3000) None None false WRITE_OK.

(** A scheduler that has a packet to build but no frame to put in it. *)
Definition emptyFramesWriteState :=
  mkWriteState sampleConn ([[]] : list (list QuicWriteFrame)) (0, true).

(** A socket that still holds the batch of an earlier call and cannot
    flush it. *)
Definition stuckSocketEnvironment
  : WriteEnvironment (list (list QuicWriteFrame)) unit := {|
  hasData := fun sched _ => match sched with [] => false | _ => true end;
  scheduleFramesForPacket := fun _ _ _ '(sched, conn) =>
    (SchedulingResult.mk None None 0, (sched, conn));
  hasBufferedDataToWrite := fun _ => true;
  batchWrite := fun _ world => (false, world);
  batchFlush := fun world => (false, world);
  getPktSent := fun _ => 0;
  clockNow := fun _ => 0
|}.

(** What a call that records no packet leaves alone: the loss state, the
    packet numbers, the outstanding packets, the pending events, the
    streams and crypto streams, the limit for an unvalidated client and the
    state of the key update. *)
Definition nothingRecorded (c c' : QuicConnectionStateBase) : Prop :=
  lossState c' = lossState c
  /\ ackStates c' = ackStates c
  /\ outstandings c' = outstandings c
  /\ pendingEvents c' = pendingEvents c
  /\ streams c' = streams c
  /\ cryptoState c' = cryptoState c
  /\ writableBytesLimit c' = writableBytesLimit c
  /\ oneRttWritePhase c' = oneRttWritePhase c
  /\ oneRttWritePendingVerification c' = oneRttWritePendingVerification c
  /\ oneRttWritePendingVerificationPacketNumber c'
     = oneRttWritePendingVerificationPacketNumber c
  /\ oneRttWritePacketsSentInCurrentPhase c'
     = oneRttWritePacketsSentInCurrentPhase c.
(** * Properties *)

(** ** Machine integers, outcomes *)

Lemma wrap64_small x : 0 <= x < 2 ^ 64 -> wrap64 x = x.
Proof. intros Hx. unfold wrap64. now apply Z.mod_small. Qed.

Lemma wrap64_range x : 0 <= wrap64 x < 2 ^ 64.
Proof. unfold wrap64. apply Z.mod_pos_bound. lia. Qed.

(** ** Interval sets *)

Lemma IntervalSet_insert_contains x s e l :
  s <= e -> IntervalSet.valid l ->
  IntervalSet.contains x (IntervalSet.insert s e l)
  <-> (s <= x <= e \/ IntervalSet.contains x l).
Proof.
  revert s e. induction l as [|[a b] r IH]; intros s e Hse Hv.
  - unfold IntervalSet.contains. simpl. split.
    + intros (a & b & [Heq|[]] & Hx). inversion Heq; subst. now left.
    + intros [Hx|(a & b & [] & _)]. exists s, e. split; [now left|easy].
  - assert (Hab : a <= b) by (apply Hv; now left).
    assert (Hr : IntervalSet.valid r).
    { intros a' b' Hin. apply Hv. now right. }
    simpl. destruct (b + 1 <? s) eqn:E1; [|destruct (e + 1 <? a) eqn:E2].
    + unfold IntervalSet.contains in *. split.
      * intros (a' & b' & [Heq|Hin] & Hx).
        -- inversion Heq; subst. right. exists a', b'. split; [now left|easy].
        -- destruct (proj1 (IH s e Hse Hr)) as [?|(a2 & b2 & Hin2 & Hx2)].
           { exists a', b'. easy. }
           { now left. }
           { right. exists a2, b2. split; [now right|easy]. }
      * intros [Hx|(a' & b' & [Heq|Hin] & Hx)].
        -- destruct (proj2 (IH s e Hse Hr)) as (a2 & b2 & Hin2 & Hx2);
             [now left|]. exists a2, b2. split; [now right|easy].
        -- exists a', b'. split; [now left|easy].
        -- destruct (proj2 (IH s e Hse Hr)) as (a2 & b2 & Hin2 & Hx2).
           { right. exists a', b'. easy. }
           exists a2, b2. split; [now right|easy].
    + unfold IntervalSet.contains. split.
      * intros (a' & b' & [Heq|Hin] & Hx).
        -- inversion Heq; subst. now left.
        -- right. exists a', b'. easy.
      * intros [Hx|(a' & b' & Hin & Hx)].
        -- exists s, e. split; [now left|easy].
        -- exists a', b'. split; [now right|easy].
    + apply Z.ltb_ge in E1, E2.
      rewrite IH by (try assumption; lia).
      unfold IntervalSet.contains. split.
      * intros [Hx|(a' & b' & Hin & Hx)].
        -- destruct (Z_le_gt_dec s x) as [Hsx|Hsx];
             destruct (Z_le_gt_dec x e) as [Hxe|Hxe]; try (left; lia);
             right; exists a, b; (split; [now left|lia]).
        -- right. exists a', b'. split; [now right|easy].
      * intros [Hx|(a' & b' & [Heq|Hin] & Hx)].
        -- left. lia.
        -- inversion Heq; subst. left. lia.
        -- right. exists a', b'. easy.
Qed.

(** ** Acked intervals *)

(** C2: [updateAckedIntervals(offset, len, eof)] inserts the closed
    interval [[offset, offset + len]] when [eof] is set and
    [[offset, offset + len - 1]] otherwise; with [len = 0] and no [eof] the
    call is fatal.  Afterwards [ackedIntervals] holds exactly the offsets it
    held before together with those of the inserted interval. *)
Theorem updateAckedIntervals_inserts_interval
    (s : QuicStreamLike) (offset len : Z) :
  0 <= offset -> 0 <= len -> offset + len < 2 ^ 64 ->
  IntervalSet.valid (ackedIntervals s) ->
  (updateAckedIntervals offset len true s =
     Returned tt
       (set_ackedIntervals
          (IntervalSet.insert offset (offset + len) (ackedIntervals s)) s)
   /\ forall x,
        IntervalSet.contains x
          (IntervalSet.insert offset (offset + len) (ackedIntervals s))
        <-> (offset <= x <= offset + len
             \/ IntervalSet.contains x (ackedIntervals s)))
  /\ (len <> 0 ->
      updateAckedIntervals offset len false s =
        Returned tt
          (set_ackedIntervals
             (IntervalSet.insert offset (offset + len - 1) (ackedIntervals s))
             s)
      /\ forall x,
           IntervalSet.contains x
             (IntervalSet.insert offset (offset + len - 1) (ackedIntervals s))
           <-> (offset <= x <= offset + len - 1
                \/ IntervalSet.contains x (ackedIntervals s)))
  /\ (len = 0 -> updateAckedIntervals offset len false s = Fatal).
Proof.
  intros Hoff Hlen Hend Hvalid. repeat split.
  - unfold updateAckedIntervals, modify. simpl.
    rewrite Z.sub_0_r, wrap64_small by lia. reflexivity.
  - apply IntervalSet_insert_contains; [lia|assumption].
  - apply IntervalSet_insert_contains; [lia|assumption].
  - unfold updateAckedIntervals, modify. simpl.
    destruct (len =? 0) eqn:E; [apply Z.eqb_eq in E; contradiction|].
    rewrite wrap64_small by lia. reflexivity.
  - apply IntervalSet_insert_contains; [lia|assumption].
  - apply IntervalSet_insert_contains; [lia|assumption].
  - intros ->. reflexivity.
Qed.

Lemma updateAckedIntervals_inserts_interval_witness :
  updateAckedIntervals 10 5 true emptyStream =
    Returned tt (set_ackedIntervals [(10, 15)] emptyStream)
  /\ updateAckedIntervals 10 5 false emptyStream =
       Returned tt (set_ackedIntervals [(10, 14)] emptyStream)
  /\ updateAckedIntervals 10 0 false emptyStream = Fatal.
Proof.
  assert (Hv : IntervalSet.valid (ackedIntervals emptyStream)).
  { intros a b []. }
  split; [|split].
  - exact (proj1 (proj1 (updateAckedIntervals_inserts_interval
             emptyStream 10 5 ltac:(lia) ltac:(lia) ltac:(lia) Hv))).
  - exact (proj1 (proj1 (proj2 (updateAckedIntervals_inserts_interval
             emptyStream 10 5 ltac:(lia) ltac:(lia) ltac:(lia) Hv))
             ltac:(lia))).
  - exact (proj2 (proj2 (updateAckedIntervals_inserts_interval
             emptyStream 10 0 ltac:(lia) ltac:(lia) ltac:(lia) Hv))
             eq_refl).
Defined.

(** ** Binary searches *)

Section Bounds.
Context {A V : Type}.

Lemma upper_bound_app (comp : V -> A -> bool) (l1 l2 : list A) (v : V) :
  Forall (fun e => comp v e = false) l1 ->
  match l2 with [] => True | h :: _ => comp v h = true end ->
  upper_bound comp (l1 ++ l2) v = length l1.
Proof.
  intros H1 H2. induction H1 as [|e l1 He _ IH]; simpl.
  - destruct l2 as [|h t]; simpl; [reflexivity|now rewrite H2].
  - now rewrite He, IH.
Qed.

Lemma upper_bound_split (comp : V -> A -> bool) (l : list A) (v : V) :
  let i := upper_bound comp l v in
  Forall (fun e => comp v e = false) (take i l)
  /\ match drop i l with [] => True | h :: _ => comp v h = true end.
Proof.
  induction l as [|e r IH]; simpl.
  - split; [constructor|exact I].
  - destruct (comp v e) eqn:E; simpl.
    + split; [constructor|exact E].
    + destruct IH as [IH1 IH2]. split; [now constructor|exact IH2].
Qed.

Lemma lower_bound_app (comp : A -> V -> bool) (l1 l2 : list A) (v : V) :
  Forall (fun e => comp e v = true) l1 ->
  match l2 with [] => True | h :: _ => comp h v = false end ->
  lower_bound comp (l1 ++ l2) v = length l1.
Proof.
  intros H1 H2. induction H1 as [|e l1 He _ IH]; simpl.
  - destruct l2 as [|h t]; simpl; [reflexivity|now rewrite H2].
  - now rewrite He, IH.
Qed.

End Bounds.

(** ** Lost segments *)

#[global] Instance WSB_SegmentLaws : SegmentLaws WSB.
Proof.
  split.
  - reflexivity.
  - intros a b _ _ _. simpl. unfold chainLength.
    rewrite length_app. lia.
Qed.

#[global] Instance WBM_SegmentLaws : SegmentLaws WBM.
Proof.
  split.
  - reflexivity.
  - intros a b Ha Hb Hab. simpl in *. apply wrap64_small. lia.
Qed.

Lemma insertIntoLossBuffer_insertSegment (buf : WSB) (s : QuicStreamLike) :
  insertIntoLossBuffer buf s
  = set_lossBuffer (insertSegment buf (lossBuffer s)) s.
Proof.
  unfold insertIntoLossBuffer, insertSegment. simpl.
  destruct (upper_bound _ _ _) as [|p]; [reflexivity|].
  destruct (lossBuffer s !! p) as [prev|]; [|reflexivity].
  destruct (_ =? _); reflexivity.
Qed.

Lemma insertIntoLossBufMeta_insertSegment (m : WBM) (s : QuicStreamState) :
  insertIntoLossBufMeta m s
  = set_lossBufMetas (insertSegment m (lossBufMetas s)) s.
Proof.
  unfold insertIntoLossBufMeta, insertSegment. simpl.
  destruct (upper_bound _ _ _) as [|p]; [reflexivity|].
  destruct (lossBufMetas s !! p) as [prev|]; [|reflexivity].
  destruct (_ =? _); reflexivity.
Qed.

Section SegmentFacts.
Context {A : Type} `{SegmentLaws A}.

Lemma nonOverlapping_sym (a b : A) : nonOverlapping a b -> nonOverlapping b a.
Proof. unfold nonOverlapping. tauto. Qed.

(** Where [insertSegment] puts a segment: after the entries [l1] at
    offsets up to its own and in front of the entries [l2] at larger
    offsets, appended to the last entry of [l1] when that one ends
    exactly at the segment's offset. *)
Lemma insertSegment_app (buf : A) (l1 l2 : list A) :
  Forall (fun e => segOffset e <= segOffset buf) l1 ->
  match l2 with [] => True | h :: _ => segOffset buf < segOffset h end ->
  insertSegment buf (l1 ++ l2) =
    match last l1 with
    | Some prev =>
        if wrap64 (segOffset prev + segLength prev) =? segOffset buf
        then removelast l1 ++ segAppend prev buf :: l2
        else l1 ++ buf :: l2
    | None => l1 ++ buf :: l2
    end.
Proof.
  intros H1 H2. unfold insertSegment.
  rewrite (upper_bound_app _ l1 l2).
  2:{ eapply Forall_impl; [exact H1|]. intros e He. simpl in *.
      apply Z.ltb_ge. exact He. }
  2:{ destruct l2; [exact I|]. now apply Z.ltb_lt. }
  destruct l1 as [|x l1'] using rev_ind.
  - reflexivity.
  - clear IHl1'. rewrite last_snoc, length_app. simpl.
    replace (length l1' + 1)%nat with (S (length l1')) by lia.
    rewrite <- app_assoc. simpl.
    rewrite list_lookup_middle by reflexivity.
    destruct (_ =? _).
    + rewrite removelast_last.
      rewrite insert_app_r_alt by lia.
      now rewrite Nat.sub_diag.
    + unfold emplace.
      replace (l1' ++ x :: l2) with ((l1' ++ [x]) ++ l2)
        by (now rewrite <- app_assoc).
      replace (S (length l1')) with (length (l1' ++ [x]))
        by (rewrite length_app; simpl; lia).
      rewrite take_app_length, drop_app_length.
      now rewrite <- app_assoc.
Qed.

(** In a buffer that is sorted by offset, the entries split at the
    offset of a segment that overlaps none of them. *)
Lemma sortedDisjoint_split (buf : A) (l : list A) :
  sortedDisjoint l -> Forall (nonOverlapping buf) l ->
  exists l1 l2,
    l = l1 ++ l2
    /\ Forall (fun e => segBefore e buf) l1
    /\ Forall (fun e => segBefore buf e) l2.
Proof.
  unfold sortedDisjoint. intros Hs Hn. induction l as [|e r IH].
  - exists [], []. repeat split; constructor.
  - rewrite StronglySorted_cons in Hs. destruct Hs as [Her Hs].
    rewrite Forall_cons in Hn. destruct Hn as [Hne Hn].
    destruct Hne as [Hbe|Heb].
    + exists [], (e :: r). repeat split; [constructor|].
      constructor; [exact Hbe|].
      eapply Forall_impl; [exact Her|]. intros x Hx. simpl in Hx.
      unfold segBefore, segEnd in *. lia.
    + destruct (IH Hs Hn) as (l1 & l2 & -> & Hl1 & Hl2).
      exists (e :: l1), l2. repeat split; [now constructor|exact Hl2].
Qed.

Lemma segBefore_append_l (a prev buf : A) :
  segBefore a prev -> segBefore a (segAppend prev buf).
Proof. unfold segBefore. rewrite segOffset_append. tauto. Qed.

Lemma segEnd_append (prev buf : A) :
  segValid prev -> segValid buf -> segEnd prev = segOffset buf ->
  segEnd (segAppend prev buf) = segEnd buf.
Proof.
  unfold segValid, segEnd. intros Hp Hb He.
  rewrite segOffset_append, segLength_append by lia. lia.
Qed.

Lemma segValid_append (prev buf : A) :
  segValid prev -> segValid buf -> segEnd prev = segOffset buf ->
  segValid (segAppend prev buf).
Proof.
  intros Hp Hb He. pose proof (segEnd_append prev buf Hp Hb He) as Hend.
  unfold segValid, segEnd in *.
  rewrite segOffset_append in *.
  rewrite segLength_append in * by lia. lia.
Qed.

(** What overlaps neither of two contiguous segments does not overlap
    their concatenation. *)
Lemma nonOverlapping_append (t prev buf : A) :
  segValid prev -> segValid buf -> segEnd prev = segOffset buf ->
  segValid t ->
  nonOverlapping t prev -> nonOverlapping t buf ->
  nonOverlapping t (segAppend prev buf).
Proof.
  intros Hp Hb He Ht Htp Htb.
  pose proof (segEnd_append prev buf Hp Hb He) as Hend.
  unfold nonOverlapping, segBefore in *. rewrite Hend.
  rewrite segOffset_append.
  unfold segValid, segEnd in *. lia.
Qed.

(** One insertion into a sorted buffer of disjoint entries. *)
Lemma insertSegment_cases (buf : A) (l : list A) :
  segValid buf -> Forall segValid l ->
  sortedDisjoint l -> Forall (nonOverlapping buf) l ->
  exists l1 l2,
    l = l1 ++ l2
    /\ Forall (fun e => segBefore e buf) l1
    /\ Forall (fun e => segBefore buf e) l2
    /\ ((exists l1' prev,
           l1 = l1' ++ [prev] /\ segEnd prev = segOffset buf
           /\ insertSegment buf l = l1' ++ segAppend prev buf :: l2)
        \/ (Forall (fun e => segEnd e <> segOffset buf) l1
            /\ insertSegment buf l = l1 ++ buf :: l2)).
Proof.
  intros Hb Hv Hs Hn.
  destruct (sortedDisjoint_split buf l Hs Hn) as (l1 & l2 & -> & H1 & H2).
  unfold sortedDisjoint in Hs.
  exists l1, l2. repeat split; try assumption.
  rewrite insertSegment_app.
  2:{ eapply Forall_impl; [exact H1|]. intros e He. simpl.
      unfold segBefore in He. lia. }
  2:{ destruct l2 as [|h t]; [exact I|].
      rewrite Forall_cons in H2. unfold segBefore in H2. tauto. }
  rewrite Forall_app in Hv. destruct Hv as [Hv1 Hv2].
  rewrite StronglySorted_app in Hs. destruct Hs as (H12 & Hs1 & Hs2).
  destruct l1 as [|x l1'] using rev_ind.
  - right. split; [constructor|reflexivity].
  - clear IHl1'. rewrite last_snoc.
    rewrite Forall_app in Hv1. destruct Hv1 as [Hv1 Hvx].
    rewrite Forall_singleton in Hvx.
    assert (Hwx : wrap64 (segOffset x + segLength x) = segEnd x).
    { apply wrap64_small. unfold segValid, segEnd in *. lia. }
    rewrite Hwx. destruct (segEnd x =? segOffset buf) eqn:E.
    + apply Z.eqb_eq in E. left. exists l1', x. repeat split; try assumption.
      now rewrite removelast_last.
    + apply Z.eqb_neq in E. right. split; [|reflexivity].
      apply Forall_app. split; [|now apply Forall_singleton].
      rewrite StronglySorted_app in Hs1. destruct Hs1 as (Hlx & _ & _).
      apply Forall_forall. intros e He Habs.
      specialize (Hlx e x He ltac:(now apply list_elem_of_singleton)).
      rewrite Forall_app in H1. destruct H1 as [_ H1x].
      rewrite Forall_singleton in H1x.
      unfold segBefore in *. lia.
Qed.

Lemma insertSegment_sortedDisjoint (buf : A) (l : list A) :
  segValid buf -> Forall segValid l ->
  sortedDisjoint l -> Forall (nonOverlapping buf) l ->
  sortedDisjoint (insertSegment buf l)
  /\ Forall segValid (insertSegment buf l)
  /\ forall t, segValid t -> nonOverlapping t buf ->
       Forall (nonOverlapping t) l ->
       Forall (nonOverlapping t) (insertSegment buf l).
Proof.
  intros Hb Hv Hs Hn.
  destruct (insertSegment_cases buf l Hb Hv Hs Hn)
    as (l1 & l2 & -> & H1 & H2 & Hcase).
  unfold sortedDisjoint in *.
  rewrite Forall_app in Hv. destruct Hv as [Hv1 Hv2].
  rewrite StronglySorted_app in Hs. destruct Hs as (H12 & Hs1 & Hs2).
  destruct Hcase as [(l1' & prev & -> & He & ->)|[_ ->]].
  - rewrite Forall_app in Hv1. destruct Hv1 as [Hv1 Hvp].
    rewrite Forall_singleton in Hvp.
    rewrite StronglySorted_app in Hs1. destruct Hs1 as (Hlp & Hs1 & _).
    split; [|split].
    + apply StronglySorted_app. split; [|split; [assumption|]].
      * intros a b Ha Hb'. rewrite elem_of_cons in Hb'.
        destruct Hb' as [->|Hb'].
        -- apply segBefore_append_l. apply Hlp; [assumption|].
           now apply list_elem_of_singleton.
        -- apply H12; [|assumption]. apply elem_of_app. now left.
      * apply StronglySorted_cons. split; [|assumption].
        rewrite Forall_forall in H2. apply Forall_forall. intros b Hb'.
        specialize (H2 b Hb'). unfold segBefore in *.
        rewrite (segEnd_append prev buf) by assumption.
        rewrite segOffset_append.
        unfold segValid, segEnd in *. lia.
    + apply Forall_app. split; [assumption|].
      constructor; [|assumption]. now apply segValid_append.
    + intros t Ht Htb Htl. rewrite Forall_app in Htl.
      destruct Htl as [Htl1 Htl2]. rewrite Forall_app in Htl1.
      destruct Htl1 as [Htl1 Htp]. rewrite Forall_singleton in Htp.
      apply Forall_app. split; [assumption|].
      constructor; [|assumption]. now apply nonOverlapping_append.
  - split; [|split].
    + apply StronglySorted_app. split; [|split; [assumption|]].
      * intros a b Ha Hb'. rewrite elem_of_cons in Hb'.
        destruct Hb' as [->|Hb'].
        -- rewrite Forall_forall in H1. now apply H1.
        -- now apply H12.
      * apply StronglySorted_cons. split; assumption.
    + apply Forall_app. split; [assumption|]. now constructor.
    + intros t Ht Htb Htl. rewrite Forall_app in Htl.
      destruct Htl as [Htl1 Htl2].
      apply Forall_app. split; [assumption|]. now constructor.
Qed.

(** Any sequence of insertions: the buffer stays sorted and disjoint as
    long as each new segment overlaps neither the entries the buffer
    started with nor the segments inserted before it. *)
Lemma insertSegments_sortedDisjoint (segs l : list A) :
  Forall segValid l -> sortedDisjoint l ->
  Forall segValid segs ->
  Forall (fun b => Forall (nonOverlapping b) l) segs ->
  pairwiseNonOverlapping segs ->
  sortedDisjoint (fold_left (fun l b => insertSegment b l) segs l)
  /\ Forall segValid (fold_left (fun l b => insertSegment b l) segs l).
Proof.
  revert l. induction segs as [|b segs IH]; intros l Hvl Hs Hv Hnl Hp.
  - simpl. now split.
  - simpl. rewrite Forall_cons in Hv. destruct Hv as [Hvb Hv].
    rewrite Forall_cons in Hnl. destruct Hnl as [Hnb Hnl].
    destruct Hp as [Hpb Hp].
    destruct (insertSegment_sortedDisjoint b l Hvb Hvl Hs Hnb)
      as (Hs' & Hv' & Hn').
    apply IH; try assumption.
    rewrite Forall_forall in Hv, Hnl, Hpb. apply Forall_forall.
    intros t Ht. apply Hn'; [now apply Hv| |now apply Hnl].
    apply nonOverlapping_sym. now apply Hpb.
Qed.

Lemma sortedDisjoint_sortedByOffset (l : list A) :
  sortedDisjoint l -> sortedByOffset l.
Proof.
  unfold sortedDisjoint, sortedByOffset. induction 1 as [|a l Hs IH Ha].
  - constructor.
  - constructor; [assumption|].
    eapply Forall_impl; [exact Ha|]. intros b Hb. apply Hb.
Qed.

End SegmentFacts.

Lemma lossBuffer_insertAll (segs : list WSB) (s : QuicStreamLike) :
  lossBuffer (insertAllIntoLossBuffer segs s)
  = fold_left (fun l b => insertSegment b l) segs (lossBuffer s).
Proof.
  unfold insertAllIntoLossBuffer. revert s.
  induction segs as [|b segs IH]; intros s; simpl; [reflexivity|].
  rewrite IH, insertIntoLossBuffer_insertSegment. reflexivity.
Qed.

Lemma lossBufMetas_insertAll (metas : list WBM) (s : QuicStreamState) :
  lossBufMetas (insertAllIntoLossBufMeta metas s)
  = fold_left (fun l b => insertSegment b l) metas (lossBufMetas s).
Proof.
  unfold insertAllIntoLossBufMeta. revert s.
  induction metas as [|b metas IH]; intros s; simpl; [reflexivity|].
  rewrite IH, insertIntoLossBufMeta_insertSegment. reflexivity.
Qed.

Lemma insertAll_from_empty {A : Type} `{SegmentLaws A} (segs : list A) :
  Forall segValid segs -> pairwiseNonOverlapping segs ->
  sortedDisjoint (fold_left (fun l b => insertSegment b l) segs []).
Proof.
  intros Hv Hp.
  apply (insertSegments_sortedDisjoint segs []); try assumption.
  - constructor.
  - constructor.
  - apply Forall_forall. intros b _. constructor.
Qed.

(** C5, as the code has it by design: after any sequence of insertions of
    pairwise non-overlapping lost segments through [insertIntoLossBuffer]
    (resp. [insertIntoLossBufMeta]) the [lossBuffer] (resp.
    [lossBufMetas]) is sorted by offset and its entries are pairwise
    disjoint; a segment that starts exactly where the entry in front of it
    ends is appended to that entry.  [insertIntoLossBufMeta] stores a
    segment as an entry of its own in every other case, also when the
    entry behind it starts where the segment ends: it never prepends, as
    its documentation says. *)
Theorem loss_buffers_sorted_after_insertions :
  (forall (segs : list WSB) (s : QuicStreamLike),
      lossBuffer s = [] ->
      Forall segValid segs -> pairwiseNonOverlapping segs ->
      sortedDisjoint (lossBuffer (insertAllIntoLossBuffer segs s))
      /\ sortedByOffset (lossBuffer (insertAllIntoLossBuffer segs s)))
  /\ (forall (metas : list WBM) (s : QuicStreamState),
      lossBufMetas s = [] ->
      Forall segValid metas -> pairwiseNonOverlapping metas ->
      sortedDisjoint (lossBufMetas (insertAllIntoLossBufMeta metas s))
      /\ sortedByOffset (lossBufMetas (insertAllIntoLossBufMeta metas s)))
  /\ (forall (buf : WSB) (s : QuicStreamLike),
      segValid buf -> Forall segValid (lossBuffer s) ->
      sortedDisjoint (lossBuffer s) ->
      Forall (nonOverlapping buf) (lossBuffer s) ->
      exists l1 l2,
        lossBuffer s = l1 ++ l2
        /\ Forall (fun e => segBefore e buf) l1
        /\ Forall (fun e => segBefore buf e) l2
        /\ forall l1' prev,
             l1 = l1' ++ [prev] -> segEnd prev = segOffset buf ->
             lossBuffer (insertIntoLossBuffer buf s)
             = l1' ++ segAppend prev buf :: l2)
  /\ (forall (bufMeta : WBM) (s : QuicStreamState),
      segValid bufMeta -> Forall segValid (lossBufMetas s) ->
      sortedDisjoint (lossBufMetas s) ->
      Forall (nonOverlapping bufMeta) (lossBufMetas s) ->
      exists l1 l2,
        lossBufMetas s = l1 ++ l2
        /\ Forall (fun e => segBefore e bufMeta) l1
        /\ Forall (fun e => segBefore bufMeta e) l2
        /\ ((exists l1' prev,
               l1 = l1' ++ [prev] /\ segEnd prev = segOffset bufMeta
               /\ lossBufMetas (insertIntoLossBufMeta bufMeta s)
                  = l1' ++ segAppend prev bufMeta :: l2)
            \/ (Forall (fun e => segEnd e <> segOffset bufMeta) l1
                /\ lossBufMetas (insertIntoLossBufMeta bufMeta s)
                   = l1 ++ bufMeta :: l2))).
Proof.
  split; [|split; [|split]].
  - intros segs s Hempty Hv Hp. rewrite lossBuffer_insertAll, Hempty.
    pose proof (insertAll_from_empty segs Hv Hp) as Hs.
    split; [exact Hs|now apply sortedDisjoint_sortedByOffset].
  - intros metas s Hempty Hv Hp. rewrite lossBufMetas_insertAll, Hempty.
    pose proof (insertAll_from_empty metas Hv Hp) as Hs.
    split; [exact Hs|now apply sortedDisjoint_sortedByOffset].
  - intros buf s Hb Hv Hs Hn.
    rewrite insertIntoLossBuffer_insertSegment.
    destruct (insertSegment_cases buf (lossBuffer s) Hb Hv Hs Hn)
      as (l1 & l2 & Hl & H1 & H2 & Hcase).
    exists l1, l2. split; [exact Hl|]. split; [exact H1|].
    split; [exact H2|]. intros l1' prev Hl1 Hend.
    destruct Hcase as [(l1'' & prev' & Hl1' & _ & Hins)|[Hne _]].
    + rewrite Hl1 in Hl1'. apply app_inj_tail in Hl1'.
      destruct Hl1' as [-> ->]. exact Hins.
    + exfalso. rewrite Hl1, Forall_app, Forall_singleton in Hne.
      now apply (proj2 Hne).
  - intros bufMeta s Hb Hv Hs Hn.
    rewrite insertIntoLossBufMeta_insertSegment.
    exact (insertSegment_cases bufMeta (lossBufMetas s) Hb Hv Hs Hn).
Qed.

Lemma sample_segments_valid :
  Forall segValid [lostAt10; lostAt15; lostAt5]
  /\ pairwiseNonOverlapping [lostAt10; lostAt15; lostAt5]
  /\ Forall segValid [lostMetaAt10; lostMetaAt15; lostMetaAt5]
  /\ pairwiseNonOverlapping [lostMetaAt10; lostMetaAt15; lostMetaAt5].
Proof.
  assert (Hwsb : forall a b : WSB,
             (segEnd a <=? segOffset b) = true ->
             (segOffset a <? segOffset b) = true -> segBefore a b).
  { intros a b H1 H2. split; [now apply Z.leb_le|now apply Z.ltb_lt]. }
  assert (Hwbm : forall a b : WBM,
             (segEnd a <=? segOffset b) = true ->
             (segOffset a <? segOffset b) = true -> segBefore a b).
  { intros a b H1 H2. split; [now apply Z.leb_le|now apply Z.ltb_lt]. }
  split; [|split; [|split]].
  - repeat constructor; vm_compute; congruence.
  - simpl. split; [|split; [|split]]; try exact I.
    + constructor; [left; now apply Hwsb|].
      constructor; [right; now apply Hwsb|constructor].
    + constructor; [right; now apply Hwsb|constructor].
    + constructor.
  - repeat constructor; vm_compute; congruence.
  - simpl. split; [|split; [|split]]; try exact I.
    + constructor; [left; now apply Hwbm|].
      constructor; [right; now apply Hwbm|constructor].
    + constructor; [right; now apply Hwbm|constructor].
    + constructor.
Qed.

Lemma loss_buffers_sorted_after_insertions_witness :
  sortedDisjoint
    (lossBuffer
       (insertAllIntoLossBuffer [lostAt10; lostAt15; lostAt5] emptyStream))
  /\ sortedDisjoint
       (lossBufMetas
          (insertAllIntoLossBufMeta [lostMetaAt10; lostMetaAt15; lostMetaAt5]
             emptyStreamState)).
Proof.
  destruct sample_segments_valid as (Hv & Hp & Hvm & Hpm).
  split.
  - exact (proj1 (proj1 loss_buffers_sorted_after_insertions
             [lostAt10; lostAt15; lostAt5] emptyStream eq_refl Hv Hp)).
  - exact (proj1 (proj1 (proj2 loss_buffers_sorted_after_insertions)
             [lostMetaAt10; lostMetaAt15; lostMetaAt5] emptyStreamState
             eq_refl Hvm Hpm)).
Defined.

(** C5 as stated fails: a lost buffer meta that ends where an entry of
    [lossBufMetas] starts is not merged with it, so two contiguous entries
    remain (here [5, 10) in front of [10, 15)). *)
Lemma loss_buffer_keeps_contiguous_entries :
  pairwiseNonOverlapping [lostMetaAt10; lostMetaAt5]
  /\ lossBufMetas
       (insertAllIntoLossBufMeta [lostMetaAt10; lostMetaAt5]
          emptyStreamState)
     = [lostMetaAt5; lostMetaAt10]
  /\ ~ noContiguousEntries
         (lossBufMetas
            (insertAllIntoLossBufMeta [lostMetaAt10; lostMetaAt5]
               emptyStreamState)).
Proof.
  split; [|split].
  - simpl. split; [|split]; try exact I; [|constructor].
    constructor; [|constructor].
    right. unfold segBefore, segEnd. simpl. lia.
  - reflexivity.
  - intros Hno. apply (Hno O lostMetaAt5 lostMetaAt10); reflexivity.
Qed.

(** ** Removing from the loss buffer *)

Lemma erase_middle {A} (l1 l2 : list A) (x : A) :
  erase (length l1) (l1 ++ x :: l2) = l1 ++ l2.
Proof.
  unfold erase. induction l1 as [|a l1 IH]; simpl.
  - now rewrite drop_0.
  - now f_equal.
Qed.

Lemma insert_middle {A} (l1 l2 : list A) (x y : A) :
  <[length l1 := y]> (l1 ++ x :: l2) = l1 ++ y :: l2.
Proof.
  rewrite insert_app_r_alt by lia. rewrite Nat.sub_diag. reflexivity.
Qed.

Lemma removeFromLossBuffer_from_skip offset len eof pre rest s i :
  Forall (skipsEntry offset len) pre ->
  removeFromLossBuffer_from offset len eof i (pre ++ rest) s
  = removeFromLossBuffer_from offset len eof (i + length pre)%nat rest s.
Proof.
  intros Hpre. revert i. induction Hpre as [|p pre [Hp1 Hp2] _ IH]; intros i.
  - simpl. now rewrite Nat.add_0_r.
  - simpl. rewrite Hp1, Hp2, IH. f_equal. lia.
Qed.

Lemma entries_before_are_skipped (offset len : Z) (pre : list WSB) (entry : WSB) :
  0 < len -> 0 <= offset -> offset + len < 2 ^ 64 ->
  WriteStreamBuffer.offset entry <= offset ->
  Forall segValid pre ->
  Forall (fun p => segBefore p entry) pre ->
  Forall (skipsEntry offset len) pre.
Proof.
  intros Hlen Hoff Hend Hentry Hv Hb.
  rewrite Forall_forall in Hv, Hb. apply Forall_forall. intros p Hp.
  specialize (Hv p Hp). specialize (Hb p Hp).
  unfold skipsEntry, segValid, segBefore, segEnd in *. simpl in *.
  rewrite !wrap64_small by lia. split.
  - apply Z.ltb_ge. lia.
  - apply orb_false_iff. split; apply andb_false_iff.
    + right. apply Z.leb_gt. lia.
    + left. apply Z.leb_gt. lia.
Qed.

Lemma chainLength_take (n : Z) (d : ChainedByteRangeHead) :
  0 <= n <= chainLength d -> chainLength (take (Z.to_nat n) d) = n.
Proof. unfold chainLength. intros Hn. rewrite length_take. lia. Qed.

Lemma chainLength_drop (n : Z) (d : ChainedByteRangeHead) :
  0 <= n <= chainLength d -> chainLength (drop (Z.to_nat n) d) = chainLength d - n.
Proof. unfold chainLength. intros Hn. rewrite length_drop. lia. Qed.

Lemma chainEmpty_length (d : ChainedByteRangeHead) :
  chainEmpty d = (chainLength d =? 0).
Proof. destruct d; reflexivity. Qed.

(** Removing exactly the data of one entry. *)
Lemma removeFromLossBuffer_exact
    (s : QuicStreamLike) (pre post : list WSB) (entry : WSB)
    (len : Z) (eof : bool) :
  lossBuffer s = pre ++ entry :: post ->
  Forall segValid (lossBuffer s) -> sortedDisjoint (lossBuffer s) ->
  0 < len -> len = chainLength (WriteStreamBuffer.data entry) ->
  removeFromLossBuffer (WriteStreamBuffer.offset entry) len eof s
  = set_lossBuffer
      (if Bool.eqb (WriteStreamBuffer.eof entry) eof then pre ++ post
       else pre ++ WriteStreamBuffer.mk []
                     (WriteStreamBuffer.offset entry + len)
                     (WriteStreamBuffer.eof entry) :: post) s.
Proof.
  intros Hl Hv Hs Hlen Hlen'. unfold sortedDisjoint in Hs.
  rewrite Hl in Hv, Hs.
  rewrite Forall_app, Forall_cons in Hv. destruct Hv as (Hvpre & Hve & Hvpost).
  rewrite StronglySorted_app in Hs. destruct Hs as (Hpe & _ & _).
  assert (Hve' := Hve). unfold segValid, segEnd in Hve'. simpl in Hve'.
  unfold removeFromLossBuffer. rewrite Hl.
  replace (match pre ++ entry :: post with [] => true | _ :: _ => false end)
    with false by (now destruct pre).
  replace (len =? 0) with false by (symmetry; apply Z.eqb_neq; lia).
  simpl orb. cbv iota.
  rewrite removeFromLossBuffer_from_skip.
  2:{ apply (entries_before_are_skipped _ _ _ entry); try lia; try assumption.
      apply Forall_forall. intros p Hp. apply Hpe; [assumption|].
      apply elem_of_cons. now left. }
  simpl.
  rewrite !wrap64_small by lia.
  replace (WriteStreamBuffer.offset entry + len
           <? WriteStreamBuffer.offset entry) with false
    by (symmetry; apply Z.ltb_ge; lia).
  rewrite Z.leb_refl. rewrite <- Hlen', Z.leb_refl. simpl.
  rewrite Z.ltb_irrefl. simpl.
  unfold trimStartAtMost. rewrite <- Hlen', Z.min_id.
  rewrite wrap64_small by lia.
  assert (Hdrop : drop (Z.to_nat len) (WriteStreamBuffer.data entry) = []).
  { apply drop_ge. unfold chainLength in Hlen'. lia. }
  rewrite Hdrop. simpl. rewrite Hl.
  destruct (Bool.eqb (WriteStreamBuffer.eof entry) eof).
  - unfold erase. rewrite take_app_length.
    change (pre ++ entry :: post) with (pre ++ [entry] ++ post).
    rewrite app_assoc.
    replace (S (length pre)) with (length (pre ++ [entry]))
      by (rewrite length_app; simpl; lia).
    rewrite drop_app_length. reflexivity.
  - rewrite insert_app_r_alt by lia. rewrite Nat.sub_diag. reflexivity.
Qed.

(** Removing a range that starts strictly inside an entry and ends within
    it. *)
Lemma removeFromLossBuffer_split
    (s : QuicStreamLike) (pre post : list WSB) (entry : WSB)
    (offset len : Z) (eof : bool) :
  lossBuffer s = pre ++ entry :: post ->
  Forall segValid (lossBuffer s) -> sortedDisjoint (lossBuffer s) ->
  0 < len -> WriteStreamBuffer.offset entry < offset ->
  offset + len <= segEnd entry ->
  removeFromLossBuffer offset len eof s
  = insertIntoLossBuffer
      (WriteStreamBuffer.mk
         (take (Z.to_nat (offset - WriteStreamBuffer.offset entry))
            (WriteStreamBuffer.data entry))
         (WriteStreamBuffer.offset entry) false)
      (set_lossBuffer
         (if (offset + len =? segEnd entry)
             && Bool.eqb (WriteStreamBuffer.eof entry) eof
          then pre ++ post
          else pre ++ WriteStreamBuffer.mk
                        (drop (Z.to_nat (offset + len
                                         - WriteStreamBuffer.offset entry))
                           (WriteStreamBuffer.data entry))
                        (offset + len)
                        (WriteStreamBuffer.eof entry) :: post) s).
Proof.
  intros Hl Hv Hs Hlen Hstart Hend. unfold sortedDisjoint in Hs.
  rewrite Hl in Hv, Hs.
  rewrite Forall_app, Forall_cons in Hv. destruct Hv as (Hvpre & Hve & Hvpost).
  rewrite StronglySorted_app in Hs. destruct Hs as (Hpe & _ & _).
  assert (Hve' := Hve). unfold segValid, segEnd in Hve', Hend.
  simpl in Hve', Hend.
  unfold removeFromLossBuffer. rewrite Hl.
  replace (match pre ++ entry :: post with [] => true | _ :: _ => false end)
    with false by (now destruct pre).
  replace (len =? 0) with false by (symmetry; apply Z.eqb_neq; lia).
  simpl orb. cbv iota.
  rewrite removeFromLossBuffer_from_skip.
  2:{ apply (entries_before_are_skipped _ _ _ entry); try lia; try assumption.
      apply Forall_forall. intros p Hp. apply Hpe; [assumption|].
      apply elem_of_cons. now left. }
  simpl.
  rewrite !wrap64_small by lia.
  replace (offset + len <? WriteStreamBuffer.offset entry) with false
    by (symmetry; apply Z.ltb_ge; lia).
  replace (WriteStreamBuffer.offset entry <=? offset) with true
    by (symmetry; apply Z.leb_le; lia).
  replace (offset + len
           <=? WriteStreamBuffer.offset entry
               + chainLength (WriteStreamBuffer.data entry)) with true
    by (symmetry; apply Z.leb_le; lia).
  simpl.
  replace (WriteStreamBuffer.offset entry <? offset) with true
    by (symmetry; apply Z.ltb_lt; lia).
  replace (0 <? offset - WriteStreamBuffer.offset entry) with true
    by (symmetry; apply Z.ltb_lt; lia).
  unfold splitAtMost, trimStartAtMost. simpl.
  set (a := offset - WriteStreamBuffer.offset entry).
  assert (Ha : 0 < a <= chainLength (WriteStreamBuffer.data entry) - len)
    by (unfold a; lia).
  rewrite (chainLength_drop a) by lia.
  rewrite Z.min_l by lia.
  replace (WriteStreamBuffer.offset entry + a) with offset by (unfold a; lia).
  rewrite (wrap64_small offset) by lia.
  rewrite (wrap64_small (offset + len)) by lia.
  rewrite drop_drop.
  replace (Z.to_nat a + Z.to_nat len)%nat
    with (Z.to_nat (offset + len - WriteStreamBuffer.offset entry))
    by (unfold a; lia).
  rewrite !chainEmpty_length.
  rewrite chainLength_drop by lia. rewrite chainLength_take by lia.
  replace (a =? 0) with false by (symmetry; apply Z.eqb_neq; lia).
  simpl negb. cbv iota.
  replace (chainLength (WriteStreamBuffer.data entry)
           - (offset + len - WriteStreamBuffer.offset entry) =? 0)
    with (offset + len =? segEnd entry).
  2:{ unfold segEnd. simpl.
      destruct (Z.eqb_spec (offset + len)
                  (WriteStreamBuffer.offset entry
                   + chainLength (WriteStreamBuffer.data entry)));
        symmetry; [apply Z.eqb_eq|apply Z.eqb_neq]; lia. }
  f_equal. rewrite Hl.
  destruct ((offset + len =? segEnd entry)
            && Bool.eqb (WriteStreamBuffer.eof entry) eof).
  - unfold erase. rewrite take_app_length.
    change (pre ++ entry :: post) with (pre ++ [entry] ++ post).
    rewrite app_assoc.
    replace (S (length pre)) with (length (pre ++ [entry]))
      by (rewrite length_app; simpl; lia).
    rewrite drop_app_length. reflexivity.
  - rewrite insert_app_r_alt by lia. rewrite Nat.sub_diag. reflexivity.
Qed.

Lemma removeFromLossBuffer_head_reinserted
    (s : QuicStreamLike) (pre post : list WSB) (entry : WSB)
    (offset len : Z) (eof : bool) :
  lossBuffer s = pre ++ entry :: post ->
  Forall segValid (lossBuffer s) -> sortedDisjoint (lossBuffer s) ->
  0 < len -> WriteStreamBuffer.offset entry < offset ->
  offset + len <= segEnd entry ->
  headReinserted entry offset
    (lossBuffer (removeFromLossBuffer offset len eof s)).
Proof.
  intros Hl Hv Hs Hlen Hstart Hend.
  rewrite (removeFromLossBuffer_split s pre post entry) by assumption.
  rewrite insertIntoLossBuffer_insertSegment.
  unfold sortedDisjoint in Hs. rewrite Hl in Hv, Hs.
  rewrite Forall_app, Forall_cons in Hv. destruct Hv as (Hvpre & Hve & Hvpost).
  rewrite StronglySorted_app in Hs. destruct Hs as (Hpe & _ & Hs).
  rewrite StronglySorted_cons in Hs. destruct Hs as [Hepost _].
  assert (Hve' := Hve). unfold segValid, segEnd in Hve', Hend.
  simpl in Hve', Hend.
  cbn [lossBuffer set_lossBuffer].
  match goal with
  | |- headReinserted _ _ (insertSegment ?h ?r) =>
      set (head := h); set (rest := r)
  end.
  assert (Hrest : exists l2, rest = pre ++ l2
            /\ match l2 with
               | [] => True
               | h :: _ => segOffset head < segOffset h
               end).
  { unfold rest. destruct (_ && _).
    - exists post. split; [reflexivity|].
      destruct post as [|q post']; [exact I|].
      rewrite Forall_cons in Hepost. destruct Hepost as [[_ Hq] _]. exact Hq.
    - eexists. split; [reflexivity|]. simpl. lia. }
  destruct Hrest as (l2 & Hrest & Hl2).
  rewrite Hrest, insertSegment_app; [|
    apply Forall_forall; intros p Hp;
    assert (Hpb : segBefore p entry)
      by (apply Hpe; [assumption|apply elem_of_cons; now left]);
    destruct Hpb as [_ Hpb]; simpl in *; lia | exact Hl2 ].
  assert (Hhead : chainLength (WriteStreamBuffer.data head)
                  = offset - WriteStreamBuffer.offset entry).
  { unfold head. simpl. apply chainLength_take. lia. }
  destruct (last pre) as [prev|] eqn:Hlast.
  - destruct (wrap64 (segOffset prev + segLength prev) =? segOffset head)
      eqn:E.
    + exists (segAppend prev head), (WriteStreamBuffer.data prev).
      split; [apply elem_of_app; right; apply elem_of_cons; now left|].
      split; [reflexivity|]. split; [|reflexivity].
      apply Z.eqb_eq in E. simpl in *.
      assert (Hvp : segValid prev).
      { rewrite Forall_forall in Hvpre. apply Hvpre.
        apply last_Some_elem_of in Hlast. exact Hlast. }
      unfold segValid, segEnd in Hvp. simpl in Hvp.
      rewrite wrap64_small in E by lia.
      unfold chainLength in *. rewrite length_app. lia.
    + exists head, []. split; [apply elem_of_app; right; apply elem_of_cons; now left|].
      split; [reflexivity|]. split; [|reflexivity]. simpl in *. lia.
  - exists head, []. split; [apply elem_of_app; right; apply elem_of_cons; now left|].
    split; [reflexivity|]. split; [|reflexivity]. simpl in *. lia.
Qed.

(** Removing a range that starts strictly inside an entry and runs past
    its end: the entry fails both tests of the loop and is passed over. *)
Lemma removeFromLossBuffer_overhang
    (s : QuicStreamLike) (pre post : list WSB) (entry : WSB)
    (offset len : Z) (eof : bool) :
  lossBuffer s = pre ++ entry :: post ->
  Forall segValid (lossBuffer s) -> sortedDisjoint (lossBuffer s) ->
  0 < len -> offset + len < 2 ^ 64 ->
  WriteStreamBuffer.offset entry < offset -> offset < segEnd entry ->
  segEnd entry < offset + len ->
  lossBuffer (removeFromLossBuffer offset len eof s)
  = pre ++ entry ::
      match post with
      | next :: rest =>
          if segEnd next <=? offset + len then
            if Bool.eqb (WriteStreamBuffer.eof next) eof then rest
            else WriteStreamBuffer.mk [] (segEnd next)
                   (WriteStreamBuffer.eof next) :: rest
          else post
      | [] => []
      end.
Proof.
  intros Hl Hv Hs Hlen Hbound Hstart Hinside Hover.
  unfold sortedDisjoint in Hs. rewrite Hl in Hv, Hs.
  rewrite Forall_app, Forall_cons in Hv. destruct Hv as (Hvpre & Hve & Hvpost).
  destruct (proj1 (StronglySorted_app _ _ _) Hs) as (Hpe & _ & Hsep).
  apply StronglySorted_inv in Hsep. destruct Hsep as [Hspost Hepost].
  assert (Hve' := Hve). unfold segValid, segEnd in Hve', Hinside, Hover.
  simpl in Hve', Hinside, Hover.
  unfold removeFromLossBuffer. rewrite Hl.
  replace (match pre ++ entry :: post with [] => true | _ :: _ => false end)
    with false by (now destruct pre).
  replace (len =? 0) with false by (symmetry; apply Z.eqb_neq; lia).
  simpl orb. cbv iota.
  change (pre ++ entry :: post) with (pre ++ [entry] ++ post).
  rewrite app_assoc. rewrite removeFromLossBuffer_from_skip.
  2:{ apply Forall_app. split.
      - apply (entries_before_are_skipped _ _ _ entry); try lia;
          try assumption.
        apply Forall_forall. intros p Hp. apply Hpe; [assumption|].
        apply elem_of_cons. now left.
      - apply Forall_singleton. unfold skipsEntry.
        rewrite !wrap64_small by lia. split.
        + apply Z.ltb_ge. lia.
        + apply orb_false_iff. split; apply andb_false_iff.
          * right. apply Z.leb_gt. lia.
          * left. apply Z.leb_gt. lia. }
  destruct post as [|next rest].
  - simpl. exact Hl.
  - rewrite Forall_cons in Hvpost. destruct Hvpost as [Hvn Hvrest].
    rewrite Forall_cons in Hepost. destruct Hepost as [Hen Herest].
    apply StronglySorted_inv in Hspost. destruct Hspost as [_ Hnrest].
    unfold segValid, segEnd in Hvn. unfold segBefore, segEnd in Hen.
    simpl in Hvn, Hen.
    change (segEnd next)
      with (WriteStreamBuffer.offset next
            + chainLength (WriteStreamBuffer.data next)).
    cbn [removeFromLossBuffer_from].
    rewrite !wrap64_small by lia.
    destruct (Z.leb_spec (WriteStreamBuffer.offset next
                          + chainLength (WriteStreamBuffer.data next))
                (offset + len)) as [Hwithin|Houtside].
    + replace (offset + len <? WriteStreamBuffer.offset next) with false
        by (symmetry; apply Z.ltb_ge; lia).
      replace (WriteStreamBuffer.offset next <=? offset) with false
        by (symmetry; apply Z.leb_gt; lia).
      replace (offset <=? WriteStreamBuffer.offset next) with true
        by (symmetry; apply Z.leb_le; lia).
      replace (WriteStreamBuffer.offset next <? offset) with false
        by (symmetry; apply Z.ltb_ge; lia).
      cbn [andb orb]. rewrite Z.ltb_irrefl.
      unfold trimStartAtMost.
      rewrite Z.min_r by lia. rewrite wrap64_small by lia.
      assert (Hdrop : drop (Z.to_nat len) (WriteStreamBuffer.data next) = []).
      { apply drop_ge. unfold chainLength in *. lia. }
      rewrite Hdrop. cbn [WriteStreamBuffer.data WriteStreamBuffer.eof
                            chainEmpty negb andb].
      rewrite Hl. change (pre ++ entry :: next :: rest)
        with (pre ++ [entry] ++ next :: rest).
      rewrite app_assoc. rewrite Nat.add_0_l.
      destruct (Bool.eqb (WriteStreamBuffer.eof next) eof).
      * cbn [lossBuffer set_lossBuffer]. rewrite erase_middle.
        now rewrite <- app_assoc.
      * cbn [lossBuffer set_lossBuffer]. rewrite insert_middle.
        now rewrite <- app_assoc.
    + destruct (Z.ltb_spec (offset + len) (WriteStreamBuffer.offset next))
        as [Hbehind|Hreaches].
      * exact Hl.
      * replace (WriteStreamBuffer.offset next <=? offset) with false
          by (symmetry; apply Z.leb_gt; lia).
        replace (WriteStreamBuffer.offset next
                 + chainLength (WriteStreamBuffer.data next)
                 <=? offset + len) with false
          by (symmetry; apply Z.leb_gt; lia).
        rewrite andb_false_r. cbn [andb orb].
        destruct rest as [|after rest'].
        -- simpl. exact Hl.
        -- rewrite Forall_cons in Hnrest. destruct Hnrest as [Hna _].
           unfold segBefore, segEnd in Hna. simpl in Hna.
           cbn [removeFromLossBuffer_from].
           rewrite !wrap64_small by lia.
           replace (offset + len <? WriteStreamBuffer.offset after) with true
             by (symmetry; apply Z.ltb_lt; lia).
           exact Hl.
Qed.

(** C10, as the code has it: when the removed range is exactly the data of
    an entry, the entry is erased if its [eof] flag equals the [eof]
    argument and stays behind with empty data if the flags differ; when the
    removed range starts strictly inside an entry and ends no later than the
    entry does, the head of the entry in front of the range is split off and
    put back through [insertIntoLossBuffer] with [eof] cleared, whatever the
    entry's own flag; when the range starts strictly inside an entry and
    runs past its end, the entry is passed over whole, with nothing split
    off, and the loop goes on: the entry behind it is erased, or emptied if
    the flags differ, when it ends within the range, and nothing else
    changes. *)
Theorem removeFromLossBuffer_erases_or_splits
    (s : QuicStreamLike) (pre post : list WSB) (entry : WSB)
    (offset len : Z) (eof : bool) :
  lossBuffer s = pre ++ entry :: post ->
  Forall segValid (lossBuffer s) -> sortedDisjoint (lossBuffer s) ->
  0 < len ->
  (offset = WriteStreamBuffer.offset entry ->
   len = chainLength (WriteStreamBuffer.data entry) ->
   lossBuffer (removeFromLossBuffer offset len eof s)
   = if Bool.eqb (WriteStreamBuffer.eof entry) eof then pre ++ post
     else pre ++ WriteStreamBuffer.mk [] (offset + len)
                    (WriteStreamBuffer.eof entry) :: post)
  /\ (WriteStreamBuffer.offset entry < offset ->
      offset + len <= segEnd entry ->
      removeFromLossBuffer offset len eof s
      = insertIntoLossBuffer
          (WriteStreamBuffer.mk
             (take (Z.to_nat (offset - WriteStreamBuffer.offset entry))
                (WriteStreamBuffer.data entry))
             (WriteStreamBuffer.offset entry) false)
          (set_lossBuffer
             (if (offset + len =? segEnd entry)
                 && Bool.eqb (WriteStreamBuffer.eof entry) eof
              then pre ++ post
              else pre ++ WriteStreamBuffer.mk
                            (drop (Z.to_nat (offset + len
                                     - WriteStreamBuffer.offset entry))
                               (WriteStreamBuffer.data entry))
                            (offset + len)
                            (WriteStreamBuffer.eof entry) :: post) s)
      /\ headReinserted entry offset
           (lossBuffer (removeFromLossBuffer offset len eof s)))
  /\ (WriteStreamBuffer.offset entry < offset -> offset < segEnd entry ->
      segEnd entry < offset + len -> offset + len < 2 ^ 64 ->
      lossBuffer (removeFromLossBuffer offset len eof s)
      = pre ++ entry ::
          match post with
          | next :: rest =>
              if segEnd next <=? offset + len then
                if Bool.eqb (WriteStreamBuffer.eof next) eof then rest
                else WriteStreamBuffer.mk [] (segEnd next)
                       (WriteStreamBuffer.eof next) :: rest
              else post
          | [] => []
          end).
Proof.
  intros Hl Hv Hs Hlen. split; [|split].
  - intros -> Hlen'.
    rewrite (removeFromLossBuffer_exact s pre post entry) by assumption.
    reflexivity.
  - intros Hstart Hend. split.
    + now apply removeFromLossBuffer_split.
    + now apply (removeFromLossBuffer_head_reinserted s pre post entry).
  - intros Hstart Hinside Hover Hbound.
    now apply removeFromLossBuffer_overhang.
Qed.

Lemma removeFromLossBuffer_erases_or_splits_witness :
  lossBuffer (removeFromLossBuffer 10 5 true streamWithLoss)
  = [WriteStreamBuffer.mk [] 15 false]
  /\ lossBuffer (removeFromLossBuffer 10 5 false streamWithLoss) = []
  /\ headReinserted lostAt10 12
       (lossBuffer (removeFromLossBuffer 12 2 true streamWithLoss))
  /\ lossBuffer (removeFromLossBuffer 12 5 false streamWithGappedLosses)
     = [lostAt10].
Proof.
  assert (Hv : Forall segValid (lossBuffer streamWithLoss)).
  { repeat constructor; vm_compute; congruence. }
  assert (Hs : sortedDisjoint (lossBuffer streamWithLoss)).
  { repeat constructor. }
  assert (Hvg : Forall segValid (lossBuffer streamWithGappedLosses)).
  { repeat constructor; vm_compute; congruence. }
  assert (Hsg : sortedDisjoint (lossBuffer streamWithGappedLosses)).
  { repeat constructor; vm_compute; congruence. }
  split; [|split; [|split]].
  - exact (proj1 (removeFromLossBuffer_erases_or_splits
             streamWithLoss [] [] lostAt10 10 5 true eq_refl Hv Hs
             ltac:(lia)) eq_refl eq_refl).
  - exact (proj1 (removeFromLossBuffer_erases_or_splits
             streamWithLoss [] [] lostAt10 10 5 false eq_refl Hv Hs
             ltac:(lia)) eq_refl eq_refl).
  - refine (proj2 (proj1 (proj2 (removeFromLossBuffer_erases_or_splits
             streamWithLoss [] [] lostAt10 12 2 true eq_refl Hv Hs
             ltac:(lia))) _ _)).
    + simpl. lia.
    + vm_compute. congruence.
  - refine (proj2 (proj2 (removeFromLossBuffer_erases_or_splits
             streamWithGappedLosses [] [lostAt16] lostAt10 12 5 false
             eq_refl Hvg Hsg ltac:(lia))) _ _ _ _).
    + simpl. lia.
    + vm_compute. reflexivity.
    + vm_compute. reflexivity.
    + lia.
Defined.

(** C10 as stated fails for a removed range that starts strictly inside an
    entry but runs past its end: here the loop passes over the only entry
    and the loss buffer is left as it was, with nothing split off. *)
Lemma removeFromLossBuffer_overhanging_range_splits_nothing :
  WriteStreamBuffer.offset lostAt10 < 12 < segEnd lostAt10
  /\ removeFromLossBuffer 12 5 false streamWithLoss = streamWithLoss
  /\ ~ headReinserted lostAt10 12
         (lossBuffer (removeFromLossBuffer 12 5 false streamWithLoss)).
Proof.
  split; [|split].
  - vm_compute. split; reflexivity.
  - reflexivity.
  - intros (h & front & Hin & _ & Hend & _).
    change (lossBuffer (removeFromLossBuffer 12 5 false streamWithLoss))
      with [lostAt10] in Hin.
    apply list_elem_of_singleton in Hin. subst h.
    vm_compute in Hend. discriminate.
Qed.

(** ** Written stream data *)

Lemma lower_bound_split {A V} (comp : A -> V -> bool) (l : list A) (v : V) :
  let i := lower_bound comp l v in
  Forall (fun e => comp e v = true) (take i l)
  /\ match drop i l with [] => True | h :: _ => comp h v = false end.
Proof.
  induction l as [|e r IH]; simpl.
  - split; [constructor|exact I].
  - destruct (comp e v) eqn:E; simpl.
    + destruct IH as [IH1 IH2]. split; [now constructor|exact IH2].
    + split; [constructor|exact E].
Qed.

(** C9: what [handleStreamWritten] does by the position of the frame
    relative to [currentWriteOffset].
    - Beyond it: a [QuicTransportException] with [INTERNAL_ERROR] is thrown
      and neither the connection nor the stream is changed.
    - At it: the data is new; [currentWriteOffset] advances by the frame
      length, plus one for a FIN, the written bytes leave [pendingWrites]
      and are recorded in [retransmissionBuffer] under the original offset,
      which the code checks to be free there, and the call returns
      [true].
    - Before it: the call returns [false]; when the loss buffer has an
      entry starting at the frame's offset the frame is a retransmission
      (recorded in [retransmissionBuffer], counted in
      [totalBytesRetransmitted]), otherwise it is a clone (counted in
      [totalStreamBytesCloned], stream unchanged). *)
Theorem handleStreamWritten_by_offset
    (conn : QuicConnectionStateBase) (stream : QuicStreamLike)
    (frameOffset frameLen : Z) (frameFin : bool)
    (packetNum : Z) (space : PacketNumberSpace.t) :
  0 <= frameLen -> 0 <= currentWriteOffset stream ->
  currentWriteOffset stream + frameLen + 1 < 2 ^ 64 ->
  (currentWriteOffset stream < frameOffset ->
   handleStreamWritten frameOffset frameLen frameFin packetNum space
     (conn, stream)
   = Thrown INTERNAL_ERROR (conn, stream))
  /\ (frameOffset = currentWriteOffset stream ->
      retransmissionBuffer stream !! frameOffset = None ->
      exists stream',
        handleStreamWritten frameOffset frameLen frameFin packetNum space
          (conn, stream)
        = Returned true (conn, stream')
        /\ currentWriteOffset stream'
           = currentWriteOffset stream + frameLen
             + (if frameFin then 1 else 0)
        /\ retransmissionBuffer stream'
           = <[frameOffset :=
                 WriteStreamBuffer.mk
                   (take (Z.to_nat frameLen) (pendingWrites stream))
                   frameOffset frameFin]> (retransmissionBuffer stream)
        /\ pendingWrites stream'
           = drop (Z.to_nat frameLen) (pendingWrites stream)
        /\ lossBuffer stream' = lossBuffer stream)
  /\ (frameOffset < currentWriteOffset stream ->
      (forall entry,
          lossBuffer stream
            !! lower_bound (fun buf off => WriteStreamBuffer.offset buf <? off)
                 (lossBuffer stream) frameOffset = Some entry ->
          WriteStreamBuffer.offset entry = frameOffset ->
          retransmissionBuffer stream !! frameOffset = None ->
          exists stream',
            handleStreamWritten frameOffset frameLen frameFin packetNum space
              (conn, stream)
            = Returned false
                (add_totalBytesRetransmitted frameLen conn, stream')
            /\ retransmissionBuffer stream'
               = <[frameOffset :=
                     WriteStreamBuffer.mk
                       (take (Z.to_nat frameLen)
                          (WriteStreamBuffer.data entry))
                       frameOffset frameFin]> (retransmissionBuffer stream)
            /\ currentWriteOffset stream' = currentWriteOffset stream)
      /\ ((forall entry,
              lossBuffer stream
                !! lower_bound
                     (fun buf off => WriteStreamBuffer.offset buf <? off)
                     (lossBuffer stream) frameOffset = Some entry ->
              WriteStreamBuffer.offset entry <> frameOffset) ->
          handleStreamWritten frameOffset frameLen frameFin packetNum space
            (conn, stream)
          = Returned false (add_totalStreamBytesCloned frameLen conn, stream))).
Proof.
  intros Hlen Hcwo Hend. split; [|split].
  - intros Hgt. unfold handleStreamWritten, bind, get. simpl.
    replace (frameOffset =? currentWriteOffset stream) with false
      by (symmetry; apply Z.eqb_neq; lia).
    replace (currentWriteOffset stream <? frameOffset) with true
      by (symmetry; apply Z.ltb_lt; lia).
    reflexivity.
  - intros -> Hfree. unfold handleStreamWritten, bind, get. simpl.
    rewrite Z.eqb_refl.
    unfold onStream, handleNewStreamDataWritten, bind, get, CHECK, put,
      modify, ret, splitAtMost. simpl.
    rewrite Hfree. rewrite bool_decide_eq_true_2 by reflexivity.
    eexists. split; [reflexivity|]. simpl.
    split; [|split; [|split]]; try reflexivity.
    rewrite (wrap64_small (_ + frameLen)) by lia.
    rewrite wrap64_small by (destruct frameFin; lia). reflexivity.
  - intros Hlt. split.
    + intros entry Hentry Hoff Hfree.
      unfold handleStreamWritten, bind, get. simpl.
      replace (frameOffset =? currentWriteOffset stream) with false
        by (symmetry; apply Z.eqb_neq; lia).
      replace (currentWriteOffset stream <? frameOffset) with false
        by (symmetry; apply Z.ltb_ge; lia).
      rewrite Hentry. rewrite Hoff, Z.eqb_refl.
      unfold onStream, handleRetransmissionWritten, bind, get. simpl.
      rewrite Hentry.
      destruct ((frameLen =? chainLength (WriteStreamBuffer.data entry))
                && Bool.eqb frameFin (WriteStreamBuffer.eof entry)) eqn:E.
      * unfold CHECK, put, onConn, ret. simpl. rewrite Hfree.
        rewrite bool_decide_eq_true_2 by reflexivity.
        eexists. split; [reflexivity|]. simpl. split; [|reflexivity].
        apply andb_true_iff in E. destruct E as [E _].
        apply Z.eqb_eq in E. rewrite take_ge; [reflexivity|].
        unfold chainLength in E. lia.
      * unfold CHECK, put, onConn, ret, splitAtMost. simpl. rewrite Hfree.
        rewrite bool_decide_eq_true_2 by reflexivity.
        eexists. split; [reflexivity|]. simpl. split; reflexivity.
    + intros Hno.
      unfold handleStreamWritten, bind, get. simpl.
      replace (frameOffset =? currentWriteOffset stream) with false
        by (symmetry; apply Z.eqb_neq; lia).
      replace (currentWriteOffset stream <? frameOffset) with false
        by (symmetry; apply Z.ltb_ge; lia).
      destruct (lossBuffer stream !! _) as [entry|] eqn:Hentry.
      * specialize (Hno entry eq_refl).
        replace (WriteStreamBuffer.offset entry =? frameOffset) with false
          by (symmetry; now apply Z.eqb_neq).
        reflexivity.
      * reflexivity.
Qed.

Lemma handleStreamWritten_by_offset_witness :
  exists stream',
    handleStreamWritten 0 5 true 0 PacketNumberSpace.AppData
      (sampleConn, streamWithPendingWrites)
    = Returned true (sampleConn, stream')
    /\ currentWriteOffset stream' = 6
    /\ pendingWrites stream' = [].
Proof.
  destruct (handleStreamWritten_by_offset sampleConn streamWithPendingWrites
              0 5 true 0 PacketNumberSpace.AppData
              ltac:(lia) ltac:(simpl; lia) ltac:(simpl; lia))
    as (_ & Hnew & _).
  destruct (Hnew eq_refl eq_refl) as (stream' & Hrun & Hcwo & _ & Hpend & _).
  exists stream'. split; [exact Hrun|]. split; [exact Hcwo|exact Hpend].
Defined.

(** ** Recording a sent packet *)

Lemma sameSendState_refl c : sameSendState c c.
Proof. unfold sameSendState. repeat split. Qed.

Lemma sameSendState_trans c1 c2 c3 :
  sameSendState c1 c2 -> sameSendState c2 c3 -> sameSendState c1 c3.
Proof.
  unfold sameSendState. intros H12 H23.
  repeat match goal with H : _ /\ _ |- _ => destruct H as [? H] end.
  repeat split; congruence.
Qed.

#[global] Instance sameSendState_preorder : PreOrder sameSendState.
Proof.
  split; [exact sameSendState_refl|].
  intros c1 c2 c3. apply sameSendState_trans.
Qed.

Section Preserves.
Context {S : Type} (R : relation S) `{!PreOrder R}.

Lemma preserves_bind {A B} (c : M S A) (k : A -> M S B) :
  preserves R c -> (forall a, preserves R (k a)) -> preserves R (bind c k).
Proof.
  intros Hc Hk s. unfold bind. specialize (Hc s).
  destruct (c s) as [a s'|code s'|]; simpl in *; [|assumption|exact I].
  specialize (Hk a s'). destruct (k a s'); simpl in *;
    try exact I; etransitivity; eassumption.
Qed.

Lemma preserves_ret {A} (a : A) : preserves R (ret a).
Proof. intros s. simpl. reflexivity. Qed.

Lemma preserves_get : preserves R get.
Proof. intros s. simpl. reflexivity. Qed.

Lemma preserves_throw {A} code : preserves R (@throw S A code).
Proof. intros s. simpl. reflexivity. Qed.

Lemma preserves_abort {A} : preserves R (@abort S A).
Proof. intros s. exact I. Qed.

Lemma preserves_CHECK b : preserves R (CHECK b).
Proof. intros s. unfold CHECK. destruct b; simpl; [reflexivity|exact I]. Qed.

Lemma preserves_modify (f : S -> S) :
  (forall s, R s (f s)) -> preserves R (modify f).
Proof. intros Hf s. simpl. apply Hf. Qed.

Lemma preserves_put (s' : S) : (forall s, R s s') -> preserves R (put s').
Proof. intros Hf s. simpl. apply Hf. Qed.

End Preserves.

#[global] Instance onFst_preorder {C S} (R : relation C) `{!PreOrder R} :
  PreOrder (@onFst C S R).
Proof.
  split.
  - intros st. unfold onFst. reflexivity.
  - intros a b c. unfold onFst. intros. etransitivity; eassumption.
Qed.

Lemma preserves_onStream {C A} (R : relation C) `{!PreOrder R}
    (c : M QuicStreamLike A) :
  preserves (onFst R) (@onStream C A c).
Proof.
  intros [conn stream]. unfold onStream.
  destruct (c stream); simpl; try exact I; unfold onFst; reflexivity.
Qed.

Lemma preserves_onStreamState {C A} (R : relation C) `{!PreOrder R}
    (c : M QuicStreamState A) :
  preserves (onFst R) (@onStreamState C A c).
Proof.
  intros [conn stream]. unfold onStreamState.
  destruct (c stream); simpl; try exact I; unfold onFst; reflexivity.
Qed.

Lemma preserves_onConn {S} (R : relation QuicConnectionStateBase)
    (f : QuicConnectionStateBase -> QuicConnectionStateBase) :
  (forall conn, R conn (f conn)) -> preserves (onFst R) (@onConn S f).
Proof. intros Hf [conn stream]. simpl. apply Hf. Qed.

Ltac same_send_state := unfold sameSendState; simpl; repeat split; reflexivity.

(** Walks through a computation built from [bind], conditionals and the
    primitives above. *)
Ltac preserves_step :=
  first
    [ apply preserves_ret
    | apply preserves_get
    | apply preserves_throw
    | apply preserves_abort
    | apply preserves_CHECK
    | apply preserves_onStream; typeclasses eauto
    | apply preserves_onStreamState; typeclasses eauto
    | apply preserves_onConn; intros ?; same_send_state
    | apply preserves_modify; intros ?; same_send_state
    | apply preserves_bind; [typeclasses eauto| |intros ?]
    | match goal with
      | |- preserves _ (match ?x with _ => _ end) => destruct x
      end ].

Ltac preserves_walk := repeat preserves_step; try typeclasses eauto.

Lemma handleStreamWritten_preserves frameOffset frameLen frameFin packetNum
    space :
  preserves (onFst sameSendState)
    (handleStreamWritten frameOffset frameLen frameFin packetNum space).
Proof. unfold handleStreamWritten. preserves_walk. Qed.

Lemma handleStreamBufMetaWritten_preserves frameOffset frameLen frameFin
    packetNum space :
  preserves (onFst sameSendState)
    (handleStreamBufMetaWritten frameOffset frameLen frameFin packetNum space).
Proof. unfold handleStreamBufMetaWritten. preserves_walk. Qed.

Lemma preserves_withStream {A} streamId
    (c : M (QuicConnectionStateBase * QuicStreamState) A) :
  preserves (onFst sameSendState) c ->
  preserves sameSendState (withStream streamId c).
Proof.
  intros Hc conn. unfold withStream.
  destruct (streams conn !! streamId) as [stream|]; [|exact I].
  specialize (Hc (conn, stream)).
  destruct (c (conn, stream)) as [a [conn' stream']|code [conn' stream']|];
    simpl in *; try exact I;
    (etransitivity; [exact Hc|same_send_state]).
Qed.

Lemma preserves_withCryptoStream {A} level
    (c : M (QuicConnectionStateBase * QuicStreamLike) A) :
  preserves (onFst sameSendState) c ->
  preserves sameSendState (withCryptoStream level c).
Proof.
  intros Hc conn. unfold withCryptoStream.
  specialize (Hc (conn, cryptoState conn level)).
  destruct (c (conn, cryptoState conn level))
    as [a [conn' stream']|code [conn' stream']|];
    simpl in *; try exact I;
    (etransitivity; [exact Hc|same_send_state]).
Qed.

Lemma preserves_onStreamBase {A}
    (c : M (QuicConnectionStateBase * QuicStreamLike) A) :
  preserves (onFst sameSendState) c ->
  preserves (onFst sameSendState) (onStreamBase c).
Proof.
  intros Hc [conn stream]. unfold onStreamBase.
  specialize (Hc (conn, base stream)).
  destruct (c (conn, base stream)) as [a [conn' b]|code [conn' b]|];
    simpl in *; try exact I; exact Hc.
Qed.

(** Replaces the states named along a computation by what they were
    computed from, one step at a time. *)
Ltac unwind_states :=
  repeat match goal with
    | E : ?s = _ |- context [?s] => is_var s; rewrite E; simpl
    end.

Section TransportFacts.
Variable protectionTypeToEncryptionLevel :
  ProtectionType.t -> EncryptionLevel.t.

Lemma updateConnection_frame_preserves packet cloned frame locals :
  preserves sameSendState
    (updateConnection_frame protectionTypeToEncryptionLevel packet cloned
       frame locals).
Proof.
  unfold updateConnection_frame, modifyPendingEvents.
  destruct frame; preserves_walk.
  - apply preserves_withStream, handleStreamBufMetaWritten_preserves.
  - apply preserves_withStream, preserves_onStreamBase,
      handleStreamWritten_preserves.
  - apply preserves_withCryptoStream, handleStreamWritten_preserves.
Qed.

Lemma forEachFrame_preserves packet cloned frames locals :
  preserves sameSendState
    (forEachFrame
       (updateConnection_frame protectionTypeToEncryptionLevel packet cloned)
       frames locals).
Proof.
  revert locals. induction frames as [|frame rest IH]; intros locals; simpl.
  - apply preserves_ret; typeclasses eauto.
  - apply preserves_bind; [typeclasses eauto| |intros locals'; apply IH].
    apply updateConnection_frame_preserves.
Qed.

Lemma bind_Returned {S A B} (c : M S A) (k : A -> M S B) s b s' :
  bind c k s = Returned b s' ->
  exists a s1, c s = Returned a s1 /\ k a s1 = Returned b s'.
Proof.
  unfold bind. destruct (c s) as [a s1| |]; [eauto|discriminate..].
Qed.

Lemma updateConnection_frame_locals packet cloned frame locals conn
    locals' conn' :
  updateConnection_frame protectionTypeToEncryptionLevel packet cloned
    frame locals conn = Returned locals' conn' ->
  retransmittable locals'
  = retransmittable locals || frameIsRetransmittable frame.
Proof.
  unfold updateConnection_frame. intros Hret.
  destruct frame; simpl;
    repeat match goal with
      | H : bind _ _ _ = Returned _ _ |- _ =>
          apply bind_Returned in H; destruct H as (? & ? & _ & H)
      end;
    inversion Hret; subst; simpl;
    rewrite ?orb_true_r, ?orb_false_r; reflexivity.
Qed.

Lemma forEachFrame_locals packet cloned frames locals conn locals' conn' :
  forEachFrame
    (updateConnection_frame protectionTypeToEncryptionLevel packet cloned)
    frames locals conn = Returned locals' conn' ->
  retransmittable locals'
  = retransmittable locals || existsb frameIsRetransmittable frames.
Proof.
  revert locals conn. induction frames as [|frame rest IH];
    intros locals conn Hret; simpl in *.
  - inversion Hret; subst. now rewrite orb_false_r.
  - apply bind_Returned in Hret. destruct Hret as (l1 & c1 & Hf & Hrest).
    apply updateConnection_frame_locals in Hf.
    apply IH in Hrest. rewrite Hrest, Hf. now rewrite orb_assoc.
Qed.

Lemma updateConnection_frame_ping packet cloned frame locals conn
    locals' conn' :
  updateConnection_frame protectionTypeToEncryptionLevel packet cloned
    frame locals conn = Returned locals' conn' ->
  (isPing locals = true -> retransmittable locals = true) ->
  isPing locals' = true -> retransmittable locals' = true.
Proof.
  unfold updateConnection_frame. intros Hret.
  destruct frame; simpl;
    repeat match goal with
      | H : bind _ _ _ = Returned _ _ |- _ =>
          apply bind_Returned in H; destruct H as (? & ? & _ & H)
      end;
    inversion Hret; subst; simpl; auto.
Qed.

Lemma forEachFrame_ping packet cloned frames locals conn locals' conn' :
  forEachFrame
    (updateConnection_frame protectionTypeToEncryptionLevel packet cloned)
    frames locals conn = Returned locals' conn' ->
  (isPing locals = true -> retransmittable locals = true) ->
  isPing locals' = true -> retransmittable locals' = true.
Proof.
  revert locals conn. induction frames as [|frame rest IH];
    intros locals conn Hret Hok; simpl in *.
  - inversion Hret; subst. exact Hok.
  - apply bind_Returned in Hret. destruct Hret as (l1 & c1 & Hf & Hrest).
    eapply IH; [exact Hrest|].
    eapply updateConnection_frame_ping; eassumption.
Qed.

Lemma bind_get {S B} (k : S -> M S B) s : bind get k s = k s s.
Proof. reflexivity. Qed.

Lemma bind_modify {S B} (f : S -> S) (k : unit -> M S B) s :
  bind (modify f) k s = k tt (f s).
Proof. reflexivity. Qed.

Lemma bind_Returned_eq {S A B} (c : M S A) (k : A -> M S B) s a s1 :
  c s = Returned a s1 -> bind c k s = k a s1.
Proof. unfold bind. now intros ->. Qed.

Lemma increaseNextPacketNum_Returned space isDSR conn ackState :
  getAckState conn space = Some ackState ->
  increaseNextPacketNum space isDSR conn
  = Returned tt
      (setAckState space
         (mkAckState (wrap64 (nextPacketNum ackState + 1))
            (if isDSR then ackNonDsrPacketSequenceNumber ackState
             else wrap64 (ackNonDsrPacketSequenceNumber ackState + 1)))
         conn).
Proof.
  intros Hget. unfold increaseNextPacketNum. rewrite bind_get, Hget.
  reflexivity.
Qed.

(** What a call of [updateConnection] that returns has done to the
    packet-number space, the byte count, the outstanding packets and the
    key-update state. *)
Lemma updateConnection_Returned cloned pkt sentTime size bodySize isDSR
    conn conn' :
  updateConnection protectionTypeToEncryptionLevel cloned pkt sentTime size bodySize isDSR conn
  = Returned tt conn' ->
  exists ackState,
    let space := packetNumberSpace (header pkt) in
    let packetNum := packetSequenceNum (header pkt) in
    getAckState conn space = Some ackState
    /\ ackStates conn'
       = ackStates
           (setAckState space
              (mkAckState (wrap64 (nextPacketNum ackState + 1))
                 (if isDSR then ackNonDsrPacketSequenceNumber ackState
                  else wrap64 (ackNonDsrPacketSequenceNumber ackState + 1)))
              conn)
    /\ totalBytesSent (lossState conn')
       = wrap64 (totalBytesSent (lossState conn) + size)
    /\ packets (outstandings conn')
       = (if isAckEliciting pkt then
            emplace
              (outstandingInsertPosition packetNum
                 (packets (outstandings conn)))
              (outstandingEntry conn ackState cloned pkt sentTime size
                 bodySize isDSR)
              (packets (outstandings conn))
          else packets (outstandings conn))
    /\ oneRttWritePhase conn' = oneRttWritePhase conn
    /\ oneRttWritePendingVerification conn'
       = oneRttWritePendingVerification conn
    /\ oneRttWritePendingVerificationPacketNumber conn'
       = oneRttWritePendingVerificationPacketNumber
           (countPacketInCurrentPhase pkt conn)
    /\ oneRttWritePacketsSentInCurrentPhase conn'
       = oneRttWritePacketsSentInCurrentPhase
           (countPacketInCurrentPhase pkt conn)
    /\ writableBytesLimit conn' = writableBytesLimit conn
    /\ udpSendPacketLen conn' = udpSendPacketLen conn
    /\ loopDetectorCallback conn' = loopDetectorCallback conn
    /\ transportSettings conn' = transportSettings conn.
Proof.
  unfold updateConnection. intros Hret.
  apply bind_Returned in Hret. destruct Hret as (locals & conn1 & Hloop & Hret).
  pose proof (forEachFrame_preserves pkt cloned (frames pkt)
                (mkLocals false false 0) conn) as Hsame.
  rewrite Hloop in Hsame. simpl in Hsame.
  pose proof (forEachFrame_locals _ _ _ _ _ _ _ Hloop) as Hretx.
  pose proof (forEachFrame_ping _ _ _ _ _ _ _ Hloop) as Hping.
  simpl in Hretx, Hping.
  destruct Hsame as (Hack & Hout & Hbytes & Hinfl & Hphase & Hpend & Hnum
                     & Hsent & Hlimit & Hlen & Hloopd & Hts).
  assert (Hget : getAckState conn1 (packetNumberSpace (header pkt))
                 = getAckState conn (packetNumberSpace (header pkt))).
  { unfold getAckState. now rewrite Hack. }
  assert (Hcount : forall c,
             oneRttWritePhase c = oneRttWritePhase conn ->
             oneRttWritePendingVerification c
             = oneRttWritePendingVerification conn ->
             oneRttWritePendingVerificationPacketNumber c
             = oneRttWritePendingVerificationPacketNumber conn ->
             oneRttWritePacketsSentInCurrentPhase c
             = oneRttWritePacketsSentInCurrentPhase conn ->
             oneRttWritePhase (countPacketInCurrentPhase pkt c)
             = oneRttWritePhase conn
             /\ oneRttWritePendingVerification
                  (countPacketInCurrentPhase pkt c)
                = oneRttWritePendingVerification conn
             /\ oneRttWritePendingVerificationPacketNumber
                  (countPacketInCurrentPhase pkt c)
                = oneRttWritePendingVerificationPacketNumber
                    (countPacketInCurrentPhase pkt conn)
             /\ oneRttWritePacketsSentInCurrentPhase
                  (countPacketInCurrentPhase pkt c)
                = oneRttWritePacketsSentInCurrentPhase
                    (countPacketInCurrentPhase pkt conn)).
  { intros c H1 H2 H3 H4. unfold countPacketInCurrentPhase.
    rewrite H1, H2, H4.
    destruct (decide _); [|repeat split; assumption].
    destruct (oneRttWritePendingVerification conn
              && (oneRttWritePacketsSentInCurrentPhase conn =? 0));
      simpl; repeat split; try assumption; rewrite ?H4; reflexivity. }
  rewrite bind_get in Hret. rewrite Hget in Hret.
  destruct (getAckState conn (packetNumberSpace (header pkt)))
    as [ackState|] eqn:Hstate; [|discriminate].
  exists ackState. cbv zeta. split; [reflexivity|].
  rewrite (bind_Returned_eq _ _ _ _ _
             (increaseNextPacketNum_Returned _ _ _ _ Hget)) in Hret.
  unfold modifyLossState, modifyPendingEvents in Hret.
  repeat (rewrite bind_modify in Hret;
          match type of Hret with
          | bind _ _ ?st = _ =>
              let s := fresh "st" in remember st as s
          | (if _ then _ else _) ?st = _ =>
              let s := fresh "st" in remember st as s
          end).
  assert (Hcond : negb (retransmittable locals) && negb (isPing locals)
                  = negb (isAckEliciting pkt)).
  { unfold isAckEliciting. rewrite <- Hretx.
    destruct (retransmittable locals) eqn:E1; [reflexivity|].
    destruct (isPing locals) eqn:E2; [|reflexivity].
    specialize (Hping ltac:(discriminate) eq_refl). discriminate. }
  rewrite Hcond in Hret.
  assert (Hkey : oneRttWritePhase st4 = oneRttWritePhase conn
             /\ oneRttWritePendingVerification st4
                = oneRttWritePendingVerification conn
             /\ oneRttWritePendingVerificationPacketNumber st4
                = oneRttWritePendingVerificationPacketNumber
                    (countPacketInCurrentPhase pkt conn)
             /\ oneRttWritePacketsSentInCurrentPhase st4
                = oneRttWritePacketsSentInCurrentPhase
                    (countPacketInCurrentPhase pkt conn)).
  { subst st4. apply Hcount; unwind_states; assumption. }
  destruct Hkey as (Hc1 & Hc2 & Hc3 & Hc4).
  assert (Hst4 : ackStates st4
                 = ackStates
                     (setAckState (packetNumberSpace (header pkt))
                        (mkAckState (wrap64 (nextPacketNum ackState + 1))
                           (if isDSR
                            then ackNonDsrPacketSequenceNumber ackState
                            else wrap64
                                   (ackNonDsrPacketSequenceNumber ackState
                                    + 1))) conn)
                 /\ totalBytesSent (lossState st4)
                    = wrap64 (totalBytesSent (lossState conn) + size)
                 /\ inflightBytes (lossState st4)
                    = inflightBytes (lossState conn)
                 /\ outstandings st4 = outstandings conn
                 /\ writableBytesLimit st4 = writableBytesLimit conn
                 /\ udpSendPacketLen st4 = udpSendPacketLen conn
                 /\ loopDetectorCallback st4 = loopDetectorCallback conn
                 /\ transportSettings st4 = transportSettings conn).
  { unfold countPacketInCurrentPhase in Heqst4.
    assert (Hsub : forall (b : bool) x, (if b then x else x) = x :> QuicConnectionStateBase)
      by (now intros []).
    repeat split; subst st4;
      repeat match goal with
        | |- context [if ?b then _ else _] => destruct b; simpl
        end;
      unwind_states; rewrite ?Hack, ?Hbytes, ?Hinfl; try assumption;
      try reflexivity;
      unfold setAckState; simpl; rewrite ?Hack;
      destruct (packetNumberSpace (header pkt)); reflexivity. }
  destruct Hst4 as (Ha & Hb & Hi & Ho & Hw & Hu & Hl & Ht).
  destruct (isAckEliciting pkt); simpl in Hret.
  - rewrite bind_modify in Hret. rewrite bind_get in Hret.
    unfold put in Hret. inversion Hret as [Hconn']. clear Hret.
    unfold outstandingEntry.
    destruct isDSR, cloned; simpl; rewrite ?Ho, ?Hb, ?Hi;
      repeat split; try assumption; reflexivity.
  - inversion Hret; subst conn'. rewrite ?Ho.
    repeat split; try assumption; reflexivity.
Qed.

(** *** Key update *)

(** What an initiated key update leaves behind. *)
Lemma maybeInitiateKeyUpdate_initiated conn conn1 :
  maybeInitiateKeyUpdate conn = Returned tt conn1 ->
  oneRttWritePhase conn1 <> oneRttWritePhase conn ->
  oneRttWritePendingVerification conn1 = true
  /\ oneRttWritePendingVerificationPacketNumber conn1 = None
  /\ oneRttWritePacketsSentInCurrentPhase conn1 = 0
  /\ oneRttWritePhase conn1
     = currentOneRttReadPhase (advanceOneRttReadPhase (readCodec conn)).
Proof.
  unfold maybeInitiateKeyUpdate. rewrite bind_get.
  destruct (initiateKeyUpdate (transportSettings conn));
    [|intros Hret; inversion Hret; congruence].
  destruct (_ && _); [|intros Hret; inversion Hret; congruence].
  rewrite !bind_modify, bind_get. unfold updateOneRttWriteCipher.
  intros Hret _. revert Hret.
  unfold bind, get, CHECK, put, modify. simpl.
  destruct (_ || _); [|discriminate].
  destruct (negb _); [|discriminate].
  intros Hret. inversion Hret; subst conn1. simpl. repeat split.
Qed.

(** C3: once a key update has been initiated locally, the first packet
    sent in the new write phase is recorded as the packet awaiting
    verification, and later packets do not replace it; when an outstanding
    AppData packet numbered at or above it is acknowledged by a packet of
    another key phase than the current write phase the connection fails
    with [CRYPTO_ERROR], and when it is acknowledged in the current write
    phase the pending verification is cleared. *)
Theorem key_update_verification :
  (forall conn conn1 conn2 cloned pkt sentTime size bodySize isDSR,
      maybeInitiateKeyUpdate conn = Returned tt conn1 ->
      oneRttWritePhase conn1 <> oneRttWritePhase conn ->
      protectionType (header pkt) = oneRttWritePhase conn1 ->
      updateConnection protectionTypeToEncryptionLevel cloned pkt sentTime size bodySize isDSR conn1
      = Returned tt conn2 ->
      oneRttWritePendingVerification conn2 = true
      /\ oneRttWritePendingVerificationPacketNumber conn2
         = Some (packetSequenceNum (header pkt))
      /\ forall conn3 cloned' pkt' sentTime' size' bodySize' isDSR',
           updateConnection protectionTypeToEncryptionLevel cloned' pkt' sentTime' size' bodySize' isDSR'
             conn2 = Returned tt conn3 ->
           oneRttWritePendingVerificationPacketNumber conn3
           = Some (packetSequenceNum (header pkt)))
  /\ (forall conn outstandingPacket ackPacket pending,
        oneRttWritePendingVerificationPacketNumber conn = Some pending ->
        protectionTypeToEncryptionLevel
          (protectionType (header (packet outstandingPacket)))
        = EncryptionLevel.AppData ->
        pending <= packetSequenceNum (header (packet outstandingPacket)) ->
        (protectionType ackPacket <> oneRttWritePhase conn ->
         maybeVerifyPendingKeyUpdate protectionTypeToEncryptionLevel
           outstandingPacket ackPacket conn
         = Thrown CRYPTO_ERROR conn)
        /\ (protectionType ackPacket = oneRttWritePhase conn ->
            maybeVerifyPendingKeyUpdate protectionTypeToEncryptionLevel
              outstandingPacket ackPacket conn
            = Returned tt
                (set_oneRttWritePendingVerification false
                   (set_oneRttWritePendingVerificationPacketNumber None
                      conn)))).
Proof.
  split.
  - intros conn conn1 conn2 cloned pkt sentTime size bodySize isDSR
      Hinit Hphase Hprot Hsend.
    destruct (maybeInitiateKeyUpdate_initiated _ _ Hinit Hphase)
      as (Hpend & Hnum & Hsent & _).
    apply updateConnection_Returned in Hsend.
    destruct Hsend as (ackState & _ & _ & _ & _ & Hph2 & Hpend2 & Hnum2
                       & Hsent2 & _).
    unfold countPacketInCurrentPhase in Hnum2, Hsent2.
    rewrite Hprot, Hpend, Hsent in Hnum2, Hsent2.
    destruct (decide _) as [_|Hne]; [|contradiction].
    simpl in Hnum2, Hsent2. rewrite ?Hsent in Hsent2.
    split; [congruence|]. split; [exact Hnum2|].
    intros conn3 cloned' pkt' sentTime' size' bodySize' isDSR' Hsend'.
    apply updateConnection_Returned in Hsend'.
    destruct Hsend' as (ackState' & _ & _ & _ & _ & _ & _ & Hnum3 & _).
    rewrite Hnum3. unfold countPacketInCurrentPhase.
    destruct (decide _); [|exact Hnum2].
    rewrite Hsent2.
    replace (wrap64 (0 + 1) =? 0) with false by reflexivity.
    rewrite andb_false_r. exact Hnum2.
  - intros conn outstandingPacket ackPacket pending Hnum Happ Hle.
    unfold maybeVerifyPendingKeyUpdate. rewrite bind_get.
    rewrite Happ, Hnum.
    rewrite bool_decide_eq_true_2 by reflexivity. simpl.
    replace (pending
             <=? packetSequenceNum (header (packet outstandingPacket)))
      with true by (symmetry; now apply Z.leb_le).
    split; intros Hack.
    + rewrite bool_decide_eq_false_2 by assumption. reflexivity.
    + rewrite bool_decide_eq_true_2 by assumption. reflexivity.
Qed.

End TransportFacts.

Lemma key_update_verification_witness :
  oneRttWritePhase keyUpdatedConn = ProtectionType.KeyPhaseOne
  /\ oneRttWritePendingVerificationPacketNumber verificationPendingConn
     = Some 0
  /\ maybeVerifyPendingKeyUpdate sampleEncryptionLevel
       firstPacketOfPhaseOutstanding
       (mkHeader PacketNumberSpace.AppData ProtectionType.KeyPhaseZero 0)
       verificationPendingConn
     = Thrown CRYPTO_ERROR verificationPendingConn
  /\ maybeVerifyPendingKeyUpdate sampleEncryptionLevel
       firstPacketOfPhaseOutstanding
       (mkHeader PacketNumberSpace.AppData ProtectionType.KeyPhaseOne 0)
       verificationPendingConn
     = Returned tt
         (set_oneRttWritePendingVerification false
            (set_oneRttWritePendingVerificationPacketNumber None
               verificationPendingConn)).
Proof.
  destruct (key_update_verification sampleEncryptionLevel) as [Hsend Hack].
  destruct (Hsend keyUpdateDueConn keyUpdatedConn verificationPendingConn
              None firstPacketOfPhase 0 100 80 false
              ltac:(vm_compute; reflexivity) ltac:(vm_compute; discriminate)
              ltac:(vm_compute; reflexivity) ltac:(vm_compute; reflexivity))
    as (_ & Hnum & _).
  destruct (Hack verificationPendingConn firstPacketOfPhaseOutstanding
              (mkHeader PacketNumberSpace.AppData ProtectionType.KeyPhaseZero
                 0)
              0 Hnum ltac:(reflexivity) ltac:(simpl; lia)) as [Hother _].
  destruct (Hack verificationPendingConn firstPacketOfPhaseOutstanding
              (mkHeader PacketNumberSpace.AppData ProtectionType.KeyPhaseOne
                 0)
              0 Hnum ltac:(reflexivity) ltac:(simpl; lia)) as [_ Hsame].
  split; [vm_compute; reflexivity|]. split; [exact Hnum|].
  split.
  - apply Hother. vm_compute. discriminate.
  - apply Hsame. vm_compute. reflexivity.
Defined.

(** ** Order of the outstanding packets *)

Lemma find_if_reverse_base_split {A} (pred : A -> bool) (l : list A) :
  exists l1 l2,
    l = l1 ++ l2
    /\ length l1 = find_if_reverse_base pred (rev l)
    /\ Forall (fun x => pred x = false) l2.
Proof.
  induction l as [|x l IH] using rev_ind.
  - exists [], []. repeat split. constructor.
  - rewrite rev_app_distr. simpl. destruct (pred x) eqn:Hx.
    + exists (l ++ [x]), []. rewrite app_nil_r. repeat split.
      * rewrite length_app, length_rev. simpl. lia.
      * constructor.
    + destruct IH as (l1 & l2 & Hl & Hlen & Hl2).
      exists l1, (l2 ++ [x]). repeat split.
      * rewrite Hl at 1. now rewrite app_assoc.
      * exact Hlen.
      * apply Forall_app. split; [exact Hl2|]. now apply Forall_singleton.
Qed.

(** The new entry goes behind every recorded packet with a smaller packet
    number. *)
Lemma emplace_outstanding (packetNum : Z) (entry : OutstandingPacketWrapper)
    (l : list OutstandingPacketWrapper) :
  exists l1 l2,
    l = l1 ++ l2
    /\ emplace (outstandingInsertPosition packetNum l) entry l
       = l1 ++ entry :: l2
    /\ Forall (fun op => packetNum <= packetNumOf op) l2.
Proof.
  unfold outstandingInsertPosition.
  destruct (find_if_reverse_base_split
              (fun op => packetSequenceNum (header (packet op)) <? packetNum)
              l) as (l1 & l2 & Hl & Hlen & Hl2).
  exists l1, l2. split; [exact Hl|]. split.
  - rewrite <- Hlen. unfold emplace. rewrite Hl.
    now rewrite take_app_length, drop_app_length.
  - eapply Forall_impl; [exact Hl2|]. intros op Hop. simpl in Hop.
    apply Z.ltb_ge in Hop. exact Hop.
Qed.

Lemma getAckState_setAckState space space' a conn :
  getAckState (setAckState space a conn) space'
  = if decide (space' = space) then Some a else getAckState conn space'.
Proof. destruct space, space'; reflexivity. Qed.

Lemma getAckState_ackStates conn conn' space :
  ackStates conn' = ackStates conn ->
  getAckState conn' space = getAckState conn space.
Proof. unfold getAckState. now intros ->. Qed.

Lemma packetNumsInSpace_app space l1 l2 :
  packetNumsInSpace space (l1 ++ l2)
  = packetNumsInSpace space l1 ++ packetNumsInSpace space l2.
Proof. unfold packetNumsInSpace. now rewrite filter_app, fmap_app. Qed.

Lemma packetNumsInSpace_cons space op l :
  packetNumsInSpace space (op :: l)
  = if decide (spaceOf op = space)
    then packetNumOf op :: packetNumsInSpace space l
    else packetNumsInSpace space l.
Proof.
  unfold packetNumsInSpace. rewrite filter_cons.
  destruct (decide _); reflexivity.
Qed.

Lemma elem_of_packetNumsInSpace n space l :
  n ∈ packetNumsInSpace space l ->
  exists op, op ∈ l /\ spaceOf op = space /\ packetNumOf op = n.
Proof.
  unfold packetNumsInSpace. intros Hin.
  apply list_elem_of_fmap in Hin. destruct Hin as (op & -> & Hop).
  apply list_elem_of_filter in Hop. destruct Hop as [Hs Hop]. eauto.
Qed.

Lemma sendInvariant_increase k conn space a (isDSR : bool) :
  0 < k -> sendInvariant k conn ->
  getAckState conn space = Some a ->
  sendInvariant (k - 1)
    (setAckState space
       (mkAckState (wrap64 (nextPacketNum a + 1))
          (if isDSR then ackNonDsrPacketSequenceNumber a
           else wrap64 (ackNonDsrPacketSequenceNumber a + 1))) conn).
Proof.
  intros Hk (Hsorted & Hbelow & Hbound) Hget.
  destruct (Hbound space a Hget) as [Hn0 Hnk].
  assert (Hw : wrap64 (nextPacketNum a + 1) = nextPacketNum a + 1)
    by (apply wrap64_small; lia).
  split; [|split].
  - destruct space; exact Hsorted.
  - intros op Hop.
    assert (Hop' : op ∈ packets (outstandings conn))
      by (destruct space; exact Hop).
    destruct (Hbelow op Hop') as (a' & Ha' & Hlt).
    rewrite getAckState_setAckState. destruct (decide _) as [Heq|Hne].
    + eexists. split; [reflexivity|]. simpl. rewrite Hw.
      rewrite Heq in Ha'. rewrite Hget in Ha'. inversion Ha'; subst. lia.
    + exists a'. split; assumption.
  - intros space' a'. rewrite getAckState_setAckState.
    destruct (decide _) as [Heq|Hne].
    + intros Ha'. inversion Ha'; subst. simpl. rewrite Hw. lia.
    + intros Ha'. destruct (Hbound space' a' Ha'). lia.
Qed.

Section SendingFacts.
Variable protectionTypeToEncryptionLevel :
  ProtectionType.t -> EncryptionLevel.t.

(** Recording a packet that carries the next packet number of its space
    keeps the invariant. *)
Lemma updateConnection_sendInvariant k cloned pkt sentTime size bodySize
    isDSR conn conn' :
  0 < k -> sendInvariant k conn ->
  getNextPacketNum conn (packetNumberSpace (header pkt))
  = Some (packetSequenceNum (header pkt)) ->
  updateConnection protectionTypeToEncryptionLevel cloned pkt sentTime size
    bodySize isDSR conn = Returned tt conn' ->
  sendInvariant (k - 1) conn'.
Proof.
  intros Hk Hinv Hnext Hret.
  apply updateConnection_Returned in Hret.
  destruct Hret as (a & Hget & Hack & _ & Hpackets & _).
  cbv zeta in *.
  unfold getNextPacketNum in Hnext. rewrite Hget in Hnext. simpl in Hnext.
  inversion Hnext as [Hnum]. clear Hnext.
  pose proof (sendInvariant_increase k conn _ a isDSR Hk Hinv Hget) as Hinc.
  set (conn2 := setAckState _ _ conn) in *.
  assert (Hget' : forall space, getAckState conn' space
                                = getAckState conn2 space).
  { intros space. now apply getAckState_ackStates. }
  destruct Hinc as (Hsorted & Hbelow & Hbound).
  assert (Hp2 : packets (outstandings conn2) = packets (outstandings conn)).
  { unfold conn2. destruct (packetNumberSpace (header pkt)); reflexivity. }
  rewrite Hp2 in Hsorted, Hbelow.
  destruct (isAckEliciting pkt).
  2:{ split; [|split].
      - now rewrite Hpackets.
      - intros op Hop. rewrite Hpackets in Hop. rewrite Hget'. now apply Hbelow.
      - intros space a'. rewrite Hget'. apply Hbound. }
  destruct (emplace_outstanding (packetSequenceNum (header pkt))
              (outstandingEntry conn a cloned pkt sentTime size bodySize isDSR)
              (packets (outstandings conn)))
    as (l1 & l2 & Hl & Hemplace & Hl2).
  rewrite Hemplace in Hpackets. clear Hemplace.
  set (entry := outstandingEntry _ _ _ _ _ _ _ _) in *.
  assert (Hentry : spaceOf entry = packetNumberSpace (header pkt)
                   /\ packetNumOf entry = packetSequenceNum (header pkt)).
  { split; reflexivity. }
  destruct Hentry as [Hespace Henum].
  (* the packets of this space all lie in front of the new entry *)
  assert (Hspace2 : packetNumsInSpace (packetNumberSpace (header pkt)) l2 = []).
  { destruct (packetNumsInSpace _ l2) as [|n rest] eqn:E; [reflexivity|].
    assert (Hin : n ∈ packetNumsInSpace (packetNumberSpace (header pkt)) l2)
      by (rewrite E; apply elem_of_cons; now left).
    apply elem_of_packetNumsInSpace in Hin.
    destruct Hin as (op & Hop & Hs & Hn).
    rewrite Forall_forall in Hl2. specialize (Hl2 op Hop).
    destruct (Hinv) as (_ & Hbelow0 & _).
    destruct (Hbelow0 op) as (a0 & Ha0 & Hlt).
    { rewrite Hl. apply elem_of_app. now right. }
    rewrite Hs, Hget in Ha0. inversion Ha0; subst a0. lia. }
  split; [|split].
  - intros space. rewrite Hpackets.
    rewrite packetNumsInSpace_app, packetNumsInSpace_cons.
    specialize (Hsorted space). rewrite Hl, packetNumsInSpace_app in Hsorted.
    destruct (decide (spaceOf entry = space)) as [Heq|Hne]; [|exact Hsorted].
    rewrite Hespace in Heq. subst space. rewrite Hspace2 in *.
    rewrite app_nil_r in Hsorted.
    apply StronglySorted_app. split; [|split; [exact Hsorted|]].
    + intros n1 n2 Hn1 Hn2. apply list_elem_of_singleton in Hn2. subst n2.
      apply elem_of_packetNumsInSpace in Hn1.
      destruct Hn1 as (op & Hop & Hs & Hn).
      destruct (Hinv) as (_ & Hbelow0 & _).
      destruct (Hbelow0 op) as (a0 & Ha0 & Hlt).
      { rewrite Hl. apply elem_of_app. now left. }
      rewrite Hs, Hget in Ha0. inversion Ha0; subst a0.
      rewrite Henum. lia.
    + repeat constructor.
  - intros op Hop. rewrite Hpackets in Hop. rewrite Hget'.
    apply elem_of_app in Hop. rewrite elem_of_cons in Hop.
    destruct Hop as [Hop|[->|Hop]].
    + apply Hbelow. rewrite Hl. apply elem_of_app. now left.
    + rewrite Hespace. unfold conn2. rewrite getAckState_setAckState.
      destruct (decide _) as [_|Hne]; [|contradiction].
      eexists. split; [reflexivity|]. simpl. rewrite Henum.
      destruct (Hinv) as (_ & _ & Hbound0).
      destruct (Hbound0 _ a Hget). rewrite wrap64_small by lia. lia.
    + apply Hbelow. rewrite Hl. apply elem_of_app. now right.
  - intros space a'. rewrite Hget'. apply Hbound.
Qed.

Lemma runSendEvent_sendInvariant k e conn conn' :
  0 < k -> sendInvariant k conn ->
  runSendEvent protectionTypeToEncryptionLevel e conn = Returned tt conn' ->
  sendInvariant (k - 1) conn'.
Proof.
  intros Hk Hinv. destruct e as [p|space]; simpl.
  - unfold sendPacket. rewrite bind_get.
    destruct (getNextPacketNum conn (toSendSpace p)) as [n|] eqn:Hnext;
      [|discriminate].
    intros Hret.
    eapply updateConnection_sendInvariant; [exact Hk|exact Hinv| |exact Hret].
    exact Hnext.
  - unfold increaseNextPacketNum. rewrite bind_get.
    destruct (getAckState conn space) as [a|] eqn:Hget; [|discriminate].
    unfold put. intros Hret. inversion Hret; subst conn'.
    exact (sendInvariant_increase k conn space a false Hk Hinv Hget).
Qed.

Lemma runSendEvents_sendInvariant events k conn conn' :
  Z.of_nat (length events) <= k -> sendInvariant k conn ->
  runSendEvents protectionTypeToEncryptionLevel events conn
  = Returned tt conn' ->
  sendInvariant (k - Z.of_nat (length events)) conn'.
Proof.
  revert k conn. induction events as [|e rest IH]; intros k conn Hk Hinv Hret.
  - simpl in *. inversion Hret; subst. now rewrite Z.sub_0_r.
  - simpl in Hret. apply bind_Returned in Hret.
    destruct Hret as ([] & conn1 & He & Hrest).
    simpl length in *.
    apply (runSendEvent_sendInvariant k) in He; [|lia|exact Hinv].
    apply (IH (k - 1)) in Hrest; [|lia|exact He].
    replace (k - Z.of_nat (S (length rest)))
      with (k - 1 - Z.of_nat (length rest)) by lia.
    exact Hrest.
Qed.

(** C8: whatever sequence of writes a connection goes through from a state
    without outstanding packets, after every [updateConnection] that
    records a packet the outstanding packets of each packet-number space are
    in strictly increasing order of packet number; the new entry is placed
    behind every recorded packet with a smaller packet number, and within a
    space no packet number is used twice. *)
Theorem outstanding_packets_sorted_in_each_space
    (events : list SendEvent) (p : PacketToSend)
    (conn conn1 conn2 : QuicConnectionStateBase) :
  packets (outstandings conn) = [] ->
  (forall space a, getAckState conn space = Some a ->
     0 <= nextPacketNum a
     /\ nextPacketNum a + Z.of_nat (length events) + 1 < 2 ^ 64) ->
  runSendEvents protectionTypeToEncryptionLevel events conn
  = Returned tt conn1 ->
  sendPacket protectionTypeToEncryptionLevel p conn1 = Returned tt conn2 ->
  sortedInEachSpace (packets (outstandings conn2))
  /\ NoDup (packetNumsInSpace (toSendSpace p) (packets (outstandings conn2)))
  /\ (existsb frameIsRetransmittable (toSendFrames p) = true ->
      exists n entry l1 l2,
        getNextPacketNum conn1 (toSendSpace p) = Some n
        /\ packets (outstandings conn1) = l1 ++ l2
        /\ packets (outstandings conn2) = l1 ++ entry :: l2
        /\ packetNumOf entry = n /\ spaceOf entry = toSendSpace p
        /\ Forall (fun op => n <= packetNumOf op) l2).
Proof.
  intros Hempty Hbound Hrun Hsend.
  assert (Hinv : sendInvariant (Z.of_nat (length events) + 1) conn).
  { split; [|split].
    - intros space. rewrite Hempty. constructor.
    - intros op Hop. rewrite Hempty in Hop. inversion Hop.
    - intros space a Ha. destruct (Hbound space a Ha). lia. }
  apply (runSendEvents_sendInvariant _ (Z.of_nat (length events) + 1))
    in Hrun; [|lia|exact Hinv].
  replace (Z.of_nat (length events) + 1 - Z.of_nat (length events)) with 1
    in Hrun by lia.
  pose proof (runSendEvent_sendInvariant 1 (SendPacket p) conn1 conn2
                ltac:(lia) Hrun Hsend) as Hinv2.
  destruct Hinv2 as (Hsorted & _ & _).
  split; [exact Hsorted|]. split.
  - specialize (Hsorted (toSendSpace p)).
    clear -Hsorted. induction Hsorted as [|n l Hs IH Hn]; constructor.
    + intros Hin. rewrite Forall_forall in Hn. specialize (Hn n Hin). lia.
    + exact IH.
  - intros Heliciting. unfold sendPacket in Hsend. rewrite bind_get in Hsend.
    destruct (getNextPacketNum conn1 (toSendSpace p)) as [n|] eqn:Hnext;
      [|discriminate].
    apply updateConnection_Returned in Hsend.
    destruct Hsend as (a & _ & _ & _ & Hpackets & _). cbv zeta in Hpackets.
    unfold isAckEliciting in *. simpl in *. rewrite Heliciting in Hpackets.
    match type of Hpackets with
    | _ = emplace _ ?e _ =>
        destruct (emplace_outstanding n e (packets (outstandings conn1)))
          as (l1 & l2 & Hl & Hemplace & Hl2);
          exists n, e, l1, l2
    end.
    repeat split; try assumption. congruence.
Qed.

End SendingFacts.

Lemma finalState_Returned {S} (o : Outcome S unit) (d : S) :
  isReturned o = true -> o = Returned tt (finalState o d).
Proof. destruct o as [[] s|code s|]; simpl; intros Hret; congruence. Qed.

Lemma outstanding_packets_sorted_in_each_space_witness :
  sortedInEachSpace (packets (outstandings connAfterSecondPing))
  /\ packetNumsInSpace PacketNumberSpace.AppData
       (packets (outstandings connAfterSecondPing)) = [0; 2].
Proof.
  destruct (outstanding_packets_sorted_in_each_space sampleEncryptionLevel
              sampleSendEvents samplePing sampleConn connAfterSendEvents
              connAfterSecondPing) as (Hsorted & _).
  - reflexivity.
  - intros space a Ha. destruct space; vm_compute in Ha;
      inversion Ha; subst a; vm_compute; repeat split; discriminate.
  - apply finalState_Returned. vm_compute. reflexivity.
  - apply finalState_Returned. vm_compute. reflexivity.
  - split; [exact Hsorted|]. vm_compute. reflexivity.
Defined.

(** ** Writing packets to the socket *)

Section WriteLoopFacts.
Context {Scheduler World : Type} `{WriteEnvironment Scheduler World}.
Variable protectionTypeToEncryptionLevel :
  ProtectionType.t -> EncryptionLevel.t.

Lemma to_uint32_fits {S} (x : Z) (s : S) :
  x < 2 ^ 32 -> to_uint32 x s = Returned x s.
Proof.
  intros Hx. unfold to_uint32.
  replace (2 ^ 32 - 1 <? x) with false by (symmetry; apply Z.ltb_ge; lia).
  reflexivity.
Qed.



End WriteLoopFacts.


(** ** Writable bytes before the client address is validated *)

Lemma roundUp_bounds (r len : Z) :
  0 < len -> 0 <= r -> r + len < 2 ^ 64 ->
  let w := wrap64 (wrap64 (r + len - 1) / len * len) in
  r <= w < r + len /\ (len | w).
Proof.
  intros Hlen Hr Hbound. cbv zeta.
  rewrite (wrap64_small (r + len - 1)) by lia.
  pose proof (Z.div_mod (r + len - 1) len ltac:(lia)) as Hdm.
  pose proof (Z.mod_pos_bound (r + len - 1) len Hlen) as Hmod.
  assert (Hq : 0 <= (r + len - 1) / len) by (apply Z.div_pos; lia).
  rewrite wrap64_small by nia.
  split; [nia|]. exists ((r + len - 1) / len). reflexivity.
Qed.

(** C4, as the code has it: while [writableBytesLimit] is set, the budget
    is 0 once [totalBytesSent] has reached the limit; below the limit it is
    what remains up to the limit rounded up to a whole number of packets of
    [udpSendPacketLen] bytes: at least what remains and less than that plus
    one packet, so the budget is not held to the limit itself; verifying
    the client address removes the limit. *)
Theorem unvalidated_client_writable_bytes
    (conn : QuicConnectionStateBase) (limit : Z) :
  writableBytesLimit conn = Some limit ->
  0 < udpSendPacketLen conn ->
  0 <= totalBytesSent (lossState conn) ->
  0 <= limit -> limit + udpSendPacketLen conn < 2 ^ 64 ->
  (limit <= totalBytesSent (lossState conn) ->
   maybeUnvalidatedClientWritableBytes conn = Returned 0 conn
   /\ (pathChallenge (pendingEvents conn) = false ->
       outstandingPathValidation conn = false ->
       (forall cc, congestionController conn = Some cc -> 0 <= cc) ->
       (forall t, throttlingBytesToSend conn = Some t -> 0 <= t) ->
       congestionControlWritableBytes conn = Returned 0 conn))
  /\ (totalBytesSent (lossState conn) < limit ->
      exists w,
        maybeUnvalidatedClientWritableBytes conn = Returned w conn
        /\ limit - totalBytesSent (lossState conn) <= w
        /\ w < limit - totalBytesSent (lossState conn) + udpSendPacketLen conn
        /\ (udpSendPacketLen conn | w))
  /\ writableBytesLimit (verifiedClientAddress conn) = None
  /\ maybeUnvalidatedClientWritableBytes (verifiedClientAddress conn)
     = Returned uint64_max (verifiedClientAddress conn).
Proof.
  intros Hlimit Hlen Hsent Hlim0 Hbound. split; [|split; [|split]].
  - intros Hreached.
    assert (Hzero : maybeUnvalidatedClientWritableBytes conn = Returned 0 conn).
    { unfold maybeUnvalidatedClientWritableBytes. rewrite bind_get, Hlimit.
      replace (limit <=? totalBytesSent (lossState conn)) with true
        by (symmetry; now apply Z.leb_le).
      reflexivity. }
    split; [exact Hzero|].
    intros Hpc Hpv Hcc Hthrottle.
    unfold congestionControlWritableBytes. rewrite bind_get, Hpc, Hpv.
    simpl. rewrite Hlimit.
    rewrite (bind_Returned_eq _ _ _ _ _ Hzero).
    assert (Hmin : match congestionController conn with
                   | Some ccWritableBytes =>
                       match throttlingBytesToSend conn with
                       | Some bytesToSend =>
                           bytesToSend `min` (0 `min` ccWritableBytes)
                       | None => 0 `min` ccWritableBytes
                       end
                   | None => 0
                   end = 0).
    { destruct (congestionController conn) as [cc|]; [|reflexivity].
      specialize (Hcc cc eq_refl).
      destruct (throttlingBytesToSend conn) as [t|].
      - specialize (Hthrottle t eq_refl). lia.
      - lia. }
    rewrite Hmin. simpl.
    unfold roundUpToPacketLen. rewrite bind_get.
    replace (udpSendPacketLen conn =? 0) with false
      by (symmetry; apply Z.eqb_neq; lia).
    unfold ret. f_equal.
    destruct (roundUp_bounds 0 (udpSendPacketLen conn)) as [Hw [q Hq]];
      [lia..|].
    cbv zeta in Hw, Hq. rewrite Hq in *.
    destruct (Z.eq_dec q 0) as [->|Hq0]; [lia|exfalso].
    assert (Hcases : q <= -1 \/ 1 <= q) by lia.
    destruct Hcases; nia.
  - intros Hbelow.
    unfold maybeUnvalidatedClientWritableBytes. rewrite bind_get, Hlimit.
    replace (limit <=? totalBytesSent (lossState conn)) with false
      by (symmetry; apply Z.leb_gt; lia).
    unfold roundUpToPacketLen. rewrite bind_get.
    replace (udpSendPacketLen conn =? 0) with false
      by (symmetry; apply Z.eqb_neq; lia).
    rewrite (wrap64_small (limit - _)) by lia.
    eexists. split; [reflexivity|].
    destruct (roundUp_bounds (limit - totalBytesSent (lossState conn))
                (udpSendPacketLen conn)) as [Hw Hdiv]; [lia..|].
    cbv zeta in Hw, Hdiv. repeat split; try lia. exact Hdiv.
  - reflexivity.
  - reflexivity.
Qed.

Lemma unvalidated_client_writable_bytes_witness :
  (exists w,
      maybeUnvalidatedClientWritableBytes sampleUnvalidatedConn
      = Returned w sampleUnvalidatedConn
      /\ 100 <= w /\ w < 100 + 1252 /\ (1252 | w))
  /\ writableBytesLimit (verifiedClientAddress sampleUnvalidatedConn) = None.
Proof.
  pose proof (unvalidated_client_writable_bytes sampleUnvalidatedConn 100
                eq_refl ltac:(simpl; lia) ltac:(simpl; lia) ltac:(lia)
                ltac:(simpl; lia)) as (_ & Hbelow & Hverified & _).
  split; [|exact Hverified].
  exact (Hbelow ltac:(simpl; lia)).
Defined.

(** C4 as stated fails: with a limit of 100 bytes and nothing sent, the
    budget is a whole packet of 1252 bytes, and one round of the write loop
    sends a packet of that size while the limit is still in place. *)
Lemma unvalidated_client_exceeds_limit :
  writableBytesLimit sampleUnvalidatedConn = Some 100
  /\ totalBytesSent (lossState sampleUnvalidatedConn) = 0
  /\ congestionControlWritableBytes sampleUnvalidatedConn
     = Returned 1252 sampleUnvalidatedConn
  /\ let st :=
       finalState
         (writeConnectionDataToSocket sampleEncryptionLevel 4
            sampleShortHeaderBuilder PacketNumberSpace.AppData
            congestionControlWritableBytes 5 16 0
            (mkWriteState sampleUnvalidatedConn [[PingFrame]] (0, true)))
         (mkWriteState sampleConn [] (0, true)) in
     writableBytesLimit (connection st) = Some 100
     /\ totalBytesSent (lossState (connection st)) = 1252
     /\ ~ totalBytesSent (lossState (connection st)) <= 100.
Proof.
  split; [reflexivity|]. split; [reflexivity|]. split; [reflexivity|].
  cbv zeta. split; [reflexivity|]. split; [reflexivity|].
  vm_compute. congruence.
Qed.

(** ** Decoding frames *)

Lemma length_bytesBE n x : length (bytesBE n x) = n.
Proof. induction n as [|n IH]; simpl; [reflexivity|now rewrite IH]. Qed.

Lemma fold_left_fromBE l a :
  fold_left (fun acc b => acc * 256 + b) l a
  = a * 256 ^ Z.of_nat (length l) + fromBE l.
Proof.
  unfold fromBE. revert a.
  induction l as [|b l IH]; intros a.
  - simpl. lia.
  - cbn [fold_left length]. rewrite IH, (IH (0 * 256 + b)).
    rewrite Nat2Z.inj_succ, Z.pow_succ_r by lia. lia.
Qed.

Lemma fromBE_bytesBE n x : fromBE (bytesBE n x) = x mod 256 ^ Z.of_nat n.
Proof.
  induction n as [|n IH].
  - simpl. now rewrite Z.mod_1_r.
  - cbn [bytesBE]. unfold fromBE. cbn [fold_left].
    rewrite fold_left_fromBE, length_bytesBE, IH.
    rewrite Nat2Z.inj_succ, Z.pow_succ_r by lia.
    rewrite (Z.mul_comm 256), Z.rem_mul_r by lia. lia.
Qed.

Ltac literal_sizes n :=
  let z := eval vm_compute in (Z.of_nat n) in
  let b := eval vm_compute in (8 * Z.of_nat n - 2) in
  let p := eval vm_compute in (Z.of_nat (Nat.pred n)) in
  change (8 * Z.of_nat n - 2) with b in *;
  change (Z.of_nat (Nat.pred n)) with p in *;
  change (Z.of_nat n) with z in *.

Ltac each_length_class H :=
  destruct H as [[-> ->]|[[-> ->]|[[-> ->]|[-> ->]]]];
  [literal_sizes 1%nat|literal_sizes 2%nat|literal_sizes 4%nat
  |literal_sizes 8%nat].

Lemma QuicInteger_decode_bytesBE (c : Z) (n : nat) (v : Z) (rest : list Z) :
  (c = 0 /\ n = 1%nat \/ c = 1 /\ n = 2%nat \/ c = 2 /\ n = 4%nat
   \/ c = 3 /\ n = 8%nat) ->
  0 <= v < 2 ^ (8 * Z.of_nat n - 2) ->
  QuicInteger.decode (bytesBE n (c * 2 ^ (8 * Z.of_nat n - 2) + v) ++ rest)
  = Some (v, rest).
Proof.
  intros Hc Hv.
  assert (Hn : n = Z.to_nat (2 ^ c))
    by (destruct Hc as [[-> ->]|[[-> ->]|[[-> ->]|[-> ->]]]]; reflexivity).
  assert (Hx : 0 <= c * 2 ^ (8 * Z.of_nat n - 2) + v < 256 ^ Z.of_nat n)
    by (each_length_class Hc; Z.div_mod_to_equations; lia).
  assert (Hhead :
    ((c * 2 ^ (8 * Z.of_nat n - 2) + v) / 256 ^ Z.of_nat (Nat.pred n))
      mod 256 / 64 = c)
    by (each_length_class Hc; Z.div_mod_to_equations; lia).
  assert (Hmod : (c * 2 ^ (8 * Z.of_nat n - 2) + v)
                   mod 2 ^ (8 * Z.of_nat n - 2) = v)
    by (each_length_class Hc; Z.div_mod_to_equations; lia).
  assert (Hpos : (1 <= n)%nat)
    by (destruct Hc as [[_ ?]|[[_ ?]|[[_ ?]|[_ ?]]]]; lia).
  set (x := c * 2 ^ (8 * Z.of_nat n - 2) + v) in *.
  clearbody x.
  destruct n as [|n']; [lia|].
  cbn [bytesBE app QuicInteger.decode].
  cbn [Nat.pred] in Hhead. rewrite Hhead, <- Hn.
  change ((x / 256 ^ Z.of_nat n') mod 256 :: bytesBE n' x ++ rest)
    with (bytesBE (S n') x ++ rest).
  replace (length (bytesBE (S n') x ++ rest) <? S n')%nat with false.
  2:{ symmetry. apply Nat.ltb_ge.
      rewrite length_app, length_bytesBE. lia. }
  assert (Htake : take (S n') (bytesBE (S n') x ++ rest) = bytesBE (S n') x)
    by (rewrite <- (length_bytesBE (S n') x) at 1; apply take_app_length).
  assert (Hdrop : drop (S n') (bytesBE (S n') x ++ rest) = rest)
    by (rewrite <- (length_bytesBE (S n') x) at 1; apply drop_app_length).
  rewrite Htake, Hdrop, fromBE_bytesBE, (Z.mod_small x) by lia.
  now rewrite Hmod.
Qed.

Lemma QuicInteger_roundtrip (v : Z) (rest : list Z) :
  0 <= v < 2 ^ 62 ->
  QuicInteger.decode (DecodeTest.encode v ++ rest) = Some (v, rest).
Proof.
  intros Hv. unfold DecodeTest.encode, QuicInteger.encode.
  destruct (v <? 0) eqn:H0; [lia|].
  destruct (v <? 2 ^ 6) eqn:H6.
  { apply (QuicInteger_decode_bytesBE 0 1 v rest); [tauto|]. cbn. lia. }
  destruct (v <? 2 ^ 14) eqn:H14.
  { apply (QuicInteger_decode_bytesBE 1 2 v rest); [tauto|]. cbn. lia. }
  destruct (v <? 2 ^ 30) eqn:H30.
  { apply (QuicInteger_decode_bytesBE 2 4 v rest); [tauto|]. cbn. lia. }
  destruct (v <? 2 ^ 62) eqn:H62; [|lia].
  apply (QuicInteger_decode_bytesBE 3 8 v rest); [tauto|]. cbn. lia.
Qed.

Lemma decodeQuicInteger_encode (v : Z) (rest : list Z) :
  0 <= v < 2 ^ 62 ->
  Decode.decodeQuicInteger (DecodeTest.encode v ++ rest) = Returned v rest.
Proof.
  intros Hv. unfold Decode.decodeQuicInteger, bind, get.
  now rewrite QuicInteger_roundtrip.
Qed.

(** When the pair fits below the block before, the next block is the one
    the pair describes and decoding goes on from its start. *)
Lemma decodeAckBlocks_next_block (n : nat) (prevStart gap blockLen : Z)
    (rest : list Z) :
  0 <= gap < 2 ^ 62 -> 0 <= blockLen < 2 ^ 62 ->
  gap + 2 <= prevStart -> blockLen <= prevStart - gap - 2 ->
  Decode.decodeAckBlocks (S n) prevStart
    (DecodeTest.encode gap ++ DecodeTest.encode blockLen ++ rest)
  = (blocks <-- Decode.decodeAckBlocks n (prevStart - gap - 2 - blockLen) ;;
     ret (mkAckBlock (prevStart - gap - 2 - blockLen) (prevStart - gap - 2)
            :: blocks)) rest.
Proof.
  intros Hgap Hlen Hend Hstart. cbn [Decode.decodeAckBlocks].
  unfold bind at 1. rewrite decodeQuicInteger_encode by assumption.
  unfold bind at 1. rewrite decodeQuicInteger_encode by assumption.
  replace (prevStart <? gap + 2) with false by (symmetry; apply Z.ltb_ge; lia).
  replace (prevStart - gap - 2 <? blockLen) with false
    by (symmetry; apply Z.ltb_ge; lia).
  reflexivity.
Qed.

(** Modelled from the spec: C1, for the ACK frame decoder, which is not
    among the sources; the frame is the one the test
    [AckFrameBlockLengthZero] builds.  Decoding the ACK frame with largest acked 1000, ack delay 100,
    3 additional blocks, first block length 10 and the pairs (10,10),
    (10,0), (0,10) under the ack-delay exponent 3 succeeds, consumes the
    frame, gives an ack delay of 800 microseconds and exactly the blocks
    [990,1000], [968,978], [956,956], [944,954] in this order; each block
    after the first ends at the start of the one before less the gap less
    2, and the pair of length 0 gives the single packet 956. *)
Theorem decodeAckFrame_three_additional_blocks :
  DecodeTest.ackFrameBlockLengthZero
  = DecodeTest.createAckFrame (Some 1000) (Some 100) (Some 3) (Some 10)
      [(10, 10); (10, 0); (0, 10)] false false false 8
  /\ Decode.decodeAckFrame 3 DecodeTest.ackFrameBlockLengthZero
     = Returned
         (mkReadAckFrame 1000 800
            [mkAckBlock 990 1000; mkAckBlock 968 978; mkAckBlock 956 956;
             mkAckBlock 944 954])
         []
  /\ followsGaps 990 [(10, 10); (10, 0); (0, 10)]
       [mkAckBlock 968 978; mkAckBlock 956 956; mkAckBlock 944 954].
Proof.
  split; [reflexivity|]. split; [vm_compute; reflexivity|].
  simpl. repeat split.
Qed.

(** Modelled from the spec: C6, for the frame decoder, which is not among
    the sources; the frames are those [createRstStreamFrame] of the decoder
    tests writes.  A RESET_STREAM_AT frame whose reliable size exceeds its
    final size is refused with [FRAME_ENCODING_ERROR]; one whose reliable
    size is at most its final size decodes, consuming the frame, to the
    reset-stream frame with the stream id, error code, final size and
    reliable size that were encoded. *)
Theorem parse_reset_stream_at
    (ackDelayExponent streamId errorCode finalSize reliableSize : Z) :
  0 <= streamId < 2 ^ 62 -> 0 <= errorCode < 2 ^ 62 ->
  0 <= finalSize < 2 ^ 62 -> 0 <= reliableSize < 2 ^ 62 ->
  (finalSize < reliableSize ->
   Decode.parseFrame ackDelayExponent
     (DecodeTest.createRstStreamFrame streamId errorCode finalSize
        (Some reliableSize))
   = Thrown FRAME_ENCODING_ERROR [])
  /\ (reliableSize <= finalSize ->
      Decode.parseFrame ackDelayExponent
        (DecodeTest.createRstStreamFrame streamId errorCode finalSize
           (Some reliableSize))
      = Returned
          (RstStreamFrame_
             (RstStreamFrame.mk streamId errorCode finalSize
                (Some reliableSize)))
          []).
Proof.
  intros Hid Hcode Hfinal Hreliable.
  assert (Hparse :
    Decode.parseFrame ackDelayExponent
      (DecodeTest.createRstStreamFrame streamId errorCode finalSize
         (Some reliableSize))
    = if finalSize <? reliableSize then Thrown FRAME_ENCODING_ERROR []
      else Returned
             (RstStreamFrame_
                (RstStreamFrame.mk streamId errorCode finalSize
                   (Some reliableSize)))
             []).
  { unfold Decode.parseFrame, DecodeTest.createRstStreamFrame,
      DecodeTest.encodeOpt.
    unfold bind at 1.
    rewrite decodeQuicInteger_encode by (unfold FrameType.RST_STREAM_AT; lia).
    change (FrameType.RST_STREAM_AT =? FrameType.ACK) with false.
    change (FrameType.RST_STREAM_AT =? FrameType.RST_STREAM) with false.
    change (FrameType.RST_STREAM_AT =? FrameType.RST_STREAM_AT) with true.
    cbv iota. unfold Decode.decodeRstStreamFrame.
    unfold bind at 1. unfold bind at 1.
    rewrite decodeQuicInteger_encode by assumption.
    unfold bind at 1. rewrite decodeQuicInteger_encode by assumption.
    unfold bind at 1. rewrite decodeQuicInteger_encode by assumption.
    unfold bind at 1.
    rewrite <- (app_nil_r (DecodeTest.encode reliableSize)).
    rewrite decodeQuicInteger_encode by assumption.
    destruct (finalSize <? reliableSize); reflexivity. }
  rewrite Hparse. split; intros Hcmp.
  - replace (finalSize <? reliableSize) with true
      by (symmetry; apply Z.ltb_lt; lia).
    reflexivity.
  - replace (finalSize <? reliableSize) with false
      by (symmetry; apply Z.ltb_ge; lia).
    reflexivity.
Qed.

Lemma parse_reset_stream_at_witness :
  Decode.parseFrame DecodeTest.kDefaultAckDelayExponent
    (DecodeTest.createRstStreamFrame 0 0 10 (Some 11))
  = Thrown FRAME_ENCODING_ERROR []
  /\ Decode.parseFrame DecodeTest.kDefaultAckDelayExponent
       (DecodeTest.createRstStreamFrame 0 0 10 (Some 9))
     = Returned (RstStreamFrame_ (RstStreamFrame.mk 0 0 10 (Some 9))) [].
Proof.
  split.
  - apply (parse_reset_stream_at DecodeTest.kDefaultAckDelayExponent
             0 0 10 11); lia.
  - apply (parse_reset_stream_at DecodeTest.kDefaultAckDelayExponent
             0 0 10 9); lia.
Defined.

(** * Further properties *)

(** ** Splitting a buffer meta *)

(** X1: [WriteBufferMeta::split] aborts when more than the whole buffer is
    asked for; otherwise it cuts the buffer at [splitLen]: the head covers
    the first [splitLen] bytes from the same offset, the rest starts where
    the head ends, the head carries the end-of-stream flag only when it
    takes everything, and appending the rest to the head gives the
    buffer back. *)
Theorem WriteBufferMeta_split_parts (m : WBM) (splitLen : Z) :
  segValid m -> 0 <= splitLen ->
  (WriteBufferMeta.length m < splitLen ->
   WriteBufferMeta.split splitLen m = None)
  /\ (splitLen <= WriteBufferMeta.length m ->
      exists head rest,
        WriteBufferMeta.split splitLen m = Some (head, rest)
        /\ WriteBufferMeta.offset head = WriteBufferMeta.offset m
        /\ WriteBufferMeta.length head = splitLen
        /\ WriteBufferMeta.offset rest = WriteBufferMeta.offset m + splitLen
        /\ WriteBufferMeta.length rest = WriteBufferMeta.length m - splitLen
        /\ WriteBufferMeta.eof head
           = (splitLen =? WriteBufferMeta.length m) && WriteBufferMeta.eof m
        /\ WriteBufferMeta.eof rest = WriteBufferMeta.eof m
        /\ segAppend head rest = m).
Proof.
  intros (Hoff & Hlen & Hend) Hsplit.
  unfold segEnd in Hend. simpl in Hoff, Hlen, Hend.
  unfold WriteBufferMeta.split. split.
  - intros Hlt.
    replace (WriteBufferMeta.length m <? splitLen) with true
      by (symmetry; apply Z.ltb_lt; lia).
    reflexivity.
  - intros Hle.
    replace (WriteBufferMeta.length m <? splitLen) with false
      by (symmetry; apply Z.ltb_ge; lia).
    eexists _, _. split; [reflexivity|]. simpl.
    rewrite !wrap64_small by lia.
    repeat split; try reflexivity.
    destruct m as [len off e]. simpl in *. f_equal. lia.
Qed.

Lemma WriteBufferMeta_split_parts_witness :
  WriteBufferMeta.split 2 lostMetaAt10
  = Some (WriteBufferMeta.mk 2 10 false, WriteBufferMeta.mk 3 12 false)
  /\ WriteBufferMeta.split 6 lostMetaAt10 = None.
Proof.
  assert (Hv : segValid lostMetaAt10) by (vm_compute; repeat split; congruence).
  destruct (WriteBufferMeta_split_parts lostMetaAt10 2 Hv ltac:(lia))
    as [_ Hin].
  destruct (WriteBufferMeta_split_parts lostMetaAt10 6 Hv ltac:(lia))
    as [Hout _].
  split; [|apply Hout; simpl; lia].
  destruct (Hin ltac:(simpl; lia)) as (head & rest & Hsplit & _).
  rewrite Hsplit. vm_compute in Hsplit. inversion Hsplit. reflexivity.
Defined.

(** ** Dropping what lies at or beyond an offset *)

Lemma sortedDisjoint_snoc {A} `{Segment A} (l : list A) (e : A) :
  sortedDisjoint (l ++ [e]) ->
  sortedDisjoint l /\ Forall (fun a => segBefore a e) l.
Proof.
  unfold sortedDisjoint. intros Hs.
  destruct (proj1 (StronglySorted_app _ _ _) Hs) as (Hle & Hl & _).
  split; [exact Hl|]. apply Forall_forall. intros a Ha.
  apply Hle; [exact Ha|]. apply list_elem_of_singleton. reflexivity.
Qed.

(** What is left of a lost segment in front of [startingOffset]. *)
Lemma removeFromLossBufStartingAtOffset_loop_spec (startingOffset : Z)
    (l : list WSB) :
  0 <= startingOffset < 2 ^ 64 ->
  Forall segValid l -> sortedDisjoint l ->
  rev (removeFromLossBufStartingAtOffset_loop startingOffset (rev l))
  = (fun e =>
       WriteStreamBuffer.mk
         (take (Z.to_nat (startingOffset - WriteStreamBuffer.offset e))
            (WriteStreamBuffer.data e))
         (WriteStreamBuffer.offset e) (WriteStreamBuffer.eof e))
    <$> filter (fun e => WriteStreamBuffer.offset e < startingOffset) l.
Proof.
  intros Hstart. induction l as [|e l IH] using List.rev_ind; intros Hv Hs.
  - reflexivity.
  - rewrite Forall_app in Hv. destruct Hv as [Hvl Hve].
    rewrite Forall_singleton in Hve.
    apply sortedDisjoint_snoc in Hs. destruct Hs as [Hsl Hbefore].
    rewrite rev_unit. cbn [removeFromLossBufStartingAtOffset_loop].
    rewrite filter_app.
    destruct Hve as (Hoff & Hlen & Hend). unfold segEnd in Hend.
    simpl in Hoff, Hlen, Hend.
    destruct (startingOffset <=? WriteStreamBuffer.offset e) eqn:Epop.
    + apply Z.leb_le in Epop. rewrite IH by assumption.
      rewrite filter_cons_False by (simpl; lia).
      rewrite filter_nil, app_nil_r. reflexivity.
    + apply Z.leb_gt in Epop.
      rewrite filter_cons_True by (simpl; lia). rewrite filter_nil.
      assert (Hkeep :
        filter (fun e0 => WriteStreamBuffer.offset e0 < startingOffset) l = l).
      { clear IH Hvl Hsl. induction Hbefore as [|a l Ha _ IHl];
          [reflexivity|].
        destruct Ha as [_ Ha]. simpl in Ha.
        rewrite filter_cons_True by (simpl; lia). now rewrite IHl. }
      rewrite Hkeep, fmap_app.
      assert (Hid :
        (fun e0 =>
           WriteStreamBuffer.mk
             (take (Z.to_nat (startingOffset - WriteStreamBuffer.offset e0))
                (WriteStreamBuffer.data e0))
             (WriteStreamBuffer.offset e0) (WriteStreamBuffer.eof e0))
        <$> l = l).
      { clear IH Hsl Hkeep. induction Hbefore as [|a l Ha _ IHl];
          [reflexivity|].
        rewrite Forall_cons in Hvl. destruct Hvl as [Hva Hvl].
        rewrite fmap_cons, IHl by assumption.
        destruct Ha as [Ha _]. unfold segEnd in Ha. simpl in Ha.
        destruct Hva as (? & ? & _). simpl in *.
        destruct a as [d o f]. simpl in *.
        rewrite take_ge by (unfold chainLength in *; lia). reflexivity. }
      rewrite Hid. rewrite wrap64_small by lia.
      destruct (startingOffset
                <=? WriteStreamBuffer.offset e
                    + chainLength (WriteStreamBuffer.data e)) eqn:Ecut.
      * cbn [rev]. rewrite rev_involutive. unfold splitAtMost. simpl.
        rewrite wrap64_small by lia. reflexivity.
      * apply Z.leb_gt in Ecut. cbn [rev]. rewrite rev_involutive.
        destruct e as [d o f]. simpl in *.
        rewrite take_ge by (unfold chainLength in *; lia). reflexivity.
Qed.

(** X2: on a loss buffer that is sorted and disjoint,
    [removeFromLossBufStartingAtOffset] keeps exactly the entries that
    start in front of [startingOffset], each cut down to its bytes in front
    of [startingOffset] with its offset and end-of-stream flag as they
    were; nothing that is left reaches beyond [startingOffset], and the
    rest of the stream is untouched. *)
Theorem removeFromLossBufStartingAtOffset_keeps_front (startingOffset : Z)
    (s : QuicStreamLike) :
  0 <= startingOffset < 2 ^ 64 ->
  Forall segValid (lossBuffer s) -> sortedDisjoint (lossBuffer s) ->
  removeFromLossBufStartingAtOffset startingOffset s
  = set_lossBuffer
      ((fun e =>
          WriteStreamBuffer.mk
            (take (Z.to_nat (startingOffset - WriteStreamBuffer.offset e))
               (WriteStreamBuffer.data e))
            (WriteStreamBuffer.offset e) (WriteStreamBuffer.eof e))
       <$> filter (fun e => WriteStreamBuffer.offset e < startingOffset)
             (lossBuffer s)) s
  /\ Forall (fun e => segOffset e < startingOffset
                      /\ segEnd e <= startingOffset)
       (lossBuffer (removeFromLossBufStartingAtOffset startingOffset s)).
Proof.
  intros Hstart Hv Hs.
  assert (Heq : removeFromLossBufStartingAtOffset startingOffset s
                = set_lossBuffer
                    ((fun e =>
                        WriteStreamBuffer.mk
                          (take (Z.to_nat (startingOffset
                                           - WriteStreamBuffer.offset e))
                             (WriteStreamBuffer.data e))
                          (WriteStreamBuffer.offset e)
                          (WriteStreamBuffer.eof e))
                     <$> filter
                           (fun e =>
                              WriteStreamBuffer.offset e < startingOffset)
                           (lossBuffer s)) s).
  { unfold removeFromLossBufStartingAtOffset.
    now rewrite removeFromLossBufStartingAtOffset_loop_spec. }
  split; [exact Heq|]. rewrite Heq. simpl.
  apply Forall_fmap, Forall_forall. intros e He.
  apply list_elem_of_filter in He. destruct He as [Hlt He].
  rewrite Forall_forall in Hv. destruct (Hv e He) as (Hoff & _ & _).
  unfold segEnd. simpl in *. split; [exact Hlt|].
  unfold chainLength. rewrite length_take. lia.
Qed.

Lemma sample_losses_sorted :
  Forall segValid [lostAt5; lostAt10; lostAt15]
  /\ sortedDisjoint [lostAt5; lostAt10; lostAt15].
Proof.
  split.
  - repeat constructor; vm_compute; congruence.
  - repeat constructor; vm_compute; congruence.
Qed.

Lemma removeFromLossBufStartingAtOffset_keeps_front_witness :
  lossBuffer (removeFromLossBufStartingAtOffset 12 streamWithThreeLosses)
  = [lostAt5; WriteStreamBuffer.mk [x01; x02] 10 false].
Proof.
  destruct sample_losses_sorted as [Hv Hs].
  destruct (removeFromLossBufStartingAtOffset_keeps_front 12
              streamWithThreeLosses ltac:(lia) Hv Hs) as [Heq _].
  rewrite Heq. vm_compute. reflexivity.
Defined.

Lemma removeFromLossBufMetasStartingAtOffset_loop_spec (startingOffset : Z)
    (l : list WBM) :
  0 <= startingOffset < 2 ^ 64 ->
  Forall segValid l -> sortedDisjoint l ->
  Forall (fun m => WriteBufferMeta.length m < 2 ^ 32) l ->
  rev (removeFromLossBufMetasStartingAtOffset_loop startingOffset (rev l))
  = (fun m =>
       WriteBufferMeta.mk
         (Z.min (WriteBufferMeta.length m)
            (startingOffset - WriteBufferMeta.offset m))
         (WriteBufferMeta.offset m) (WriteBufferMeta.eof m))
    <$> filter (fun m => WriteBufferMeta.offset m < startingOffset) l.
Proof.
  intros Hstart.
  induction l as [|e l IH] using List.rev_ind; intros Hv Hs H32.
  - reflexivity.
  - rewrite Forall_app in Hv. destruct Hv as [Hvl Hve].
    rewrite Forall_singleton in Hve.
    rewrite Forall_app in H32. destruct H32 as [H32l H32e].
    rewrite Forall_singleton in H32e.
    apply sortedDisjoint_snoc in Hs. destruct Hs as [Hsl Hbefore].
    rewrite rev_unit. cbn [removeFromLossBufMetasStartingAtOffset_loop].
    rewrite filter_app.
    destruct Hve as (Hoff & Hlen & Hend). unfold segEnd in Hend.
    simpl in Hoff, Hlen, Hend.
    destruct (startingOffset <=? WriteBufferMeta.offset e) eqn:Epop.
    + apply Z.leb_le in Epop. rewrite IH by assumption.
      rewrite filter_cons_False by (simpl; lia).
      rewrite filter_nil, app_nil_r. reflexivity.
    + apply Z.leb_gt in Epop.
      rewrite filter_cons_True by (simpl; lia). rewrite filter_nil.
      assert (Hkeep :
        filter (fun m => WriteBufferMeta.offset m < startingOffset) l = l).
      { clear IH Hvl Hsl H32l. induction Hbefore as [|a l Ha _ IHl];
          [reflexivity|].
        destruct Ha as [_ Ha]. simpl in Ha.
        rewrite filter_cons_True by (simpl; lia). now rewrite IHl. }
      rewrite Hkeep, fmap_app.
      assert (Hid :
        (fun m =>
           WriteBufferMeta.mk
             (Z.min (WriteBufferMeta.length m)
                (startingOffset - WriteBufferMeta.offset m))
             (WriteBufferMeta.offset m) (WriteBufferMeta.eof m))
        <$> l = l).
      { clear IH Hsl Hkeep H32l. induction Hbefore as [|a l Ha _ IHl];
          [reflexivity|].
        rewrite Forall_cons in Hvl. destruct Hvl as [Hva Hvl].
        rewrite fmap_cons, IHl by assumption.
        destruct Ha as [Ha _]. unfold segEnd in Ha. simpl in Ha.
        destruct Hva as (? & ? & _). simpl in *.
        destruct a as [len o f]. simpl in *.
        rewrite Z.min_l by lia. reflexivity. }
      rewrite Hid. rewrite wrap64_small by lia.
      destruct (startingOffset
                <=? WriteBufferMeta.offset e + WriteBufferMeta.length e)
        eqn:Ecut.
      * apply Z.leb_le in Ecut. cbn [rev]. rewrite rev_involutive. simpl.
        rewrite wrap64_small by lia. unfold wrap32.
        rewrite Z.mod_small by lia. rewrite Z.min_r by lia. reflexivity.
      * apply Z.leb_gt in Ecut. cbn [rev]. rewrite rev_involutive.
        destruct e as [len o f]. simpl in *.
        rewrite Z.min_l by lia. reflexivity.
Qed.

(** X3: on buffer metas that are sorted and disjoint, each shorter than
    2^32 bytes, [removeFromLossBufMetasStartingAtOffset] keeps exactly the
    entries that start in front of [startingOffset], each cut down to what
    it has in front of [startingOffset]; nothing that is left reaches
    beyond [startingOffset]. *)
Theorem removeFromLossBufMetasStartingAtOffset_keeps_front
    (startingOffset : Z) (s : QuicStreamState) :
  0 <= startingOffset < 2 ^ 64 ->
  Forall segValid (lossBufMetas s) -> sortedDisjoint (lossBufMetas s) ->
  Forall (fun m => WriteBufferMeta.length m < 2 ^ 32) (lossBufMetas s) ->
  removeFromLossBufMetasStartingAtOffset startingOffset s
  = set_lossBufMetas
      ((fun m =>
          WriteBufferMeta.mk
            (Z.min (WriteBufferMeta.length m)
               (startingOffset - WriteBufferMeta.offset m))
            (WriteBufferMeta.offset m) (WriteBufferMeta.eof m))
       <$> filter (fun m => WriteBufferMeta.offset m < startingOffset)
             (lossBufMetas s)) s
  /\ Forall (fun m => segOffset m < startingOffset
                      /\ segEnd m <= startingOffset)
       (lossBufMetas (removeFromLossBufMetasStartingAtOffset startingOffset
                        s)).
Proof.
  intros Hstart Hv Hs H32.
  assert (Heq : removeFromLossBufMetasStartingAtOffset startingOffset s
                = set_lossBufMetas
                    ((fun m =>
                        WriteBufferMeta.mk
                          (Z.min (WriteBufferMeta.length m)
                             (startingOffset - WriteBufferMeta.offset m))
                          (WriteBufferMeta.offset m)
                          (WriteBufferMeta.eof m))
                     <$> filter
                           (fun m =>
                              WriteBufferMeta.offset m < startingOffset)
                           (lossBufMetas s)) s).
  { unfold removeFromLossBufMetasStartingAtOffset.
    now rewrite removeFromLossBufMetasStartingAtOffset_loop_spec. }
  split; [exact Heq|]. rewrite Heq. simpl.
  apply Forall_fmap, Forall_forall. intros e He.
  apply list_elem_of_filter in He. destruct He as [Hlt He].
  unfold segEnd. simpl in *. split; [exact Hlt|]. lia.
Qed.

Lemma sample_lost_metas_sorted :
  Forall segValid [lostMetaAt5; lostMetaAt10; lostMetaAt15]
  /\ sortedDisjoint [lostMetaAt5; lostMetaAt10; lostMetaAt15]
  /\ Forall (fun m => WriteBufferMeta.length m < 2 ^ 32)
       [lostMetaAt5; lostMetaAt10; lostMetaAt15].
Proof.
  split; [|split].
  - repeat constructor; vm_compute; congruence.
  - repeat constructor; vm_compute; congruence.
  - repeat constructor.
Qed.

Lemma removeFromLossBufMetasStartingAtOffset_keeps_front_witness :
  lossBufMetas
    (removeFromLossBufMetasStartingAtOffset 12 streamWithThreeLostMetas)
  = [lostMetaAt5; WriteBufferMeta.mk 2 10 false].
Proof.
  destruct sample_lost_metas_sorted as (Hv & Hs & H32).
  destruct (removeFromLossBufMetasStartingAtOffset_keeps_front 12
              streamWithThreeLostMetas ltac:(lia) Hv Hs H32) as [Heq _].
  rewrite Heq. vm_compute. reflexivity.
Defined.

(** Erasing a set of keys one by one. *)
Lemma lookup_set_fold_delete {V} (m : gmap Z V) (X : gset Z) (k : Z) :
  set_fold (fun offset m => delete offset m) m X !! k
  = if decide (k ∈ X) then None else m !! k.
Proof.
  refine (set_fold_ind_L
            (fun (r : gmap Z V) (Y : gset Z) =>
               r !! k = if decide (k ∈ Y) then None else m !! k)
            (fun offset m => delete offset m) m _ _ X).
  - destruct (decide (k ∈ (∅ : gset Z))) as [Hin|_]; [|reflexivity].
    now apply not_elem_of_empty in Hin.
  - intros x Y r Hx IH.
    destruct (decide (x = k)) as [->|Hne].
    + rewrite lookup_delete_eq.
      destruct (decide (k ∈ {[k]} ∪ Y)) as [_|Hn]; [reflexivity|].
      exfalso. apply Hn. apply elem_of_union. left.
      now apply elem_of_singleton.
    + rewrite lookup_delete_ne by assumption. rewrite IH.
      destruct (decide (k ∈ Y)) as [Hin|Hnin];
        destruct (decide (k ∈ {[x]} ∪ Y)) as [Hin'|Hnin'];
        try reflexivity; exfalso.
      * apply Hnin'. apply elem_of_union. now right.
      * apply elem_of_union in Hin'. destruct Hin' as [Hin'|Hin'].
        -- apply elem_of_singleton in Hin'. congruence.
        -- contradiction.
Qed.

Lemma elem_of_dom_filter_key {V} (m : gmap Z V) (startingOffset k : Z) :
  k ∈ dom (filter (fun kv : Z * V => startingOffset <= kv.1) m)
  <-> is_Some (m !! k) /\ startingOffset <= k.
Proof.
  rewrite elem_of_dom. unfold is_Some. split.
  - intros [v Hv]. apply map_lookup_filter_Some in Hv.
    destruct Hv as [Hv Hk]. split; [eauto|exact Hk].
  - intros [[v Hv] Hk]. exists v. apply map_lookup_filter_Some.
    split; assumption.
Qed.

(** X4: [removeFromRetransmissionBufStartingAtOffset] erases every sent
    buffer keyed at or beyond [startingOffset] and cuts every other one
    down to its bytes in front of [startingOffset], leaving its own offset
    and end-of-stream flag alone; what is left ends at or in front of
    [startingOffset]. *)
Theorem removeFromRetransmissionBufStartingAtOffset_lookup
    (startingOffset : Z) (s : QuicStreamLike) :
  0 <= startingOffset < 2 ^ 64 ->
  (forall k buf, retransmissionBuffer s !! k = Some buf ->
     0 <= k /\ k + chainLength (WriteStreamBuffer.data buf) < 2 ^ 64) ->
  (forall k,
      retransmissionBuffer
        (removeFromRetransmissionBufStartingAtOffset startingOffset s) !! k
      = if startingOffset <=? k then None
        else
          (fun buf =>
             WriteStreamBuffer.mk
               (take (Z.to_nat (startingOffset - k))
                  (WriteStreamBuffer.data buf))
               (WriteStreamBuffer.offset buf) (WriteStreamBuffer.eof buf))
          <$> retransmissionBuffer s !! k)
  /\ (forall k buf,
        retransmissionBuffer
          (removeFromRetransmissionBufStartingAtOffset startingOffset s) !! k
        = Some buf ->
        k + chainLength (WriteStreamBuffer.data buf) <= startingOffset).
Proof.
  intros Hstart Hvalid.
  assert (Hlookup : forall k,
    retransmissionBuffer
      (removeFromRetransmissionBufStartingAtOffset startingOffset s) !! k
    = if startingOffset <=? k then None
      else
        (fun buf =>
           WriteStreamBuffer.mk
             (take (Z.to_nat (startingOffset - k))
                (WriteStreamBuffer.data buf))
             (WriteStreamBuffer.offset buf) (WriteStreamBuffer.eof buf))
        <$> retransmissionBuffer s !! k).
  { intros k. unfold removeFromRetransmissionBufStartingAtOffset.
    cbn [retransmissionBuffer set_retransmissionBuffer].
    rewrite lookup_set_fold_delete, map_lookup_imap.
    destruct (decide _) as [Hin|Hnin].
    - apply elem_of_dom_filter_key in Hin. destruct Hin as [_ Hk].
      replace (startingOffset <=? k) with true
        by (symmetry; now apply Z.leb_le).
      reflexivity.
    - destruct (retransmissionBuffer s !! k) as [buf|] eqn:Hbuf; simpl.
      + destruct (Hvalid k buf Hbuf) as [Hk Hend].
        destruct (startingOffset <=? k) eqn:Ek.
        * exfalso. apply Hnin. apply elem_of_dom_filter_key.
          split; [eauto|now apply Z.leb_le].
        * apply Z.leb_gt in Ek.
          rewrite (wrap64_small (k + _))
            by (unfold chainLength in *; lia).
          destruct (startingOffset
                    <=? k + chainLength (WriteStreamBuffer.data buf)) eqn:Ec.
          -- unfold splitAtMost. simpl. rewrite wrap64_small by lia.
             reflexivity.
          -- apply Z.leb_gt in Ec. destruct buf as [d o f]. simpl in *.
             rewrite take_ge by (unfold chainLength in *; lia).
             reflexivity.
      + destruct (startingOffset <=? k); reflexivity. }
  split; [exact Hlookup|].
  intros k buf Hbuf. rewrite Hlookup in Hbuf.
  destruct (startingOffset <=? k) eqn:Ek; [discriminate|].
  apply Z.leb_gt in Ek.
  destruct (retransmissionBuffer s !! k) as [old|] eqn:Hold;
    [|discriminate].
  simpl in Hbuf. inversion Hbuf; subst buf. simpl.
  unfold chainLength. rewrite length_take. lia.
Qed.

Lemma removeFromRetransmissionBufStartingAtOffset_lookup_witness :
  retransmissionBuffer
    (removeFromRetransmissionBufStartingAtOffset 3 streamWithSentData) !! 0
  = Some (WriteStreamBuffer.mk [x01; x02; x03] 0 false)
  /\ retransmissionBuffer
       (removeFromRetransmissionBufStartingAtOffset 3 streamWithSentData)
       !! 10
     = None.
Proof.
  assert (Hvalid : forall k buf,
    retransmissionBuffer streamWithSentData !! k = Some buf ->
    0 <= k /\ k + chainLength (WriteStreamBuffer.data buf) < 2 ^ 64).
  { intros k buf Hbuf. unfold streamWithSentData in Hbuf. simpl in Hbuf.
    apply lookup_insert_Some in Hbuf.
    destruct Hbuf as [[<- <-]|[_ Hbuf]]; [vm_compute; split; congruence|].
    apply lookup_insert_Some in Hbuf.
    destruct Hbuf as [[<- <-]|[_ Hbuf]]; [vm_compute; split; congruence|].
    rewrite lookup_empty in Hbuf. discriminate. }
  destruct (removeFromRetransmissionBufStartingAtOffset_lookup 3
              streamWithSentData ltac:(lia) Hvalid) as [Hlookup _].
  split; rewrite Hlookup; vm_compute; reflexivity.
Defined.

(** X5: [removeFromRetransmissionBufMetasStartingAtOffset] erases every
    sent buffer meta keyed at or beyond [startingOffset] and shortens every
    other one to what it has in front of [startingOffset]. *)
Theorem removeFromRetransmissionBufMetasStartingAtOffset_lookup
    (startingOffset : Z) (s : QuicStreamState) :
  0 <= startingOffset < 2 ^ 64 ->
  (forall k buf, retransmissionBufMetas s !! k = Some buf ->
     0 <= k /\ 0 <= WriteBufferMeta.length buf
     /\ k + WriteBufferMeta.length buf < 2 ^ 64) ->
  (forall k,
      retransmissionBufMetas
        (removeFromRetransmissionBufMetasStartingAtOffset startingOffset s)
        !! k
      = if startingOffset <=? k then None
        else
          (fun buf =>
             WriteBufferMeta.mk
               (Z.min (WriteBufferMeta.length buf) (startingOffset - k))
               (WriteBufferMeta.offset buf) (WriteBufferMeta.eof buf))
          <$> retransmissionBufMetas s !! k)
  /\ (forall k buf,
        retransmissionBufMetas
          (removeFromRetransmissionBufMetasStartingAtOffset startingOffset
             s) !! k
        = Some buf ->
        k + WriteBufferMeta.length buf <= startingOffset).
Proof.
  intros Hstart Hvalid.
  assert (Hlookup : forall k,
    retransmissionBufMetas
      (removeFromRetransmissionBufMetasStartingAtOffset startingOffset s)
      !! k
    = if startingOffset <=? k then None
      else
        (fun buf =>
           WriteBufferMeta.mk
             (Z.min (WriteBufferMeta.length buf) (startingOffset - k))
             (WriteBufferMeta.offset buf) (WriteBufferMeta.eof buf))
        <$> retransmissionBufMetas s !! k).
  { intros k. unfold removeFromRetransmissionBufMetasStartingAtOffset.
    cbn [retransmissionBufMetas set_retransmissionBufMetas].
    rewrite lookup_set_fold_delete, map_lookup_imap.
    destruct (decide _) as [Hin|Hnin].
    - apply elem_of_dom_filter_key in Hin. destruct Hin as [_ Hk].
      replace (startingOffset <=? k) with true
        by (symmetry; now apply Z.leb_le).
      reflexivity.
    - destruct (retransmissionBufMetas s !! k) as [buf|] eqn:Hbuf; simpl.
      + destruct (Hvalid k buf Hbuf) as (Hk & Hlen & Hend).
        destruct (startingOffset <=? k) eqn:Ek.
        * exfalso. apply Hnin. apply elem_of_dom_filter_key.
          split; [eauto|now apply Z.leb_le].
        * apply Z.leb_gt in Ek. rewrite (wrap64_small (k + _)) by lia.
          destruct (startingOffset <=? k + WriteBufferMeta.length buf)
            eqn:Ec.
          -- apply Z.leb_le in Ec. rewrite wrap64_small by lia.
             rewrite Z.min_r by lia. reflexivity.
          -- apply Z.leb_gt in Ec. destruct buf as [len o f]. simpl in *.
             rewrite Z.min_l by lia. reflexivity.
      + destruct (startingOffset <=? k); reflexivity. }
  split; [exact Hlookup|].
  intros k buf Hbuf. rewrite Hlookup in Hbuf.
  destruct (startingOffset <=? k) eqn:Ek; [discriminate|].
  apply Z.leb_gt in Ek.
  destruct (retransmissionBufMetas s !! k) as [old|] eqn:Hold;
    [|discriminate].
  simpl in Hbuf. inversion Hbuf; subst buf. simpl. lia.
Qed.

Lemma removeFromRetransmissionBufMetasStartingAtOffset_lookup_witness :
  retransmissionBufMetas
    (removeFromRetransmissionBufMetasStartingAtOffset 3 streamWithSentMetas)
    !! 0
  = Some (WriteBufferMeta.mk 3 0 false)
  /\ retransmissionBufMetas
       (removeFromRetransmissionBufMetasStartingAtOffset 3
          streamWithSentMetas) !! 10
     = None.
Proof.
  assert (Hvalid : forall k buf,
    retransmissionBufMetas streamWithSentMetas !! k = Some buf ->
    0 <= k /\ 0 <= WriteBufferMeta.length buf
    /\ k + WriteBufferMeta.length buf < 2 ^ 64).
  { intros k buf Hbuf. unfold streamWithSentMetas in Hbuf. simpl in Hbuf.
    apply lookup_insert_Some in Hbuf.
    destruct Hbuf as [[<- <-]|[_ Hbuf]];
      [vm_compute; repeat split; congruence|].
    apply lookup_insert_Some in Hbuf.
    destruct Hbuf as [[<- <-]|[_ Hbuf]];
      [vm_compute; repeat split; congruence|].
    rewrite lookup_empty in Hbuf. discriminate. }
  destruct (removeFromRetransmissionBufMetasStartingAtOffset_lookup 3
              streamWithSentMetas ltac:(lia) Hvalid) as [Hlookup _].
  split; rewrite Hlookup; vm_compute; reflexivity.
Defined.

Lemma drop_chainLength (d : ChainedByteRangeHead) :
  drop (Z.to_nat (chainLength d)) d = [].
Proof. unfold chainLength. rewrite Nat2Z.id. apply drop_all. Qed.

Lemma chainEmpty_nil (d : ChainedByteRangeHead) :
  chainEmpty d = true -> d = [].
Proof. destruct d; [reflexivity|discriminate]. Qed.

(** X6: [removeFromPendingWritesStartingAtOffset] leaves of the pending
    bytes exactly those in front of [startingOffset]: all of them when they
    end there or before, none when they start there or behind, and nothing
    else of the stream changes. *)
Theorem removeFromPendingWritesStartingAtOffset_keeps_front
    (startingOffset : Z) (s : QuicStreamLike) :
  0 <= startingOffset < 2 ^ 64 ->
  0 <= currentWriteOffset s ->
  currentWriteOffset s + chainLength (pendingWrites s) < 2 ^ 64 ->
  removeFromPendingWritesStartingAtOffset startingOffset s
  = set_pendingWrites
      (take (Z.to_nat (startingOffset - currentWriteOffset s))
         (pendingWrites s)) s
  /\ (pendingWrites
        (removeFromPendingWritesStartingAtOffset startingOffset s) = []
      \/ currentWriteOffset s
         + chainLength
             (pendingWrites
                (removeFromPendingWritesStartingAtOffset startingOffset s))
         <= startingOffset).
Proof.
  intros Hstart Hcwo Hend.
  assert (Heq : removeFromPendingWritesStartingAtOffset startingOffset s
                = set_pendingWrites
                    (take (Z.to_nat (startingOffset - currentWriteOffset s))
                       (pendingWrites s)) s).
  { unfold removeFromPendingWritesStartingAtOffset.
    destruct s as [pw rb ai lb cwo n]. unfold set_pendingWrites.
    simpl in *.
    destruct (chainEmpty pw) eqn:Eempty; simpl.
    - apply chainEmpty_nil in Eempty. subst pw. now rewrite take_nil.
    - assert (Hpos : 0 <= chainLength pw) by (unfold chainLength; lia).
      rewrite (wrap64_small (cwo + _)) by lia.
      destruct (_ <=? startingOffset) eqn:Eall.
      + apply Z.leb_le in Eall.
        rewrite take_ge by (unfold chainLength in *; lia). reflexivity.
      + apply Z.leb_gt in Eall.
        destruct (cwo <? startingOffset) eqn:Ecut.
        * apply Z.ltb_lt in Ecut. rewrite wrap64_small by lia.
          reflexivity.
        * apply Z.ltb_ge in Ecut. unfold splitAtMost. simpl. rewrite drop_chainLength.
          replace (Z.to_nat (startingOffset - cwo)) with O by lia.
          reflexivity. }
  split; [exact Heq|]. rewrite Heq. simpl.
  destruct (Z_le_gt_dec startingOffset (currentWriteOffset s)) as [Hle|Hgt].
  - left. replace (Z.to_nat (startingOffset - currentWriteOffset s)) with O
      by lia.
    apply take_0.
  - right. unfold chainLength. rewrite length_take. lia.
Qed.

Lemma removeFromPendingWritesStartingAtOffset_keeps_front_witness :
  pendingWrites
    (removeFromPendingWritesStartingAtOffset 2 streamWithPendingWrites)
  = [x01; x02].
Proof.
  destruct (removeFromPendingWritesStartingAtOffset_keeps_front 2
              streamWithPendingWrites ltac:(lia) ltac:(simpl; lia)
              ltac:(vm_compute; reflexivity)) as [Heq _].
  rewrite Heq. reflexivity.
Defined.

(** X7: [removeFromWriteBufStartingAtOffset] leaves of the write buffer
    exactly the bytes in front of [startingOffset]. *)
Theorem removeFromWriteBufStartingAtOffset_keeps_front
    (startingOffset : Z) (s : WriteBuffer) :
  0 <= startingOffset < 2 ^ 64 ->
  0 <= writeBufferStartOffset s ->
  writeBufferStartOffset s + chainLength (writeBuffer s) < 2 ^ 64 ->
  removeFromWriteBufStartingAtOffset startingOffset s
  = mkWriteBuffer (writeBufferStartOffset s)
      (take (Z.to_nat (startingOffset - writeBufferStartOffset s))
         (writeBuffer s))
  /\ (writeBuffer (removeFromWriteBufStartingAtOffset startingOffset s) = []
      \/ writeBufferStartOffset s
         + chainLength
             (writeBuffer
                (removeFromWriteBufStartingAtOffset startingOffset s))
         <= startingOffset).
Proof.
  intros Hstart Hoff Hend.
  assert (Heq : removeFromWriteBufStartingAtOffset startingOffset s
                = mkWriteBuffer (writeBufferStartOffset s)
                    (take (Z.to_nat (startingOffset
                                     - writeBufferStartOffset s))
                       (writeBuffer s))).
  { unfold removeFromWriteBufStartingAtOffset.
    destruct s as [off wb]. simpl in *.
    destruct (chainEmpty wb) eqn:Eempty; simpl.
    - apply chainEmpty_nil in Eempty. subst wb. now rewrite take_nil.
    - assert (Hpos : 0 <= chainLength wb) by (unfold chainLength; lia).
      rewrite (wrap64_small (off + _)) by lia.
      destruct (_ <=? startingOffset) eqn:Eall.
      + apply Z.leb_le in Eall.
        rewrite take_ge by (unfold chainLength in *; lia). reflexivity.
      + apply Z.leb_gt in Eall.
        destruct (off <? startingOffset) eqn:Ecut.
        * apply Z.ltb_lt in Ecut. rewrite wrap64_small by lia.
          reflexivity.
        * apply Z.ltb_ge in Ecut. unfold splitAtMost. simpl. rewrite drop_chainLength.
          replace (Z.to_nat (startingOffset - off)) with O by lia.
          reflexivity. }
  split; [exact Heq|]. rewrite Heq. simpl.
  destruct (Z_le_gt_dec startingOffset (writeBufferStartOffset s))
    as [Hle|Hgt].
  - left. replace (Z.to_nat (startingOffset - writeBufferStartOffset s))
      with O by lia.
    apply take_0.
  - right. unfold chainLength. rewrite length_take. lia.
Qed.

Lemma removeFromWriteBufStartingAtOffset_keeps_front_witness :
  removeFromWriteBufStartingAtOffset 5 sampleWriteBuffer
  = mkWriteBuffer 3 [x01; x02].
Proof.
  destruct (removeFromWriteBufStartingAtOffset_keeps_front 5
              sampleWriteBuffer ltac:(lia) ltac:(simpl; lia)
              ltac:(vm_compute; reflexivity)) as [Heq _].
  rewrite Heq. reflexivity.
Defined.

(** X8: [removeFromWriteBufMetaStartingAtOffset] shortens a buffer meta of
    less than 2^32 bytes to what it has in front of [startingOffset]: to
    nothing when it starts there or behind, not at all when it ends in
    front; its offset and end-of-stream flag stay. *)
Theorem removeFromWriteBufMetaStartingAtOffset_keeps_front
    (startingOffset : Z) (s : QuicStreamState) :
  0 <= startingOffset < 2 ^ 64 ->
  segValid (writeBufMeta s) ->
  WriteBufferMeta.length (writeBufMeta s) < 2 ^ 32 ->
  removeFromWriteBufMetaStartingAtOffset startingOffset s
  = set_writeBufMeta
      (WriteBufferMeta.mk
         (Z.min (WriteBufferMeta.length (writeBufMeta s))
            (Z.max 0
               (startingOffset - WriteBufferMeta.offset (writeBufMeta s))))
         (WriteBufferMeta.offset (writeBufMeta s))
         (WriteBufferMeta.eof (writeBufMeta s))) s.
Proof.
  intros Hstart (Hoff & Hlen & Hend) H32. unfold segEnd in Hend.
  unfold removeFromWriteBufMetaStartingAtOffset.
  destruct s as [b final [len off e] rbm lbm]. simpl in *.
  destruct (startingOffset <=? off) eqn:Ebehind.
  - apply Z.leb_le in Ebehind. unfold set_writeBufMeta. simpl.
    rewrite Z.max_l, Z.min_r by lia. reflexivity.
  - apply Z.leb_gt in Ebehind.
    replace (off <? startingOffset) with true
      by (symmetry; apply Z.ltb_lt; lia).
    rewrite (wrap64_small (off + len)) by lia. simpl.
    destruct (startingOffset <=? off + len) eqn:Ecut.
    + apply Z.leb_le in Ecut. unfold set_writeBufMeta, wrap32. simpl.
      rewrite wrap64_small by lia. rewrite Z.mod_small by lia.
      rewrite Z.max_r, Z.min_r by lia. reflexivity.
    + apply Z.leb_gt in Ecut. unfold set_writeBufMeta. simpl.
      rewrite Z.max_r, Z.min_l by lia. reflexivity.
Qed.

Lemma removeFromWriteBufMetaStartingAtOffset_keeps_front_witness :
  writeBufMeta (removeFromWriteBufMetaStartingAtOffset 7 streamWithBufMeta)
  = WriteBufferMeta.mk 2 5 true.
Proof.
  rewrite (removeFromWriteBufMetaStartingAtOffset_keeps_front 7
             streamWithBufMeta ltac:(lia)
             ltac:(vm_compute; repeat split; congruence)
             ltac:(vm_compute; reflexivity)).
  reflexivity.
Defined.

(** ** Writing the end of a stream *)

(** X9: once the final frame of a stream is written, [hasSentFIN] holds.
    For stream data: a frame with FIN at [currentWriteOffset] that ends at
    [finalWriteOffset] is new data and takes [currentWriteOffset] past the
    final offset.  For buffer metas: whenever [handleStreamBufMetaWritten]
    returns [true] for a frame with FIN, the offset of [writeBufMeta] is
    past the final offset. *)
Theorem fin_written_hasSentFIN :
  (forall (conn : QuicConnectionStateBase) (s : QuicStreamState)
      (frameLen packetNum : Z) (space : PacketNumberSpace.t),
      0 <= frameLen -> 0 <= currentWriteOffset (base s) ->
      currentWriteOffset (base s) + frameLen + 1 < 2 ^ 64 ->
      retransmissionBuffer (base s) !! currentWriteOffset (base s) = None ->
      finalWriteOffset s = Some (currentWriteOffset (base s) + frameLen) ->
      exists s',
        onStreamBase
          (handleStreamWritten (currentWriteOffset (base s)) frameLen true
             packetNum space) (conn, s)
        = Returned true (conn, s')
        /\ hasSentFIN s' = true)
  /\ (forall (conn conn' : QuicConnectionStateBase)
        (s s' : QuicStreamState) (frameOffset frameLen packetNum : Z)
        (space : PacketNumberSpace.t),
        handleStreamBufMetaWritten frameOffset frameLen true packetNum space
          (conn, s)
        = Returned true (conn', s') ->
        hasSentFIN s' = true).
Proof.
  split.
  - intros conn s frameLen packetNum space Hlen Hcwo Hend Hfree Hfinal.
    unfold onStreamBase, handleStreamWritten, bind, get. simpl.
    rewrite Z.eqb_refl.
    unfold onStream, handleNewStreamDataWritten, bind, get, CHECK, put,
      modify, ret, splitAtMost. simpl.
    rewrite Hfree. rewrite bool_decide_eq_true_2 by reflexivity.
    eexists. split; [reflexivity|].
    unfold hasSentFIN. simpl. rewrite Hfinal.
    rewrite (wrap64_small (_ + frameLen)) by lia.
    rewrite wrap64_small by lia.
    replace (currentWriteOffset (base s) + frameLen
             <? currentWriteOffset (base s) + frameLen + 1) with true
      by (symmetry; apply Z.ltb_lt; lia).
    reflexivity.
  - intros conn conn' s s' frameOffset frameLen packetNum space.
    unfold handleStreamBufMetaWritten. rewrite bind_get. simpl.
    destruct (_ && _).
    + unfold onStreamState at 1, bind at 1.
      unfold handleNewStreamBufMetaWritten. rewrite bind_get.
      unfold CHECK at 1, bind at 1.
      destruct (0 <? WriteBufferMeta.offset (writeBufMeta s));
        [|discriminate].
      destruct (WriteBufferMeta.split frameLen (writeBufMeta s))
        as [[head rest]|]; [|discriminate].
      unfold CHECK at 1, bind at 1.
      destruct (WriteBufferMeta.offset head
                =? WriteBufferMeta.offset (writeBufMeta s)); [|discriminate].
      unfold CHECK at 1, bind at 1 2.
      destruct (0 =? WriteBufferMeta.length rest); [|discriminate].
      destruct (finalWriteOffset s) as [final|] eqn:Hfinal; [|discriminate].
      unfold CHECK at 1, bind at 1.
      destruct (final <? _) eqn:Hpast; [|discriminate].
      unfold ret at 1, CHECK at 1, bind at 1.
      destruct (bool_decide _); [|discriminate].
      unfold put, onStreamState, onBase, modify, bind, ret. simpl.
      intros Hret. inversion Hret; subst. unfold hasSentFIN. simpl.
      simpl in Hpast. rewrite Hfinal, Hpast. apply orb_true_r.
    + destruct (lossBufMetas s !! _) as [entry|]; [|discriminate].
      unfold CHECK at 1, bind at 1.
      destruct (_ =? frameOffset); [|discriminate].
      unfold bind at 1.
      destruct (onStreamState _ _) as [[] [c1 s1]|code [c1 s1]|];
        [|discriminate..].
      unfold onConn, bind, ret. simpl. discriminate.
Qed.

Lemma fin_written_hasSentFIN_witness :
  hasSentFIN streamWithFinalData = false
  /\ exists s',
       onStreamBase
         (handleStreamWritten 0 5 true 0 PacketNumberSpace.AppData)
         (sampleConn, streamWithFinalData)
       = Returned true (sampleConn, s')
       /\ hasSentFIN s' = true.
Proof.
  split; [reflexivity|].
  exact (proj1 fin_written_hasSentFIN sampleConn streamWithFinalData 5 0
           PacketNumberSpace.AppData ltac:(lia) ltac:(simpl; lia)
           ltac:(simpl; lia) eq_refl eq_refl).
Defined.

(** ** Written buffer metas *)

(** X10: what [handleStreamBufMetaWritten] does by the position of the
    frame.
    - At the offset of a [writeBufMeta] that has been written to: the data
      is new; the frame's bytes are split off [writeBufMeta], whose offset
      moves on by the frame length, plus one for a FIN, and are recorded in
      [retransmissionBufMetas] under the frame's offset, with the
      end-of-stream flag the split gives them; the call returns [true].
    - Anywhere else the frame has to start an entry of [lossBufMetas]: when
      it does not the process is aborted, there are no clones of buffer
      metas.  A frame that covers the entry erases it, a shorter one moves
      the entry's offset on and shortens it; the frame is recorded in
      [retransmissionBufMetas], counted in [totalBytesRetransmitted], and
      the call returns [false]. *)
Theorem handleStreamBufMetaWritten_by_offset
    (conn : QuicConnectionStateBase) (stream : QuicStreamState)
    (frameOffset frameLen : Z) (frameFin : bool)
    (packetNum : Z) (space : PacketNumberSpace.t) :
  segValid (writeBufMeta stream) -> 0 <= frameLen ->
  (0 < WriteBufferMeta.offset (writeBufMeta stream) ->
   frameOffset = WriteBufferMeta.offset (writeBufMeta stream) ->
   frameLen <= WriteBufferMeta.length (writeBufMeta stream) ->
   segEnd (writeBufMeta stream) + 1 < 2 ^ 64 ->
   (frameFin = true ->
    frameLen = WriteBufferMeta.length (writeBufMeta stream)
    /\ exists final,
         finalWriteOffset stream = Some final
         /\ final <= frameOffset + frameLen) ->
   retransmissionBufMetas stream !! frameOffset = None ->
   exists stream',
     handleStreamBufMetaWritten frameOffset frameLen frameFin packetNum
       space (conn, stream)
     = Returned true (conn, stream')
     /\ writeBufMeta stream'
        = WriteBufferMeta.mk
            (WriteBufferMeta.length (writeBufMeta stream) - frameLen)
            (frameOffset + frameLen + (if frameFin then 1 else 0))
            (WriteBufferMeta.eof (writeBufMeta stream))
     /\ retransmissionBufMetas stream'
        = <[frameOffset :=
              WriteBufferMeta.mk frameLen frameOffset
                ((frameLen =? WriteBufferMeta.length (writeBufMeta stream))
                 && WriteBufferMeta.eof (writeBufMeta stream))]>
            (retransmissionBufMetas stream)
     /\ lossBufMetas stream' = lossBufMetas stream)
  /\ ((WriteBufferMeta.offset (writeBufMeta stream) = 0
       \/ frameOffset <> WriteBufferMeta.offset (writeBufMeta stream)) ->
      ((forall entry,
           lossBufMetas stream
             !! lower_bound
                  (fun bufMeta offset =>
                     WriteBufferMeta.offset bufMeta <? offset)
                  (lossBufMetas stream) frameOffset = Some entry ->
           WriteBufferMeta.offset entry <> frameOffset) ->
       handleStreamBufMetaWritten frameOffset frameLen frameFin packetNum
         space (conn, stream) = Fatal)
      /\ (forall entry,
            lossBufMetas stream
              !! lower_bound
                   (fun bufMeta offset =>
                      WriteBufferMeta.offset bufMeta <? offset)
                   (lossBufMetas stream) frameOffset = Some entry ->
            WriteBufferMeta.offset entry = frameOffset ->
            segValid entry ->
            retransmissionBufMetas stream !! frameOffset = None ->
            (frameLen = WriteBufferMeta.length entry
             /\ frameFin = WriteBufferMeta.eof entry
             \/ frameLen < WriteBufferMeta.length entry) ->
            exists stream',
              handleStreamBufMetaWritten frameOffset frameLen frameFin
                packetNum space (conn, stream)
              = Returned false
                  (add_totalBytesRetransmitted frameLen conn, stream')
              /\ retransmissionBufMetas stream'
                 = <[frameOffset :=
                       WriteBufferMeta.mk frameLen frameOffset frameFin]>
                     (retransmissionBufMetas stream)
              /\ lossBufMetas stream'
                 = (let i :=
                      lower_bound
                        (fun bufMeta offset =>
                           WriteBufferMeta.offset bufMeta <? offset)
                        (lossBufMetas stream) frameOffset in
                    if (frameLen =? WriteBufferMeta.length entry)
                       && Bool.eqb frameFin (WriteBufferMeta.eof entry)
                    then erase i (lossBufMetas stream)
                    else
                      <[i := WriteBufferMeta.mk
                               (WriteBufferMeta.length entry - frameLen)
                               (frameOffset + frameLen)
                               (WriteBufferMeta.eof entry)]>
                        (lossBufMetas stream))
              /\ writeBufMeta stream' = writeBufMeta stream)).
Proof.
  intros (Hoff & Hlen & Hend) Hframe. unfold segEnd in *.
  simpl in Hoff, Hlen, Hend. split.
  - intros Hpos -> Hle Hroom Hfin Hfree.
    unfold segEnd in Hroom. simpl in Hroom.
    unfold handleStreamBufMetaWritten. rewrite bind_get. simpl.
    replace (0 <? WriteBufferMeta.offset (writeBufMeta stream)) with true
      by (symmetry; apply Z.ltb_lt; lia).
    rewrite Z.eqb_refl. simpl.
    unfold onStreamState at 1, bind at 1.
    unfold handleNewStreamBufMetaWritten. rewrite bind_get.
    replace (0 <? WriteBufferMeta.offset (writeBufMeta stream)) with true
      by (symmetry; apply Z.ltb_lt; lia).
    unfold CHECK at 1, bind at 1.
    unfold WriteBufferMeta.split.
    replace (WriteBufferMeta.length (writeBufMeta stream) <? frameLen)
      with false by (symmetry; apply Z.ltb_ge; lia).
    cbn [WriteBufferMeta.offset WriteBufferMeta.length WriteBufferMeta.eof].
    rewrite Z.eqb_refl. unfold CHECK at 1, bind at 1.
    rewrite (wrap64_small (_ - frameLen)) by lia.
    rewrite (wrap64_small (_ + frameLen)) by lia.
    destruct frameFin.
    + destruct (Hfin eq_refl) as (Hall & final & Hfinal & Hpast).
      rewrite Hfinal.
      replace (0 =? WriteBufferMeta.length (writeBufMeta stream) - frameLen)
        with true by (symmetry; apply Z.eqb_eq; lia).
      unfold CHECK at 1, bind at 1 2.
      cbn [WriteBufferMeta.offset WriteBufferMeta.length WriteBufferMeta.eof].
      rewrite (wrap64_small (_ + frameLen + 1)) by lia.
      replace (final
               <? WriteBufferMeta.offset (writeBufMeta stream) + frameLen + 1)
        with true by (symmetry; apply Z.ltb_lt; lia).
      unfold CHECK at 1, bind at 1. unfold ret at 1.
      rewrite Hfree. rewrite bool_decide_eq_true_2 by reflexivity.
      unfold CHECK, put, onStreamState, onBase, modify, bind, ret. simpl.
      eexists. split; [reflexivity|]. simpl. repeat split.
    + unfold ret at 1, bind at 1.
      rewrite Hfree. rewrite bool_decide_eq_true_2 by reflexivity.
      unfold CHECK, put, onStreamState, onBase, modify, bind, ret. simpl.
      eexists. split; [reflexivity|]. simpl. rewrite Z.add_0_r.
      repeat split.
  - intros Hnot.
    assert (Hguard :
      (0 <? WriteBufferMeta.offset (writeBufMeta stream))
      && (frameOffset =? WriteBufferMeta.offset (writeBufMeta stream))
      = false).
    { destruct Hnot as [Hzero|Hne].
      - rewrite Hzero. reflexivity.
      - replace (frameOffset =? WriteBufferMeta.offset (writeBufMeta stream))
          with false by (symmetry; now apply Z.eqb_neq).
        apply andb_false_r. }
    split.
    + intros Hnone. unfold handleStreamBufMetaWritten. rewrite bind_get.
      simpl. rewrite Hguard.
      destruct (lossBufMetas stream !! _) as [entry|] eqn:Hentry;
        [|reflexivity].
      specialize (Hnone entry eq_refl).
      replace (WriteBufferMeta.offset entry =? frameOffset) with false
        by (symmetry; now apply Z.eqb_neq).
      reflexivity.
    + intros entry Hentry Hat (Heoff & Helen & Heend) Hfree Hcase.
      unfold segEnd in Heend. simpl in Heoff, Helen, Heend.
      unfold handleStreamBufMetaWritten. rewrite bind_get. simpl.
      rewrite Hguard, Hentry, Hat, Z.eqb_refl.
      unfold CHECK at 1, bind at 1.
      unfold onStreamState at 1, bind at 1.
      unfold handleRetransmissionBufMetaWritten. rewrite bind_get, Hentry.
      destruct ((frameLen =? WriteBufferMeta.length entry)
                && Bool.eqb frameFin (WriteBufferMeta.eof entry)) eqn:Efull.
      * unfold ret at 1, bind at 1. rewrite Hfree.
        rewrite bool_decide_eq_true_2 by reflexivity.
        unfold CHECK, put, onConn, bind, ret. simpl.
        eexists. split; [reflexivity|]. simpl. repeat split.
      * assert (Hshort : frameLen < WriteBufferMeta.length entry).
        { destruct Hcase as [[Hl He]|Hlt]; [|exact Hlt].
          rewrite Hl, He, Z.eqb_refl, eqb_reflx in Efull. discriminate. }
        replace (frameLen <? WriteBufferMeta.length entry) with true
          by (symmetry; now apply Z.ltb_lt).
        unfold CHECK at 1, bind at 1 2. unfold ret at 1.
        rewrite Hfree. rewrite bool_decide_eq_true_2 by reflexivity.
        unfold CHECK, put, onConn, bind, ret. simpl.
        eexists. split; [reflexivity|]. simpl.
        rewrite !wrap64_small by lia. rewrite Hat. repeat split.
Qed.

Lemma handleStreamBufMetaWritten_by_offset_witness :
  (exists stream',
      handleStreamBufMetaWritten 20 2 false 0 PacketNumberSpace.AppData
        (sampleConn, streamWithLostMeta)
      = Returned true (sampleConn, stream')
      /\ writeBufMeta stream' = WriteBufferMeta.mk 3 22 false)
  /\ handleStreamBufMetaWritten 12 2 false 0 PacketNumberSpace.AppData
       (sampleConn, streamWithLostMeta) = Fatal
  /\ (exists stream',
        handleStreamBufMetaWritten 10 2 false 0 PacketNumberSpace.AppData
          (sampleConn, streamWithLostMeta)
        = Returned false (add_totalBytesRetransmitted 2 sampleConn, stream')
        /\ lossBufMetas stream' = [WriteBufferMeta.mk 3 12 false]).
Proof.
  assert (Hv : segValid (writeBufMeta streamWithLostMeta))
    by (vm_compute; repeat split; congruence).
  split; [|split].
  - destruct (handleStreamBufMetaWritten_by_offset sampleConn
                streamWithLostMeta 20 2 false 0 PacketNumberSpace.AppData
                Hv ltac:(lia)) as [Hnew _].
    destruct (Hnew ltac:(simpl; lia) eq_refl ltac:(simpl; lia)
                ltac:(vm_compute; reflexivity) ltac:(discriminate) eq_refl)
      as (stream' & Hrun & Hmeta & _).
    exists stream'. split; [exact Hrun|exact Hmeta].
  - destruct (handleStreamBufMetaWritten_by_offset sampleConn
                streamWithLostMeta 12 2 false 0 PacketNumberSpace.AppData
                Hv ltac:(lia)) as [_ Hold].
    destruct (Hold ltac:(right; simpl; lia)) as [Hfatal _].
    apply Hfatal. intros entry Hentry. vm_compute in Hentry. discriminate.
  - destruct (handleStreamBufMetaWritten_by_offset sampleConn
                streamWithLostMeta 10 2 false 0 PacketNumberSpace.AppData
                Hv ltac:(lia)) as [_ Hold].
    destruct (Hold ltac:(right; simpl; lia)) as [_ Hretx].
    destruct (Hretx lostMetaAt10 eq_refl eq_refl
                ltac:(vm_compute; repeat split; congruence) eq_refl
                ltac:(right; simpl; lia))
      as (stream' & Hrun & _ & Hloss & _).
    exists stream'. split; [exact Hrun|exact Hloss].
Defined.

(** ** Retransmitting lost data *)

Lemma lookup_split {A} (l : list A) (i : nat) (x : A) :
  l !! i = Some x ->
  l = take i l ++ x :: drop (S i) l /\ length (take i l) = i.
Proof.
  intros Hx. split; [symmetry; now apply take_drop_middle|].
  rewrite length_take. apply lookup_lt_Some in Hx. lia.
Qed.

(** X11: a retransmission takes its bytes off the loss buffer.  When the
    frame at [frameOffset] starts a lost segment and is no longer than it,
    the first [frameLen] bytes of the segment go to [retransmissionBuffer]
    under [frameOffset]; the segment is erased when the frame covers it
    with the same end-of-stream flag, and otherwise keeps its remaining
    bytes at [frameOffset + frameLen] with its flag.  Sent and remaining
    bytes together are the bytes of the segment.  When the frame covers
    the segment with the same end-of-stream flag, or is shorter than the
    segment, a loss buffer that is sorted and disjoint stays so; nothing
    is said of the order after a frame that covers the segment with a
    different flag. *)
Theorem handleStreamWritten_retransmission_moves_bytes
    (conn : QuicConnectionStateBase) (stream : QuicStreamLike)
    (frameOffset frameLen : Z) (frameFin : bool)
    (packetNum : Z) (space : PacketNumberSpace.t) (entry : WSB) (i : nat) :
  i = lower_bound (fun buf off => WriteStreamBuffer.offset buf <? off)
        (lossBuffer stream) frameOffset ->
  lossBuffer stream !! i = Some entry ->
  WriteStreamBuffer.offset entry = frameOffset ->
  frameOffset < currentWriteOffset stream ->
  retransmissionBuffer stream !! frameOffset = None ->
  segValid entry ->
  0 <= frameLen <= chainLength (WriteStreamBuffer.data entry) ->
  exists stream' sent,
    handleStreamWritten frameOffset frameLen frameFin packetNum space
      (conn, stream)
    = Returned false (add_totalBytesRetransmitted frameLen conn, stream')
    /\ retransmissionBuffer stream' !! frameOffset = Some sent
    /\ chainLength (WriteStreamBuffer.data sent) = frameLen
    /\ WriteStreamBuffer.data sent
       ++ drop (Z.to_nat frameLen) (WriteStreamBuffer.data entry)
       = WriteStreamBuffer.data entry
    /\ lossBuffer stream'
       = (if (frameLen =? chainLength (WriteStreamBuffer.data entry))
             && Bool.eqb frameFin (WriteStreamBuffer.eof entry)
          then erase i (lossBuffer stream)
          else
            <[i := WriteStreamBuffer.mk
                     (drop (Z.to_nat frameLen) (WriteStreamBuffer.data entry))
                     (frameOffset + frameLen)
                     (WriteStreamBuffer.eof entry)]> (lossBuffer stream))
    /\ (Forall segValid (lossBuffer stream) ->
        sortedDisjoint (lossBuffer stream) ->
        frameLen = chainLength (WriteStreamBuffer.data entry)
        /\ frameFin = WriteStreamBuffer.eof entry
        \/ frameLen < chainLength (WriteStreamBuffer.data entry) ->
        Forall segValid (lossBuffer stream')
        /\ sortedDisjoint (lossBuffer stream')).
Proof.
  intros Hi Hentry Hat Hlt Hfree (Hoff & Hlen & Hend) Hframe.
  unfold segEnd in Hend. simpl in Hoff, Hlen, Hend.
  unfold handleStreamWritten. rewrite bind_get. simpl.
  replace (frameOffset =? currentWriteOffset stream) with false
    by (symmetry; apply Z.eqb_neq; lia).
  replace (currentWriteOffset stream <? frameOffset) with false
    by (symmetry; apply Z.ltb_ge; lia).
  rewrite <- Hi, Hentry, Hat, Z.eqb_refl.
  unfold onStream at 1, bind at 1.
  unfold handleRetransmissionWritten. rewrite bind_get, Hentry.
  destruct (lookup_split _ _ _ Hentry) as [Hl Hi'].
  set (l1 := take i (lossBuffer stream)) in *.
  set (l2 := drop (S i) (lossBuffer stream)) in *.
  assert (Hsorted_parts :
    Forall segValid (lossBuffer stream) -> sortedDisjoint (lossBuffer stream) ->
    Forall segValid l1 /\ Forall segValid l2
    /\ sortedDisjoint l1 /\ sortedDisjoint l2
    /\ Forall (fun a => segBefore a entry) l1
    /\ Forall (fun b => segBefore entry b) l2
    /\ (forall a b, a ∈ l1 -> b ∈ l2 -> segBefore a b)).
  { rewrite Hl. intros Hv Hs. rewrite Forall_app, Forall_cons in Hv.
    destruct Hv as (Hv1 & _ & Hv2).
    unfold sortedDisjoint in *.
    destruct (proj1 (StronglySorted_app _ _ _) Hs) as (Hcross & Hs1 & Hs2).
    inversion Hs2 as [|? ? Hs2' Hafter]; subst.
    split; [assumption|]. split; [assumption|]. split; [assumption|].
    split; [assumption|]. split; [|split; [assumption|]].
    - apply Forall_forall. intros e1 He1. apply Hcross; [exact He1|].
      apply elem_of_cons. now left.
    - intros e1 e2 He1 He2. apply Hcross; [exact He1|].
      apply elem_of_cons. now right. }
  destruct ((frameLen =? chainLength (WriteStreamBuffer.data entry))
            && Bool.eqb frameFin (WriteStreamBuffer.eof entry)) eqn:Efull.
  - unfold CHECK, put, onConn, bind, ret. simpl.
    rewrite Hfree. rewrite bool_decide_eq_true_2 by reflexivity.
    eexists _, _. split; [reflexivity|]. simpl.
    rewrite lookup_insert_eq. split; [reflexivity|]. simpl.
    apply andb_true_iff in Efull. destruct Efull as [Elen _].
    apply Z.eqb_eq in Elen.
    split; [lia|]. split.
    { rewrite drop_ge by (unfold chainLength in *; lia).
      apply app_nil_r. }
    split; [reflexivity|].
    intros Hv Hs _.
    destruct (Hsorted_parts Hv Hs) as (Hv1 & Hv2 & Hs1 & Hs2 & _ & _ & Hx).
    rewrite Hl, <- Hi', erase_middle. split.
    + apply Forall_app. split; assumption.
    + apply StronglySorted_app. split; [exact Hx|]. split; assumption.
  - unfold CHECK, put, onConn, bind, ret, splitAtMost. simpl.
    rewrite Hfree. rewrite bool_decide_eq_true_2 by reflexivity.
    eexists _, _. split; [reflexivity|]. simpl.
    rewrite lookup_insert_eq. split; [reflexivity|]. simpl.
    split; [unfold chainLength in *; rewrite length_take; lia|].
    split; [apply take_drop|].
    rewrite Hat, wrap64_small by lia.
    split; [reflexivity|].
    intros Hv Hs Hcase.
    assert (Hshort : frameLen < chainLength (WriteStreamBuffer.data entry)).
    { destruct Hcase as [[Hl' He]|Hshort]; [|exact Hshort].
      rewrite <- Hl', He, Z.eqb_refl, eqb_reflx in Efull. discriminate. }
    destruct (Hsorted_parts Hv Hs)
      as (Hv1 & Hv2 & Hs1 & Hs2 & Hb1 & Hb2 & Hx).
    rewrite Hl, <- Hi', insert_middle. split.
    + apply Forall_app. split; [assumption|]. apply Forall_cons.
      split; [|assumption].
      unfold segValid, segEnd. simpl. unfold chainLength in *.
      rewrite length_drop. lia.
    + apply StronglySorted_app. split; [|split; [assumption|]].
      * intros e1 e2 He1 He2. apply elem_of_cons in He2.
        destruct He2 as [->|He2]; [|now apply Hx].
        rewrite Forall_forall in Hb1. destruct (Hb1 e1 He1) as [He Ho].
        unfold segBefore, segEnd in *. simpl in *. lia.
      * constructor; [assumption|].
        eapply Forall_impl; [exact Hb2|]. intros e2 [He Ho].
        unfold segBefore, segEnd in *. simpl in *.
        unfold chainLength in *. rewrite length_drop. lia.
Qed.

Lemma handleStreamWritten_retransmission_moves_bytes_witness :
  exists stream',
    handleStreamWritten 10 2 false 0 PacketNumberSpace.AppData
      (sampleConn, streamWithLossAfterSend)
    = Returned false (add_totalBytesRetransmitted 2 sampleConn, stream')
    /\ lossBuffer stream'
       = [WriteStreamBuffer.mk [x03; x04; x05] 12 false].
Proof.
  destruct (handleStreamWritten_retransmission_moves_bytes sampleConn
              streamWithLossAfterSend 10 2 false 0 PacketNumberSpace.AppData
              lostAt10 0 eq_refl eq_refl eq_refl ltac:(simpl; lia) eq_refl
              ltac:(vm_compute; repeat split; congruence)
              ltac:(vm_compute; split; congruence))
    as (stream' & sent & Hrun & _ & _ & _ & Hloss & _).
  exists stream'. split; [exact Hrun|exact Hloss].
Defined.

(** X12: losing a sent segment and retransmitting it whole undoes the
    loss.  When a lost segment is put in a loss buffer that is sorted and
    disjoint, overlaps no entry and follows none directly, the frame that
    retransmits it whole finds it, erases it again and records it in
    [retransmissionBuffer]: the stream is the one before the loss with the
    segment sent. *)
Theorem loss_then_retransmission_round_trip
    (conn : QuicConnectionStateBase) (s : QuicStreamLike) (buf : WSB)
    (packetNum : Z) (space : PacketNumberSpace.t) :
  segValid buf -> Forall segValid (lossBuffer s) ->
  sortedDisjoint (lossBuffer s) ->
  Forall (nonOverlapping buf) (lossBuffer s) ->
  Forall (fun e => segEnd e <> segOffset buf) (lossBuffer s) ->
  WriteStreamBuffer.offset buf < currentWriteOffset s ->
  retransmissionBuffer s !! WriteStreamBuffer.offset buf = None ->
  handleStreamWritten (WriteStreamBuffer.offset buf)
    (chainLength (WriteStreamBuffer.data buf)) (WriteStreamBuffer.eof buf)
    packetNum space (conn, insertIntoLossBuffer buf s)
  = Returned false
      (add_totalBytesRetransmitted
         (chainLength (WriteStreamBuffer.data buf)) conn,
       set_retransmissionBuffer
         (<[WriteStreamBuffer.offset buf := buf]> (retransmissionBuffer s))
         s).
Proof.
  intros Hb Hv Hs Hn Hgap Hlt Hfree.
  rewrite insertIntoLossBuffer_insertSegment.
  destruct (insertSegment_cases buf (lossBuffer s) Hb Hv Hs Hn)
    as (l1 & l2 & Hl & H1 & H2 & Hcase).
  destruct Hcase as [(l1' & prev & -> & Hprev & _)|[_ Hins]].
  { exfalso. rewrite Forall_forall in Hgap. apply (Hgap prev); [|exact Hprev].
    rewrite Hl. apply elem_of_app. left. apply elem_of_app. right.
    apply list_elem_of_singleton. reflexivity. }
  rewrite Hins.
  assert (Hlb :
    lower_bound (fun b off => WriteStreamBuffer.offset b <? off)
      (l1 ++ buf :: l2) (WriteStreamBuffer.offset buf) = length l1).
  { apply lower_bound_app.
    - eapply Forall_impl; [exact H1|]. intros e [_ He]. simpl in He.
      apply Z.ltb_lt. exact He.
    - apply Z.ltb_irrefl. }
  assert (Hlookup : (l1 ++ buf :: l2) !! length l1 = Some buf)
    by apply list_lookup_middle, eq_refl.
  unfold handleStreamWritten. rewrite bind_get. simpl.
  replace (WriteStreamBuffer.offset buf =? currentWriteOffset s) with false
    by (symmetry; apply Z.eqb_neq; lia).
  replace (currentWriteOffset s <? WriteStreamBuffer.offset buf) with false
    by (symmetry; apply Z.ltb_ge; lia).
  rewrite Hlb, Hlookup, Z.eqb_refl.
  unfold onStream at 1, bind at 1.
  unfold handleRetransmissionWritten. rewrite bind_get. simpl.
  rewrite Hlookup, Z.eqb_refl, eqb_reflx. simpl.
  unfold CHECK, put, onConn, bind, ret. simpl.
  rewrite Hfree. rewrite bool_decide_eq_true_2 by reflexivity.
  rewrite erase_middle, <- Hl.
  destruct s as [pw rb ai lb cwo n]. destruct buf as [d o f]. reflexivity.
Qed.

Lemma loss_then_retransmission_round_trip_witness :
  handleStreamWritten 10 5 false 0 PacketNumberSpace.AppData
    (sampleConn,
     insertIntoLossBuffer lostAt10 (set_currentWriteOffset 20 emptyStream))
  = Returned false
      (add_totalBytesRetransmitted 5 sampleConn,
       set_retransmissionBuffer (<[10 := lostAt10]> ∅)
         (set_currentWriteOffset 20 emptyStream)).
Proof.
  apply (loss_then_retransmission_round_trip sampleConn
           (set_currentWriteOffset 20 emptyStream) lostAt10 0
           PacketNumberSpace.AppData).
  - vm_compute. repeat split; congruence.
  - constructor.
  - constructor.
  - constructor.
  - constructor.
  - simpl. lia.
  - reflexivity.
Defined.

(** ** More on recording a sent packet *)

Lemma sentStateUntouched_refl c : sentStateUntouched c c.
Proof. unfold sentStateUntouched. repeat split. Qed.

Lemma sentStateUntouched_trans c1 c2 c3 :
  sentStateUntouched c1 c2 -> sentStateUntouched c2 c3 ->
  sentStateUntouched c1 c3.
Proof.
  unfold sentStateUntouched. intros H12 H23.
  repeat match goal with
    | H : _ /\ _ |- _ => destruct H
    end.
  repeat split; congruence.
Qed.

#[global] Instance sentStateUntouched_preorder : PreOrder sentStateUntouched.
Proof.
  split; [exact sentStateUntouched_refl|].
  intros c1 c2 c3. apply sentStateUntouched_trans.
Qed.

Ltac sent_state_untouched :=
  unfold sentStateUntouched; simpl; repeat split; reflexivity.

Ltac untouched_step :=
  first
    [ apply preserves_ret
    | apply preserves_get
    | apply preserves_throw
    | apply preserves_abort
    | apply preserves_CHECK
    | apply preserves_onStream; typeclasses eauto
    | apply preserves_onStreamState; typeclasses eauto
    | apply preserves_onConn; intros ?; sent_state_untouched
    | apply preserves_modify; intros ?; sent_state_untouched
    | apply preserves_bind; [typeclasses eauto| |intros ?]
    | match goal with
      | |- preserves _ (match ?x with _ => _ end) => destruct x
      end ].

Ltac untouched_walk := repeat untouched_step; try typeclasses eauto.

Lemma handleStreamWritten_untouched frameOffset frameLen frameFin packetNum
    space :
  preserves (onFst sentStateUntouched)
    (handleStreamWritten frameOffset frameLen frameFin packetNum space).
Proof. unfold handleStreamWritten. untouched_walk. Qed.

Lemma handleStreamBufMetaWritten_untouched frameOffset frameLen frameFin
    packetNum space :
  preserves (onFst sentStateUntouched)
    (handleStreamBufMetaWritten frameOffset frameLen frameFin packetNum space).
Proof. unfold handleStreamBufMetaWritten. untouched_walk. Qed.

Lemma withStream_untouched {A} streamId
    (c : M (QuicConnectionStateBase * QuicStreamState) A) :
  preserves (onFst sentStateUntouched) c ->
  preserves sentStateUntouched (withStream streamId c).
Proof.
  intros Hc conn. unfold withStream.
  destruct (streams conn !! streamId) as [stream|]; [|exact I].
  specialize (Hc (conn, stream)).
  destruct (c (conn, stream)) as [a [conn' stream']|code [conn' stream']|];
    simpl in *; try exact I;
    (etransitivity; [exact Hc|sent_state_untouched]).
Qed.

Lemma withCryptoStream_untouched {A} level
    (c : M (QuicConnectionStateBase * QuicStreamLike) A) :
  preserves (onFst sentStateUntouched) c ->
  preserves sentStateUntouched (withCryptoStream level c).
Proof.
  intros Hc conn. unfold withCryptoStream.
  specialize (Hc (conn, cryptoState conn level)).
  destruct (c (conn, cryptoState conn level))
    as [a [conn' stream']|code [conn' stream']|];
    simpl in *; try exact I;
    (etransitivity; [exact Hc|sent_state_untouched]).
Qed.

Lemma onStreamBase_untouched {A}
    (c : M (QuicConnectionStateBase * QuicStreamLike) A) :
  preserves (onFst sentStateUntouched) c ->
  preserves (onFst sentStateUntouched) (onStreamBase c).
Proof.
  intros Hc [conn stream]. unfold onStreamBase.
  specialize (Hc (conn, base stream)).
  destruct (c (conn, base stream)) as [a [conn' b]|code [conn' b]|];
    simpl in *; try exact I; exact Hc.
Qed.

Section ThrowsOnly.
Context {S : Type} (code : Exception).

Lemma throwsOnly_bind {A B} (c : M S A) (k : A -> M S B) :
  throwsOnly code c -> (forall a, throwsOnly code (k a)) ->
  throwsOnly code (bind c k).
Proof.
  intros Hc Hk s. unfold bind. specialize (Hc s).
  destruct (c s) as [a s'|code' s'|]; [|exact Hc|exact I].
  apply Hk.
Qed.

Lemma throwsOnly_ret {A} (a : A) : throwsOnly code (@ret S A a).
Proof. intros s. exact I. Qed.

Lemma throwsOnly_get : throwsOnly code (@get S).
Proof. intros s. exact I. Qed.

Lemma throwsOnly_throw {A} : throwsOnly code (@throw S A code).
Proof. intros s. reflexivity. Qed.

Lemma throwsOnly_abort {A} : throwsOnly code (@abort S A).
Proof. intros s. exact I. Qed.

Lemma throwsOnly_CHECK b : throwsOnly code (@CHECK S b).
Proof. intros s. unfold CHECK. destruct b; exact I. Qed.

Lemma throwsOnly_modify (f : S -> S) : throwsOnly code (modify f).
Proof. intros s. exact I. Qed.

Lemma throwsOnly_put (s' : S) : throwsOnly code (put s').
Proof. intros s. exact I. Qed.

End ThrowsOnly.

Lemma throwsOnly_onStream {C A} code (c : M QuicStreamLike A) :
  throwsOnly code c -> throwsOnly code (@onStream C A c).
Proof.
  intros Hc [conn stream]. unfold onStream. specialize (Hc stream).
  destruct (c stream); [exact I|exact Hc|exact I].
Qed.

Lemma throwsOnly_onStreamState {C A} code (c : M QuicStreamState A) :
  throwsOnly code c -> throwsOnly code (@onStreamState C A c).
Proof.
  intros Hc [conn stream]. unfold onStreamState. specialize (Hc stream).
  destruct (c stream); [exact I|exact Hc|exact I].
Qed.

Lemma throwsOnly_onBase {A} code (c : M QuicStreamLike A) :
  throwsOnly code c -> throwsOnly code (onBase c).
Proof.
  intros Hc stream. unfold onBase. specialize (Hc (base stream)).
  destruct (c (base stream)); [exact I|exact Hc|exact I].
Qed.

Lemma throwsOnly_onConn {S} code f : throwsOnly code (@onConn S f).
Proof. intros [conn stream]. exact I. Qed.

Lemma throwsOnly_withStream {A} code streamId
    (c : M (QuicConnectionStateBase * QuicStreamState) A) :
  throwsOnly code c -> throwsOnly code (withStream streamId c).
Proof.
  intros Hc conn. unfold withStream.
  destruct (streams conn !! streamId) as [stream|]; [|exact I].
  specialize (Hc (conn, stream)).
  destruct (c (conn, stream)) as [a [conn' stream']|code' [conn' stream']|];
    [exact I|exact Hc|exact I].
Qed.

Lemma throwsOnly_withCryptoStream {A} code level
    (c : M (QuicConnectionStateBase * QuicStreamLike) A) :
  throwsOnly code c -> throwsOnly code (withCryptoStream level c).
Proof.
  intros Hc conn. unfold withCryptoStream.
  specialize (Hc (conn, cryptoState conn level)).
  destruct (c (conn, cryptoState conn level))
    as [a [conn' stream']|code' [conn' stream']|];
    [exact I|exact Hc|exact I].
Qed.

Lemma throwsOnly_onStreamBase {A} code
    (c : M (QuicConnectionStateBase * QuicStreamLike) A) :
  throwsOnly code c -> throwsOnly code (onStreamBase c).
Proof.
  intros Hc [conn stream]. unfold onStreamBase.
  specialize (Hc (conn, base stream)).
  destruct (c (conn, base stream)) as [a [conn' b]|code' [conn' b]|];
    [exact I|exact Hc|exact I].
Qed.

Lemma handleNewStreamDataWritten_throws frameLen frameFin :
  throwsOnly INTERNAL_ERROR (handleNewStreamDataWritten frameLen frameFin).
Proof.
  intros s. unfold handleNewStreamDataWritten, bind, get, CHECK, put.
  simpl. destruct (bool_decide _); exact I.
Qed.

Lemma handleRetransmissionWritten_throws frameOffset frameLen frameFin i :
  throwsOnly INTERNAL_ERROR
    (handleRetransmissionWritten frameOffset frameLen frameFin i).
Proof.
  intros s. unfold handleRetransmissionWritten, bind, get, CHECK, put, abort.
  destruct (lossBuffer s !! i) as [entry|]; [|exact I].
  destruct (_ && _); simpl; destruct (bool_decide _); exact I.
Qed.

Ltac throws_step :=
  first
    [ apply handleNewStreamDataWritten_throws
    | apply handleRetransmissionWritten_throws
    | apply throwsOnly_ret
    | apply throwsOnly_get
    | apply throwsOnly_throw
    | apply throwsOnly_abort
    | apply throwsOnly_CHECK
    | apply throwsOnly_modify
    | apply throwsOnly_put
    | apply throwsOnly_onConn
    | apply throwsOnly_onStream
    | apply throwsOnly_onStreamState
    | apply throwsOnly_onBase
    | apply throwsOnly_withStream
    | apply throwsOnly_withCryptoStream
    | apply throwsOnly_onStreamBase
    | apply throwsOnly_bind; [|intros ?]
    | match goal with
      | |- throwsOnly _ (match ?x with _ => _ end) => destruct x
      | |- throwsOnly _ (let '(_, _) := ?x in _) => destruct x
      end ].

Ltac throws_walk := repeat throws_step.

Lemma handleStreamWritten_throws frameOffset frameLen frameFin packetNum
    space :
  throwsOnly INTERNAL_ERROR
    (handleStreamWritten frameOffset frameLen frameFin packetNum space).
Proof.
  unfold handleStreamWritten. throws_walk.
Qed.

Lemma handleStreamBufMetaWritten_throws frameOffset frameLen frameFin
    packetNum space :
  throwsOnly INTERNAL_ERROR
    (handleStreamBufMetaWritten frameOffset frameLen frameFin packetNum
       space).
Proof.
  unfold handleStreamBufMetaWritten, handleNewStreamBufMetaWritten,
    handleRetransmissionBufMetaWritten.
  throws_walk.
Qed.

Ltac frame_throws_walk :=
  repeat first
    [ apply handleStreamBufMetaWritten_throws
    | apply handleStreamWritten_throws
    | throws_step ].

Section MoreTransportFacts.
Variable protectionTypeToEncryptionLevel :
  ProtectionType.t -> EncryptionLevel.t.

Lemma updateConnection_frame_untouched packet cloned frame locals :
  preserves sentStateUntouched
    (updateConnection_frame protectionTypeToEncryptionLevel packet cloned
       frame locals).
Proof.
  unfold updateConnection_frame, modifyPendingEvents.
  destruct frame; untouched_walk.
  - apply withStream_untouched, handleStreamBufMetaWritten_untouched.
  - apply withStream_untouched, onStreamBase_untouched,
      handleStreamWritten_untouched.
  - apply withCryptoStream_untouched, handleStreamWritten_untouched.
Qed.

Lemma forEachFrame_untouched packet cloned frames locals :
  preserves sentStateUntouched
    (forEachFrame
       (updateConnection_frame protectionTypeToEncryptionLevel packet cloned)
       frames locals).
Proof.
  revert locals. induction frames as [|frame rest IH]; intros locals; simpl.
  - apply preserves_ret; typeclasses eauto.
  - apply preserves_bind; [typeclasses eauto| |intros locals'; apply IH].
    apply updateConnection_frame_untouched.
Qed.

Lemma updateConnection_frame_throws packet cloned frame locals :
  throwsOnly INTERNAL_ERROR
    (updateConnection_frame protectionTypeToEncryptionLevel packet cloned
       frame locals).
Proof.
  unfold updateConnection_frame, modifyPendingEvents.
  destruct frame; frame_throws_walk.
Qed.

Lemma forEachFrame_throws packet cloned frames locals :
  throwsOnly INTERNAL_ERROR
    (forEachFrame
       (updateConnection_frame protectionTypeToEncryptionLevel packet cloned)
       frames locals).
Proof.
  revert locals. induction frames as [|frame rest IH]; intros locals; simpl.
  - apply throwsOnly_ret.
  - apply throwsOnly_bind; [|intros locals'; apply IH].
    apply updateConnection_frame_throws.
Qed.

End MoreTransportFacts.

Lemma bind_Thrown {S A B} (c : M S A) (k : A -> M S B) s code s' :
  bind c k s = Thrown code s' ->
  c s = Thrown code s'
  \/ exists a s1, c s = Returned a s1 /\ k a s1 = Thrown code s'.
Proof.
  unfold bind. destruct (c s) as [a s1|code1 s1|]; [eauto| |discriminate].
  intros Hret. left. inversion Hret. reflexivity.
Qed.

Lemma finalState_Thrown {S A} (o : Outcome S A) (d : S)
    (code : Exception) :
  thrownCode o = Some code -> o = Thrown code (finalState o d).
Proof.
  destruct o as [a s|code' s|]; simpl; intros Hcode;
    [discriminate| |discriminate].
  inversion Hcode. reflexivity.
Qed.

Section RecordingFacts.
Variable protectionTypeToEncryptionLevel :
  ProtectionType.t -> EncryptionLevel.t.

(** The counters of a connection after [updateConnection] has returned. *)
Lemma updateConnection_counters cloned pkt sentTime size bodySize isDSR
    conn conn' :
  updateConnection protectionTypeToEncryptionLevel cloned pkt sentTime size
    bodySize isDSR conn
  = Returned tt conn' ->
  largestSent (lossState conn')
  = Some (Z.max (default (packetSequenceNum (header pkt))
                   (largestSent (lossState conn)))
            (packetSequenceNum (header pkt)))
  /\ totalBodyBytesSent (lossState conn')
     = wrap64 (totalBodyBytesSent (lossState conn) + bodySize)
  /\ totalPacketsSent (lossState conn')
     = wrap64 (totalPacketsSent (lossState conn) + 1)
  /\ totalAckElicitingPacketsSent (lossState conn')
     = (if isAckEliciting pkt
        then wrap64 (totalAckElicitingPacketsSent (lossState conn) + 1)
        else totalAckElicitingPacketsSent (lossState conn))
  /\ inflightBytes (lossState conn') = inflightBytes (lossState conn)
  /\ totalBytesCloned (lossState conn')
     = (if isAckEliciting pkt
        then match cloned with
             | Some _ => wrap64 (totalBytesCloned (lossState conn) + size)
             | None => totalBytesCloned (lossState conn)
             end
        else totalBytesCloned (lossState conn))
  /\ setLossDetectionAlarm (pendingEvents conn')
     = setLossDetectionAlarm (pendingEvents conn) || isAckEliciting pkt
  /\ packetCount (outstandings conn')
     = (if isAckEliciting pkt
        then match cloned with
             | Some _ => packetCount (outstandings conn)
             | None =>
                 bump (packetNumberSpace (header pkt))
                   (packetCount (outstandings conn))
             end
        else packetCount (outstandings conn))
  /\ clonedPacketCount (outstandings conn')
     = (if isAckEliciting pkt
        then match cloned with
             | Some _ =>
                 bump (packetNumberSpace (header pkt))
                   (clonedPacketCount (outstandings conn))
             | None => clonedPacketCount (outstandings conn)
             end
        else clonedPacketCount (outstandings conn))
  /\ dsrCount (outstandings conn')
     = (if isAckEliciting pkt && isDSR
        then wrap64 (dsrCount (outstandings conn) + 1)
        else dsrCount (outstandings conn)).
Proof.
  unfold updateConnection. intros Hret.
  apply bind_Returned in Hret.
  destruct Hret as (locals & conn1 & Hloop & Hret).
  pose proof (forEachFrame_untouched protectionTypeToEncryptionLevel pkt
                cloned (frames pkt) (mkLocals false false 0) conn) as Hsame.
  rewrite Hloop in Hsame. simpl in Hsame.
  pose proof (forEachFrame_locals _ _ _ _ _ _ _ _ Hloop) as Hretx.
  pose proof (forEachFrame_ping _ _ _ _ _ _ _ _ Hloop) as Hping.
  simpl in Hretx, Hping.
  destruct Hsame as (_ & _ & _ & _ & Hlargest & _ & Hbody & Hpackets
                     & Heliciting & Hcloned & Hinflight & Hack & Hout
                     & Halarm & _).
  assert (Hget : getAckState conn1 (packetNumberSpace (header pkt))
                 = getAckState conn (packetNumberSpace (header pkt))).
  { unfold getAckState. now rewrite Hack. }
  rewrite bind_get in Hret.
  destruct (getAckState conn1 (packetNumberSpace (header pkt)))
    as [ackState|] eqn:Hstate; [|discriminate].
  rewrite (bind_Returned_eq _ _ _ _ _
             (increaseNextPacketNum_Returned _ _ _ _ Hstate)) in Hret.
  unfold modifyLossState, modifyPendingEvents in Hret.
  repeat (rewrite bind_modify in Hret;
          match type of Hret with
          | bind _ _ ?st = _ =>
              let s := fresh "st" in remember st as s
          | (if _ then _ else _) ?st = _ =>
              let s := fresh "st" in remember st as s
          end).
  assert (Hcond : negb (retransmittable locals) && negb (isPing locals)
                  = negb (isAckEliciting pkt)).
  { unfold isAckEliciting. rewrite <- Hretx.
    destruct (retransmittable locals) eqn:E1; [reflexivity|].
    destruct (isPing locals) eqn:E2; [|reflexivity].
    specialize (Hping ltac:(discriminate) eq_refl). discriminate. }
  rewrite Hcond in Hret.
  assert (Hst4 :
    lossState st4
    = mkLossState (srtt (lossState conn1))
        (Some (Z.max (default (packetSequenceNum (header pkt))
                        (largestSent (lossState conn1)))
                 (packetSequenceNum (header pkt))))
        (wrap64 (totalBytesSent (lossState conn1) + size))
        (wrap64 (totalBodyBytesSent (lossState conn1) + bodySize))
        (wrap64 (totalPacketsSent (lossState conn1) + 1))
        (totalAckElicitingPacketsSent (lossState conn1))
        (totalBytesRetransmitted (lossState conn1))
        (totalStreamBytesCloned (lossState conn1))
        (totalBytesCloned (lossState conn1))
        (inflightBytes (lossState conn1))
    /\ outstandings st4 = outstandings conn1
    /\ pendingEvents st4
       = (if setLossDetectionAlarm (pendingEvents conn1)
          then pendingEvents conn1
          else set_setLossDetectionAlarm (retransmittable locals)
                 (pendingEvents conn1))).
  { unfold countPacketInCurrentPhase in Heqst4.
    repeat split; subst st4;
      repeat match goal with
        | |- context [if ?b then _ else _] =>
            lazymatch b with
            | setLossDetectionAlarm _ => fail
            | _ => destruct b; simpl
            end
        end;
      unwind_states; reflexivity. }
  destruct Hst4 as (Hls & Ho & Hpe).
  assert (Halarm' :
    setLossDetectionAlarm (pendingEvents st4)
    = setLossDetectionAlarm (pendingEvents conn) || isAckEliciting pkt).
  { rewrite Hpe, <- Halarm. unfold isAckEliciting. rewrite <- Hretx.
    destruct (setLossDetectionAlarm (pendingEvents conn1)) eqn:Ea;
      simpl; [exact Ea|reflexivity]. }
  destruct (isAckEliciting pkt); simpl in Hret.
  - rewrite bind_modify in Hret. rewrite bind_get in Hret.
    unfold put in Hret. inversion Hret as [Hconn']. clear Hret.
    destruct isDSR, cloned; simpl; rewrite ?Ho, ?Hls; simpl;
      rewrite ?Hlargest, ?Hbody, ?Hpackets, ?Heliciting, ?Hcloned,
        ?Hinflight, ?Hout, ?Halarm';
      repeat split; reflexivity.
  - inversion Hret; subst conn'. rewrite ?Ho, ?Hls. simpl.
    rewrite ?Hlargest, ?Hbody, ?Hpackets, ?Heliciting, ?Hcloned,
      ?Hinflight, ?Hout, ?Halarm'.
    repeat split; reflexivity.
Qed.

Lemma forEachFrame_not_retransmittable packet cloned frames locals conn :
  existsb frameIsRetransmittable frames = false ->
  forEachFrame
    (updateConnection_frame protectionTypeToEncryptionLevel packet cloned)
    frames locals conn
  = Returned locals conn.
Proof.
  induction frames as [|frame rest IH]; simpl; [reflexivity|].
  intros Hnone. apply orb_false_iff in Hnone. destruct Hnone as [Hf Hrest].
  destruct frame; try discriminate; unfold bind; simpl; now apply IH.
Qed.

(** X13: a packet that carries nothing but acknowledgements, padding and
    datagrams is recorded without becoming outstanding: [updateConnection]
    returns, the packet number of the space and the byte and packet counts
    move on, and the outstanding packets, their counts, the count of
    ack-eliciting packets and the loss-detection alarm stay as they
    were. *)
Theorem updateConnection_not_ack_eliciting cloned pkt sentTime size bodySize
    isDSR conn ackState :
  existsb frameIsRetransmittable (frames pkt) = false ->
  getAckState conn (packetNumberSpace (header pkt)) = Some ackState ->
  exists conn',
    updateConnection protectionTypeToEncryptionLevel cloned pkt sentTime
      size bodySize isDSR conn
    = Returned tt conn'
    /\ getNextPacketNum conn' (packetNumberSpace (header pkt))
       = Some (wrap64 (nextPacketNum ackState + 1))
    /\ totalBytesSent (lossState conn')
       = wrap64 (totalBytesSent (lossState conn) + size)
    /\ totalPacketsSent (lossState conn')
       = wrap64 (totalPacketsSent (lossState conn) + 1)
    /\ totalAckElicitingPacketsSent (lossState conn')
       = totalAckElicitingPacketsSent (lossState conn)
    /\ packets (outstandings conn') = packets (outstandings conn)
    /\ packetCount (outstandings conn') = packetCount (outstandings conn)
    /\ clonedPacketCount (outstandings conn')
       = clonedPacketCount (outstandings conn)
    /\ dsrCount (outstandings conn') = dsrCount (outstandings conn)
    /\ setLossDetectionAlarm (pendingEvents conn')
       = setLossDetectionAlarm (pendingEvents conn).
Proof.
  intros Hnone Hstate.
  assert (Hrun : exists conn',
    updateConnection protectionTypeToEncryptionLevel cloned pkt sentTime
      size bodySize isDSR conn = Returned tt conn').
  { unfold updateConnection.
    rewrite (bind_Returned_eq _ _ _ _ _
               (forEachFrame_not_retransmittable pkt cloned (frames pkt)
                  (mkLocals false false 0) conn Hnone)).
    rewrite bind_get, Hstate.
    rewrite (bind_Returned_eq _ _ _ _ _
               (increaseNextPacketNum_Returned _ _ _ _ Hstate)).
    unfold modifyLossState, modifyPendingEvents.
    rewrite !bind_modify. cbn [retransmittable isPing negb andb].
    unfold ret. eexists. reflexivity. }
  destruct Hrun as [conn' Hrun]. exists conn'. split; [exact Hrun|].
  pose proof (updateConnection_counters _ _ _ _ _ _ _ _ Hrun) as Hc.
  apply updateConnection_Returned in Hrun.
  destruct Hrun as (a & Hget & Hacks & Hbytes & Hpackets & _).
  cbv zeta in *. rewrite Hstate in Hget. inversion Hget; subst a.
  unfold isAckEliciting in *. rewrite Hnone in *. simpl in Hc.
  destruct Hc as (_ & _ & Htotal & Heliciting & _ & _ & Halarm & Hcount
                  & Hcloned & Hdsr).
  rewrite orb_false_r in Halarm.
  split; [|repeat split; assumption].
  unfold getNextPacketNum, getAckState. rewrite Hacks.
  change (nextPacketNum
            <$> getAckState
                  (setAckState (packetNumberSpace (header pkt))
                     (mkAckState (wrap64 (nextPacketNum ackState + 1))
                        (if isDSR
                         then ackNonDsrPacketSequenceNumber ackState
                         else wrap64
                                (ackNonDsrPacketSequenceNumber ackState + 1)))
                     conn)
                  (packetNumberSpace (header pkt))
          = Some (wrap64 (nextPacketNum ackState + 1))).
  rewrite getAckState_setAckState.
  destruct (decide _) as [_|Hne]; [reflexivity|contradiction].
Qed.

(** X14: when [updateConnection] throws, the error is [INTERNAL_ERROR]
    and the packet has not been recorded: the packet numbers, the
    outstanding packets and their counts, [largestSent], [totalBytesSent],
    [totalBodyBytesSent], [totalPacketsSent],
    [totalAckElicitingPacketsSent], [totalBytesCloned], [inflightBytes],
    the loss-detection alarm and the key-update state are those from
    before the call.  What the frames in front of the failing one had to
    do with may have changed: the streams and crypto streams, the other
    pending events, and the counters [totalBytesRetransmitted] and
    [totalStreamBytesCloned]. *)
Theorem updateConnection_throw_records_nothing cloned pkt sentTime size
    bodySize isDSR conn code conn' :
  updateConnection protectionTypeToEncryptionLevel cloned pkt sentTime size
    bodySize isDSR conn
  = Thrown code conn' ->
  code = INTERNAL_ERROR /\ sentStateUntouched conn conn'.
Proof.
  unfold updateConnection. intros Hret.
  apply bind_Thrown in Hret.
  destruct Hret as [Hloop|(locals & conn1 & Hloop & Hret)].
  - pose proof (forEachFrame_untouched protectionTypeToEncryptionLevel pkt
                  cloned (frames pkt) (mkLocals false false 0) conn) as Hsame.
    pose proof (forEachFrame_throws protectionTypeToEncryptionLevel pkt
                  cloned (frames pkt) (mkLocals false false 0) conn)
      as Hcode.
    rewrite Hloop in Hsame, Hcode. simpl in Hsame. split; assumption.
  - exfalso. rewrite bind_get in Hret.
    destruct (getAckState conn1 (packetNumberSpace (header pkt)))
      as [ackState|] eqn:Hstate; [|discriminate].
    rewrite (bind_Returned_eq _ _ _ _ _
               (increaseNextPacketNum_Returned _ _ _ _ Hstate)) in Hret.
    unfold modifyLossState, modifyPendingEvents in Hret.
    repeat (rewrite bind_modify in Hret;
            match type of Hret with
            | bind _ _ ?st = _ =>
                let s := fresh "st" in remember st as s
            | (if _ then _ else _) ?st = _ =>
                let s := fresh "st" in remember st as s
            end).
    destruct (negb (retransmittable locals) && negb (isPing locals));
      [discriminate|].
    rewrite bind_modify, bind_get in Hret. discriminate.
Qed.

(** X15: what [updateConnection] counts.  Every recorded packet adds its
    size to [totalBodyBytesSent], one to [totalPacketsSent], and raises
    [largestSent] to its number if that is larger.  An ack-eliciting packet
    moreover becomes one more outstanding packet, adds one to
    [totalAckElicitingPacketsSent], sets the loss-detection alarm, and
    adds one to the count of its space: to [clonedPacketCount], with its
    size added to [totalBytesCloned], when it is a clone, to [packetCount]
    otherwise, and to [dsrCount] when it is a DSR packet.  With no
    congestion controller attached [inflightBytes] stays as it was: it is
    for the controller to raise it when it is told of the packet. *)
Theorem updateConnection_counts cloned pkt sentTime size bodySize isDSR
    conn conn' :
  updateConnection protectionTypeToEncryptionLevel cloned pkt sentTime size
    bodySize isDSR conn
  = Returned tt conn' ->
  largestSent (lossState conn')
  = Some (Z.max (default (packetSequenceNum (header pkt))
                   (largestSent (lossState conn)))
            (packetSequenceNum (header pkt)))
  /\ totalBodyBytesSent (lossState conn')
     = wrap64 (totalBodyBytesSent (lossState conn) + bodySize)
  /\ totalPacketsSent (lossState conn')
     = wrap64 (totalPacketsSent (lossState conn) + 1)
  /\ (congestionController conn = None ->
      inflightBytes (lossState conn') = inflightBytes (lossState conn))
  /\ (isAckEliciting pkt = false ->
      outstandings conn' = outstandings conn
      /\ totalAckElicitingPacketsSent (lossState conn')
         = totalAckElicitingPacketsSent (lossState conn)
      /\ totalBytesCloned (lossState conn')
         = totalBytesCloned (lossState conn))
  /\ (isAckEliciting pkt = true ->
      length (packets (outstandings conn'))
      = S (length (packets (outstandings conn)))
      /\ totalAckElicitingPacketsSent (lossState conn')
         = wrap64 (totalAckElicitingPacketsSent (lossState conn) + 1)
      /\ setLossDetectionAlarm (pendingEvents conn') = true
      /\ dsrCount (outstandings conn')
         = (if isDSR then wrap64 (dsrCount (outstandings conn) + 1)
            else dsrCount (outstandings conn))
      /\ match cloned with
         | Some _ =>
             clonedPacketCount (outstandings conn')
             = bump (packetNumberSpace (header pkt))
                 (clonedPacketCount (outstandings conn))
             /\ packetCount (outstandings conn')
                = packetCount (outstandings conn)
             /\ totalBytesCloned (lossState conn')
                = wrap64 (totalBytesCloned (lossState conn) + size)
         | None =>
             packetCount (outstandings conn')
             = bump (packetNumberSpace (header pkt))
                 (packetCount (outstandings conn))
             /\ clonedPacketCount (outstandings conn')
                = clonedPacketCount (outstandings conn)
             /\ totalBytesCloned (lossState conn')
                = totalBytesCloned (lossState conn)
         end).
Proof.
  intros Hrun.
  pose proof (updateConnection_counters _ _ _ _ _ _ _ _ Hrun) as Hc.
  apply updateConnection_Returned in Hrun.
  destruct Hrun as (a & _ & _ & _ & Hpackets & _). cbv zeta in Hpackets.
  destruct Hc as (Hlargest & Hbody & Htotal & Heliciting & Hinflight
                  & Hcloned & Halarm & Hcount & Hccount & Hdsr).
  split; [exact Hlargest|]. split; [exact Hbody|]. split; [exact Htotal|].
  split; [intros _; exact Hinflight|]. split.
  - intros Hno. rewrite Hno in *. simpl in Hdsr.
    split; [|split; assumption].
    destruct (outstandings conn') as [p pc cc d].
    destruct (outstandings conn) as [p0 pc0 cc0 d0]. simpl in *.
    congruence.
  - intros Hyes. rewrite Hyes in *. simpl in Hdsr.
    rewrite orb_true_r in Halarm.
    split.
    { rewrite Hpackets. unfold emplace.
      rewrite length_app. simpl. rewrite length_take, length_drop.
      assert (Hpos : (outstandingInsertPosition
                        (packetSequenceNum (header pkt))
                        (packets (outstandings conn))
                      <= length (packets (outstandings conn)))%nat).
      { unfold outstandingInsertPosition.
        rewrite <- (length_rev (packets (outstandings conn))).
        generalize (rev (packets (outstandings conn))).
        intros rl. induction rl as [|x rl IH]; simpl; [lia|].
        destruct (_ <? _); simpl; lia. }
      lia. }
    split; [exact Heliciting|]. split; [exact Halarm|].
    split; [exact Hdsr|].
    destruct cloned; repeat split; assumption.
Qed.

End RecordingFacts.

Lemma updateConnection_not_ack_eliciting_witness :
  exists conn',
    updateConnection sampleEncryptionLevel None pureAckPacket 0 60 40 false
      sampleConn
    = Returned tt conn'
    /\ getNextPacketNum conn' PacketNumberSpace.AppData = Some 1
    /\ totalBytesSent (lossState conn') = 60
    /\ packets (outstandings conn') = [].
Proof.
  destruct (updateConnection_not_ack_eliciting sampleEncryptionLevel None
              pureAckPacket 0 60 40 false sampleConn (mkAckState 0 0)
              eq_refl eq_refl)
    as (conn' & Hrun & Hnext & Hbytes & _ & _ & Hpackets & _).
  exists conn'. split; [exact Hrun|]. split; [exact Hnext|].
  split; [exact Hbytes|exact Hpackets].
Defined.

Lemma updateConnection_throw_records_nothing_witness :
  thrownCode
    (updateConnection sampleEncryptionLevel None cryptoFrameBeyondOffset 0
       100 80 false sampleConn) = Some (QuicTransportException INTERNAL_ERROR)
  /\ sentStateUntouched sampleConn
       (finalState
          (updateConnection sampleEncryptionLevel None
             cryptoFrameBeyondOffset 0 100 80 false sampleConn)
          sampleConn).
Proof.
  split; [vm_compute; reflexivity|].
  apply (updateConnection_throw_records_nothing sampleEncryptionLevel None
           cryptoFrameBeyondOffset 0 100 80 false sampleConn INTERNAL_ERROR).
  apply finalState_Thrown. vm_compute. reflexivity.
Defined.

Lemma updateConnection_counts_witness :
  totalPacketsSent
    (lossState
       (finalState
          (updateConnection sampleEncryptionLevel None samplePingPacket 0
             100 80 false sampleConn) sampleConn)) = 1
  /\ length
       (packets
          (outstandings
             (finalState
                (updateConnection sampleEncryptionLevel None
                   samplePingPacket 0 100 80 false sampleConn)
                sampleConn))) = 1%nat.
Proof.
  destruct (updateConnection_counts sampleEncryptionLevel None
              samplePingPacket 0 100 80 false sampleConn
              (finalState
                 (updateConnection sampleEncryptionLevel None
                    samplePingPacket 0 100 80 false sampleConn) sampleConn)
              ltac:(apply finalState_Returned; vm_compute; reflexivity))
    as (_ & _ & Htotal & _ & _ & Hyes).
  split; [exact Htotal|].
  destruct (Hyes eq_refl) as (Hlen & _). exact Hlen.
Defined.

(** ** More on key updates *)

(** X16: when [maybeInitiateKeyUpdate] acts.  It leaves the connection
    alone unless key updates are enabled, more packets have been sent in
    the current phase than the threshold (the first-update count if there
    is one, the interval otherwise) and the read codec can initiate an
    update.  When it acts, the write phase becomes the advanced read phase,
    the count of packets sent in the phase restarts at 0, the first-update
    count is used up and the update awaits verification; calling it again
    right away does nothing. *)
Theorem maybeInitiateKeyUpdate_threshold (conn : QuicConnectionStateBase) :
  let threshold :=
    match firstKeyUpdatePacketCount (transportSettings conn) with
    | Some n => n
    | None => keyUpdatePacketCountInterval (transportSettings conn)
    end in
  (initiateKeyUpdate (transportSettings conn) = false
   \/ oneRttWritePacketsSentInCurrentPhase conn <= threshold
   \/ canInitiateKeyUpdate (readCodec conn) = false ->
   maybeInitiateKeyUpdate conn = Returned tt conn)
  /\ (initiateKeyUpdate (transportSettings conn) = true ->
      threshold < oneRttWritePacketsSentInCurrentPhase conn ->
      canInitiateKeyUpdate (readCodec conn) = true ->
      (let newPhase :=
         currentOneRttReadPhase (advanceOneRttReadPhase (readCodec conn)) in
       (newPhase = ProtectionType.KeyPhaseZero
        \/ newPhase = ProtectionType.KeyPhaseOne)
       /\ newPhase <> oneRttWritePhase conn) ->
      0 <= keyUpdatePacketCountInterval (transportSettings conn) ->
      exists conn1,
        maybeInitiateKeyUpdate conn = Returned tt conn1
        /\ oneRttWritePhase conn1 <> oneRttWritePhase conn
        /\ oneRttWritePhase conn1
           = currentOneRttReadPhase (readCodec conn1)
        /\ oneRttWritePacketsSentInCurrentPhase conn1 = 0
        /\ oneRttWritePendingVerification conn1 = true
        /\ oneRttWritePendingVerificationPacketNumber conn1 = None
        /\ firstKeyUpdatePacketCount (transportSettings conn1) = None
        /\ maybeInitiateKeyUpdate conn1 = Returned tt conn1).
Proof.
  cbv zeta. split.
  - intros Hno. unfold maybeInitiateKeyUpdate. rewrite bind_get.
    destruct (initiateKeyUpdate (transportSettings conn)); [|reflexivity].
    destruct Hno as [Hno|[Hno|Hno]]; [discriminate| |].
    + replace (_ <? oneRttWritePacketsSentInCurrentPhase conn) with false
        by (symmetry; apply Z.ltb_ge; exact Hno).
      reflexivity.
    + rewrite Hno, andb_false_r. reflexivity.
  - intros Hon Hsent Hcan [Hkey Hother] Hinterval.
    assert (Hrun : exists conn1,
      maybeInitiateKeyUpdate conn = Returned tt conn1
      /\ oneRttWritePhase conn1 <> oneRttWritePhase conn
      /\ readCodec conn1 = advanceOneRttReadPhase (readCodec conn)
      /\ transportSettings conn1
         = set_firstKeyUpdatePacketCount None (transportSettings conn)).
    { unfold maybeInitiateKeyUpdate. rewrite bind_get, Hon.
      replace (_ <? oneRttWritePacketsSentInCurrentPhase conn) with true
        by (symmetry; apply Z.ltb_lt; exact Hsent).
      rewrite Hcan. cbn [andb].
      rewrite !bind_modify, bind_get. unfold updateOneRttWriteCipher.
      unfold bind, get, CHECK, put, modify.
      cbn [readCodec oneRttWritePhase set_transportSettings set_readCodec].
      remember (advanceOneRttReadPhase (readCodec conn)) as codec'.
      destruct Hkey as [Hk|Hk]; rewrite Hk in *; simpl;
        rewrite bool_decide_eq_false_2 by exact Hother; simpl;
        (eexists; split; [reflexivity|]; simpl;
         split; [exact Hother|split; [|reflexivity]]);
        destruct codec' as [phase ready]; simpl in *; now subst phase. }
    destruct Hrun as (conn1 & Hrun & Hne & Hcodec & Hts).
    exists conn1. split; [exact Hrun|]. split; [exact Hne|].
    destruct (maybeInitiateKeyUpdate_initiated _ _ Hrun Hne)
      as (Hpend & Hnum & Hcount & Hnew).
    split; [now rewrite Hcodec|]. split; [exact Hcount|].
    split; [exact Hpend|]. split; [exact Hnum|].
    split; [now rewrite Hts|].
    unfold maybeInitiateKeyUpdate. rewrite bind_get, Hts, Hcount. simpl.
    rewrite Hon.
    replace (keyUpdatePacketCountInterval (transportSettings conn) <? 0)
      with false by (symmetry; apply Z.ltb_ge; lia).
    reflexivity.
Qed.

Lemma maybeInitiateKeyUpdate_threshold_witness :
  maybeInitiateKeyUpdate sampleConn = Returned tt sampleConn
  /\ exists conn1,
       maybeInitiateKeyUpdate keyUpdateDueConn = Returned tt conn1
       /\ oneRttWritePhase conn1 <> ProtectionType.KeyPhaseZero
       /\ maybeInitiateKeyUpdate conn1 = Returned tt conn1.
Proof.
  split.
  - apply (proj1 (maybeInitiateKeyUpdate_threshold sampleConn)).
    left. reflexivity.
  - destruct (proj2 (maybeInitiateKeyUpdate_threshold keyUpdateDueConn)
                eq_refl ltac:(simpl; lia) eq_refl
                ltac:(split; [right; reflexivity|discriminate])
                ltac:(simpl; lia))
      as (conn1 & Hrun & Hne & _ & _ & _ & _ & _ & Hagain).
    exists conn1. split; [exact Hrun|]. split; [exact Hne|exact Hagain].
Defined.

(** X17: [maybeHandleIncomingKeyUpdate] brings the write phase in line
    with the read phase.  When the two agree nothing changes; when the read
    codec has moved to the other key phase, the write phase follows and the
    count of packets sent in the phase restarts at 0; a read phase that is
    no key phase aborts the process.  Whenever the call returns, the write
    phase is the read phase, and a second call changes nothing. *)
Theorem maybeHandleIncomingKeyUpdate_follows_read_phase
    (conn : QuicConnectionStateBase) :
  let readPhase := currentOneRttReadPhase (readCodec conn) in
  (readPhase = oneRttWritePhase conn ->
   maybeHandleIncomingKeyUpdate conn = Returned tt conn)
  /\ (readPhase <> oneRttWritePhase conn ->
      (readPhase = ProtectionType.KeyPhaseZero
       \/ readPhase = ProtectionType.KeyPhaseOne) ->
      maybeHandleIncomingKeyUpdate conn
      = Returned tt
          (set_oneRttWritePacketsSentInCurrentPhase 0
             (set_oneRttWritePhase readPhase conn)))
  /\ (readPhase <> oneRttWritePhase conn ->
      readPhase <> ProtectionType.KeyPhaseZero ->
      readPhase <> ProtectionType.KeyPhaseOne ->
      maybeHandleIncomingKeyUpdate conn = Fatal)
  /\ (forall conn',
        maybeHandleIncomingKeyUpdate conn = Returned tt conn' ->
        oneRttWritePhase conn' = currentOneRttReadPhase (readCodec conn')
        /\ maybeHandleIncomingKeyUpdate conn' = Returned tt conn').
Proof.
  cbv zeta.
  assert (Hsame :
    currentOneRttReadPhase (readCodec conn) = oneRttWritePhase conn ->
    maybeHandleIncomingKeyUpdate conn = Returned tt conn).
  { intros Heq. unfold maybeHandleIncomingKeyUpdate. rewrite bind_get.
    rewrite bool_decide_eq_true_2 by exact Heq. reflexivity. }
  assert (Hmove :
    currentOneRttReadPhase (readCodec conn) <> oneRttWritePhase conn ->
    currentOneRttReadPhase (readCodec conn) = ProtectionType.KeyPhaseZero
    \/ currentOneRttReadPhase (readCodec conn) = ProtectionType.KeyPhaseOne ->
    maybeHandleIncomingKeyUpdate conn
    = Returned tt
        (set_oneRttWritePacketsSentInCurrentPhase 0
           (set_oneRttWritePhase (currentOneRttReadPhase (readCodec conn))
              conn))).
  { intros Hne Hkey. unfold maybeHandleIncomingKeyUpdate. rewrite bind_get.
    rewrite bool_decide_eq_false_2 by exact Hne. simpl.
    unfold updateOneRttWriteCipher. rewrite bind_get.
    rewrite (bool_decide_eq_false_2 _ Hne). simpl.
    destruct Hkey as [Hk|Hk]; rewrite Hk; reflexivity. }
  assert (Hfatal :
    currentOneRttReadPhase (readCodec conn) <> oneRttWritePhase conn ->
    currentOneRttReadPhase (readCodec conn) <> ProtectionType.KeyPhaseZero ->
    currentOneRttReadPhase (readCodec conn) <> ProtectionType.KeyPhaseOne ->
    maybeHandleIncomingKeyUpdate conn = Fatal).
  { intros Hne H0 H1. unfold maybeHandleIncomingKeyUpdate. rewrite bind_get.
    rewrite bool_decide_eq_false_2 by exact Hne. simpl.
    unfold updateOneRttWriteCipher. rewrite bind_get.
    destruct (currentOneRttReadPhase (readCodec conn));
      try reflexivity; contradiction. }
  split; [exact Hsame|]. split; [exact Hmove|]. split; [exact Hfatal|].
  intros conn' Hrun.
  destruct (decide (currentOneRttReadPhase (readCodec conn)
                    = oneRttWritePhase conn)) as [Heq|Hne].
  - rewrite (Hsame Heq) in Hrun. inversion Hrun; subst conn'.
    split; [now symmetry|exact (Hsame Heq)].
  - destruct (decide (currentOneRttReadPhase (readCodec conn)
                      = ProtectionType.KeyPhaseZero)) as [H0|H0];
      [|destruct (decide (currentOneRttReadPhase (readCodec conn)
                          = ProtectionType.KeyPhaseOne)) as [H1|H1]].
    + rewrite (Hmove Hne (or_introl H0)) in Hrun.
      inversion Hrun; subst conn'. simpl. split; [reflexivity|].
      unfold maybeHandleIncomingKeyUpdate. rewrite bind_get. simpl.
      rewrite bool_decide_eq_true_2 by reflexivity. reflexivity.
    + rewrite (Hmove Hne (or_intror H1)) in Hrun.
      inversion Hrun; subst conn'. simpl. split; [reflexivity|].
      unfold maybeHandleIncomingKeyUpdate. rewrite bind_get. simpl.
      rewrite bool_decide_eq_true_2 by reflexivity. reflexivity.
    + rewrite (Hfatal Hne H0 H1) in Hrun. discriminate.
Qed.

Lemma maybeHandleIncomingKeyUpdate_follows_read_phase_witness :
  maybeHandleIncomingKeyUpdate peerUpdatedKeysConn
  = Returned tt
      (set_oneRttWritePacketsSentInCurrentPhase 0
         (set_oneRttWritePhase ProtectionType.KeyPhaseOne
            peerUpdatedKeysConn)).
Proof.
  destruct (maybeHandleIncomingKeyUpdate_follows_read_phase
              peerUpdatedKeysConn) as (_ & Hmove & _).
  apply Hmove; [discriminate|right; reflexivity].
Defined.

Section VerificationFacts.
Variable protectionTypeToEncryptionLevel :
  ProtectionType.t -> EncryptionLevel.t.

(** X18: when an acknowledgement cannot decide a key update.
    [maybeVerifyPendingKeyUpdate] returns with the connection as it was
    when the acknowledged packet is not an AppData packet, when no packet
    awaiting verification is recorded, and when the acknowledged packet was
    sent before the recorded one.  In particular, right after a key update
    has been initiated and before a packet is sent in the new phase, every
    acknowledgement is accepted, whatever phase it comes in. *)
Theorem maybeVerifyPendingKeyUpdate_undecided
    (conn : QuicConnectionStateBase)
    (outstandingPacket : OutstandingPacketWrapper)
    (ackPacket : PacketHeader) :
  (protectionTypeToEncryptionLevel
     (protectionType (header (packet outstandingPacket)))
   <> EncryptionLevel.AppData
   \/ oneRttWritePendingVerificationPacketNumber conn = None
   \/ (exists pending,
         oneRttWritePendingVerificationPacketNumber conn = Some pending
         /\ packetSequenceNum (header (packet outstandingPacket)) < pending)
   ->
   maybeVerifyPendingKeyUpdate protectionTypeToEncryptionLevel
     outstandingPacket ackPacket conn
   = Returned tt conn)
  /\ (forall conn0,
        maybeInitiateKeyUpdate conn0 = Returned tt conn ->
        oneRttWritePhase conn <> oneRttWritePhase conn0 ->
        maybeVerifyPendingKeyUpdate protectionTypeToEncryptionLevel
          outstandingPacket ackPacket conn
        = Returned tt conn).
Proof.
  assert (Hnoop :
    protectionTypeToEncryptionLevel
      (protectionType (header (packet outstandingPacket)))
    <> EncryptionLevel.AppData
    \/ oneRttWritePendingVerificationPacketNumber conn = None
    \/ (exists pending,
          oneRttWritePendingVerificationPacketNumber conn = Some pending
          /\ packetSequenceNum (header (packet outstandingPacket)) < pending)
    ->
    maybeVerifyPendingKeyUpdate protectionTypeToEncryptionLevel
      outstandingPacket ackPacket conn
    = Returned tt conn).
  { intros Hcase. unfold maybeVerifyPendingKeyUpdate. rewrite bind_get.
    destruct (bool_decide _) eqn:Elevel; simpl; [|reflexivity].
    destruct Hcase as [Hlevel|[Hnone|(pending & Hnum & Hlt)]].
    - apply bool_decide_eq_true_1 in Elevel. contradiction.
    - rewrite Hnone. reflexivity.
    - rewrite Hnum.
      replace (pending
               <=? packetSequenceNum (header (packet outstandingPacket)))
        with false by (symmetry; apply Z.leb_gt; exact Hlt).
      reflexivity. }
  split; [exact Hnoop|].
  intros conn0 Hinit Hphase. apply Hnoop. right. left.
  now destruct (maybeInitiateKeyUpdate_initiated _ _ Hinit Hphase)
    as (_ & Hnum & _).
Qed.

End VerificationFacts.

Lemma maybeVerifyPendingKeyUpdate_undecided_witness :
  maybeVerifyPendingKeyUpdate sampleEncryptionLevel
    firstPacketOfPhaseOutstanding
    (mkHeader PacketNumberSpace.AppData ProtectionType.KeyPhaseZero 0)
    keyUpdatedConn
  = Returned tt keyUpdatedConn.
Proof.
  apply (proj2 (maybeVerifyPendingKeyUpdate_undecided sampleEncryptionLevel
                  keyUpdatedConn firstPacketOfPhaseOutstanding
                  (mkHeader PacketNumberSpace.AppData
                     ProtectionType.KeyPhaseZero 0))
           keyUpdateDueConn).
  - apply finalState_Returned. vm_compute. reflexivity.
  - vm_compute. discriminate.
Defined.

(** ** More on the writable bytes *)

Lemma roundUpToPacketLen_Returned (writableBytes : Z)
    (conn : QuicConnectionStateBase) :
  0 < udpSendPacketLen conn ->
  exists w,
    roundUpToPacketLen writableBytes conn = Returned w conn
    /\ (udpSendPacketLen conn | w) /\ 0 <= w < 2 ^ 64.
Proof.
  intros Hlen. unfold roundUpToPacketLen. rewrite bind_get.
  replace (udpSendPacketLen conn =? 0) with false
    by (symmetry; apply Z.eqb_neq; lia).
  eexists. split; [reflexivity|].
  pose proof (wrap64_range (writableBytes + udpSendPacketLen conn - 1))
    as Hr.
  set (x := wrap64 (writableBytes + udpSendPacketLen conn - 1)) in *.
  pose proof (Z.div_mod x (udpSendPacketLen conn) ltac:(lia)) as Hdm.
  pose proof (Z.mod_pos_bound x (udpSendPacketLen conn) Hlen) as Hmod.
  assert (Hq : 0 <= x / udpSendPacketLen conn) by (apply Z.div_pos; lia).
  rewrite wrap64_small by nia.
  split; [|nia]. exists (x / udpSendPacketLen conn). reflexivity.
Qed.

(** X19: [congestionControlWritableBytes] leaves the connection alone and
    answers either "unlimited" ([uint64_t]'s maximum) or a whole number of
    packets of [udpSendPacketLen] bytes.  With no path validation under
    way, no limit for an unvalidated client and no congestion controller
    the answer is "unlimited", whatever the throttling signal says.  While
    a path is being validated the process is aborted if there is no
    path-validation limiter or if a limit for an unvalidated client is
    set. *)
Theorem congestionControlWritableBytes_whole_packets
    (conn : QuicConnectionStateBase) :
  0 < udpSendPacketLen conn ->
  (forall w conn',
      congestionControlWritableBytes conn = Returned w conn' ->
      conn' = conn /\ (w = uint64_max \/ (udpSendPacketLen conn | w)))
  /\ (forall code conn',
        congestionControlWritableBytes conn <> Thrown code conn')
  /\ (pathChallenge (pendingEvents conn) = false ->
      outstandingPathValidation conn = false ->
      writableBytesLimit conn = None ->
      congestionController conn = None ->
      congestionControlWritableBytes conn = Returned uint64_max conn)
  /\ (pathChallenge (pendingEvents conn) = true
      \/ outstandingPathValidation conn = true ->
      pathValidationLimiter conn = None
      \/ writableBytesLimit conn <> None ->
      congestionControlWritableBytes conn = Fatal).
Proof.
  intros Hlen.
  assert (Hfirst : forall (c : M QuicConnectionStateBase Z),
    (forall s, match c s with
               | Returned _ s' => s' = s
               | Thrown _ _ => False
               | Fatal => True
               end) ->
    match bind c (fun writableBytes =>
            let writableBytes :=
              match congestionController conn with
              | Some ccWritableBytes =>
                  let writableBytes :=
                    Z.min writableBytes ccWritableBytes in
                  match throttlingBytesToSend conn with
                  | Some bytesToSend => Z.min bytesToSend writableBytes
                  | None => writableBytes
                  end
              | None => writableBytes
              end in
            if writableBytes =? uint64_max then ret writableBytes
            else roundUpToPacketLen writableBytes) conn with
    | Returned w s' =>
        s' = conn /\ (w = uint64_max \/ (udpSendPacketLen conn | w))
    | Thrown _ _ => False
    | Fatal => True
    end).
  { intros c Hc. unfold bind. specialize (Hc conn).
    destruct (c conn) as [wb s'|code s'|]; [|exact Hc|exact I].
    subst s'. cbv zeta.
    match goal with
    | |- context [?x =? uint64_max] => destruct (x =? uint64_max) eqn:Emax
    end.
    - apply Z.eqb_eq in Emax. simpl. split; [reflexivity|]. left. exact Emax.
    - match goal with
      | |- context [roundUpToPacketLen ?x conn] =>
          destruct (roundUpToPacketLen_Returned x conn Hlen)
            as (w & Hw & Hdiv & _)
      end.
      rewrite Hw. split; [reflexivity|]. right. exact Hdiv. }
  assert (Hall :
    match congestionControlWritableBytes conn with
    | Returned w s' =>
        s' = conn /\ (w = uint64_max \/ (udpSendPacketLen conn | w))
    | Thrown _ _ => False
    | Fatal => True
    end).
  { unfold congestionControlWritableBytes. rewrite bind_get.
    apply Hfirst. intros s.
    destruct (pathChallenge (pendingEvents conn)
              || outstandingPathValidation conn).
    - destruct (pathValidationLimiter conn) as [credit|]; [|exact I].
      unfold bind, CHECK, ret. destruct (bool_decide _); [reflexivity|exact I].
    - destruct (writableBytesLimit conn) as [limit|]; [|reflexivity].
      unfold maybeUnvalidatedClientWritableBytes. rewrite bind_get.
      destruct (writableBytesLimit s) as [limit'|]; [|reflexivity].
      destruct (_ <=? _); [reflexivity|].
      unfold roundUpToPacketLen. rewrite bind_get.
      destruct (_ =? 0); [exact I|reflexivity]. }
  split; [|split; [|split]].
  - intros w conn' Hrun. rewrite Hrun in Hall. exact Hall.
  - intros code conn' Hrun. rewrite Hrun in Hall. exact Hall.
  - intros Hpc Hpv Hlimit Hcc. unfold congestionControlWritableBytes.
    rewrite bind_get, Hpc, Hpv, Hlimit. simpl. unfold bind, ret.
    rewrite Hcc. rewrite Z.eqb_refl. reflexivity.
  - intros Hpath Hbad. unfold congestionControlWritableBytes.
    rewrite bind_get.
    replace (pathChallenge (pendingEvents conn)
             || outstandingPathValidation conn) with true
      by (symmetry; apply orb_true_iff; exact Hpath).
    destruct (pathValidationLimiter conn) as [credit|] eqn:Hlimiter;
      [|reflexivity].
    destruct Hbad as [Hbad|Hbad]; [discriminate|].
    unfold bind, CHECK. rewrite bool_decide_eq_false_2 by exact Hbad.
    reflexivity.
Qed.

Lemma congestionControlWritableBytes_whole_packets_witness :
  congestionControlWritableBytes congestionLimitedConn
  = Returned 3756 congestionLimitedConn
  /\ (1252 | 3756).
Proof.
  destruct (congestionControlWritableBytes_whole_packets
              congestionLimitedConn ltac:(simpl; lia)) as (Hshape & _).
  assert (Hrun : congestionControlWritableBytes congestionLimitedConn
                 = Returned 3756 congestionLimitedConn)
    by reflexivity.
  split; [exact Hrun|].
  destruct (Hshape _ _ Hrun) as [_ [Hmax|Hdiv]]; [discriminate|exact Hdiv].
Defined.

(** ** More on the write loop *)

Section MoreWriteLoopFacts.
Context {Scheduler World : Type} `{WriteEnvironment Scheduler World}.
Variable protectionTypeToEncryptionLevel :
  ProtectionType.t -> EncryptionLevel.t.

Lemma nothingRecorded_noWriteReason reason reason'
    (conn : QuicConnectionStateBase) :
  nothingRecorded conn
    (let conn0 :=
       if loopDetectorCallback conn then set_noWriteReason reason conn
       else conn in
     if loopDetectorCallback conn0 then set_noWriteReason reason' conn0
     else conn0)
  /\ nothingRecorded conn
       (if loopDetectorCallback conn then set_noWriteReason reason conn
        else conn).
Proof.
  cbv zeta. destruct (loopDetectorCallback conn) eqn:Hloop; simpl.
  - rewrite Hloop. split; repeat split.
  - rewrite Hloop. split; repeat split.
Qed.

(** X20: when [writeConnectionDataToSocket] has nothing to do it builds
    and records no packet.  With an empty scheduler and no buffered write
    it returns {0, 0, 0} and touches neither the scheduler nor the batch;
    when the buffered write of an earlier call cannot be flushed it
    returns {0, 0, 0} without scheduling anything; and when the batch has
    already sent [packetLimit] packets it only flushes and returns the
    count of the batch.  In all three cases the loss state, the packet
    numbers, the outstanding packets, the pending events, the streams and
    the state of the key update are those from before the call. *)
Theorem writeConnectionDataToSocket_nothing_to_do
    (fuel : nat) (builder : Z -> PacketHeader) (pnSpace : PacketNumberSpace.t)
    (writableBytesFunc : M QuicConnectionStateBase Z)
    (packetLimit cipherOverhead writeLoopBeginTime : Z) (st : WriteState) :
  let conn0 :=
    if loopDetectorCallback (connection st)
    then set_noWriteReason WRITE_OK (connection st)
    else connection st in
  (hasData (scheduler st) conn0 = false ->
   hasBufferedDataToWrite (ioBufBatch st) = false ->
   exists conn',
     writeConnectionDataToSocket protectionTypeToEncryptionLevel fuel
       builder pnSpace writableBytesFunc packetLimit cipherOverhead
       writeLoopBeginTime st
     = Returned (Some (mkWriteResult 0 0 0))
         (mkWriteState conn' (scheduler st) (ioBufBatch st))
     /\ nothingRecorded (connection st) conn')
  /\ (hasBufferedDataToWrite (ioBufBatch st) = true ->
      fst (batchFlush (ioBufBatch st)) = false ->
      exists conn',
        writeConnectionDataToSocket protectionTypeToEncryptionLevel fuel
          builder pnSpace writableBytesFunc packetLimit cipherOverhead
          writeLoopBeginTime st
        = Returned (Some (mkWriteResult 0 0 0))
            (mkWriteState conn' (scheduler st)
               (snd (batchFlush (ioBufBatch st))))
        /\ nothingRecorded (connection st) conn')
  /\ (hasData (scheduler st) conn0 = true ->
      hasBufferedDataToWrite (ioBufBatch st) = false ->
      packetLimit <= getPktSent (ioBufBatch st) ->
      (0 < fuel)%nat ->
      exists conn',
        writeConnectionDataToSocket protectionTypeToEncryptionLevel fuel
          builder pnSpace writableBytesFunc packetLimit cipherOverhead
          writeLoopBeginTime st
        = Returned
            (Some (mkWriteResult
                     (getPktSent (snd (batchFlush (ioBufBatch st)))) 0 0))
            (mkWriteState conn' (scheduler st)
               (snd (batchFlush (ioBufBatch st))))
        /\ nothingRecorded (connection st) conn').
Proof.
  cbv zeta. destruct st as [conn sched world]. simpl.
  destruct (nothingRecorded_noWriteReason WRITE_OK EMPTY_SCHEDULER conn)
    as [Hempty Hok]. cbv zeta in Hempty.
  split; [|split].
  - intros Hdata Hbuffered. eexists. split; [|exact Hempty].
    unfold writeConnectionDataToSocket, onConnection, noteNoWriteReason,
      modify, bind, get, ret. simpl.
    rewrite Hdata, Hbuffered. reflexivity.
  - intros Hbuffered Hflush. eexists. split; [|exact Hok].
    unfold writeConnectionDataToSocket, onConnection, modify, bind, get,
      ret, flush. simpl.
    rewrite Hbuffered. rewrite andb_false_r. simpl.
    destruct (batchFlush world) as [ok world1]. simpl in *. subst ok.
    reflexivity.
  - intros Hdata Hbuffered Hlimit Hfuel. eexists. split; [|exact Hok].
    destruct fuel as [|fuel]; [lia|].
    unfold writeConnectionDataToSocket, onConnection, modify, bind, get,
      ret. simpl.
    rewrite Hdata, Hbuffered. simpl.
    unfold bind, get. simpl. rewrite Hdata.
    replace (getPktSent world <? packetLimit) with false
      by (symmetry; apply Z.ltb_ge; exact Hlimit).
    simpl. unfold flush, ret. simpl.
    destruct (batchFlush world) as [ok world1]. reflexivity.
Qed.

(** X21: a round of the write loop that cannot build a packet ends the
    loop without recording anything.  When the scheduler gives no packet,
    a packet without frames or one with an empty body, nothing is handed
    to the socket for writing: the batch is flushed, the connection is the
    one the scheduler left but for the reason noted for a loop detector,
    and the call returns the bytes written so far.  The packet budget is
    taken to fit 32 bits, as the conversion in the loop requires; the data
    path is the one on chained buffers. *)
Theorem build_failure_ends_the_loop
    (builder : Z -> PacketHeader) (pnSpace : PacketNumberSpace.t)
    (writableBytesFunc : M QuicConnectionStateBase Z)
    (cipherOverhead sentTime bytesWritten : Z)
    (st : WriteState) (packetNum budget : Z)
    (result : SchedulingResult.t)
    (sched1 : Scheduler) (conn1 : QuicConnectionStateBase) :
  let writableBytes :=
    let w := Z.min (udpSendPacketLen (connection st)) budget in
    if w <? cipherOverhead then 0 else w - cipherOverhead in
  getNextPacketNum (connection st) pnSpace = Some packetNum ->
  writableBytesFunc (connection st) = Returned budget (connection st) ->
  0 <= Z.min (udpSendPacketLen (connection st)) budget < 2 ^ 32 ->
  scheduleFramesForPacket (builder packetNum) cipherOverhead writableBytes
    (scheduler st, connection st) = (result, (sched1, conn1)) ->
  (SchedulingResult.packet result = None
   \/ exists built,
        SchedulingResult.packet result = Some built
        /\ (builtFrames built = [] \/ builtBodyLen built = 0)) ->
  exists reason,
    writeConnectionDataToSocket_round protectionTypeToEncryptionLevel
      builder pnSpace writableBytesFunc cipherOverhead sentTime bytesWritten
      st
    = Returned
        (Return
           (mkWriteResult
              (getPktSent
                 (snd (batchFlush (snd (batchFlush (ioBufBatch st))))))
              0 bytesWritten))
        (mkWriteState
           (if loopDetectorCallback conn1
            then set_noWriteReason reason conn1 else conn1)
           sched1 (snd (batchFlush (snd (batchFlush (ioBufBatch st))))))
    /\ (reason = NO_FRAME \/ reason = NO_BODY).
Proof.
  cbv zeta. intros Hnext Hbudget [_ Hfits] Hsched Hfail.
  destruct st as [conn0 sched0 world0]. simpl in *.
  assert (Hflushes : forall reason,
    (flush ;;; noteNoWriteReason reason ;;;
     ret DataPathResult.makeBuildFailure)
      (mkWriteState conn1 sched1 world0)
    = Returned DataPathResult.makeBuildFailure
        (mkWriteState
           (if loopDetectorCallback conn1
            then set_noWriteReason reason conn1 else conn1)
           sched1 (snd (batchFlush world0)))).
  { intros reason.
    unfold flush, noteNoWriteReason, onConnection, modify, bind, ret. simpl.
    destruct (batchFlush world0) as [ok world1]. reflexivity. }
  assert (Hround : forall reason,
    iobufChainBasedBuildScheduleEncrypt (builder packetNum) pnSpace
      packetNum cipherOverhead
      (if Z.min (udpSendPacketLen conn0) budget <? cipherOverhead then 0
       else Z.min (udpSendPacketLen conn0) budget - cipherOverhead)
      (mkWriteState conn0 sched0 world0)
    = Returned DataPathResult.makeBuildFailure
        (mkWriteState
           (if loopDetectorCallback conn1
            then set_noWriteReason reason conn1 else conn1)
           sched1 (snd (batchFlush world0))) ->
    writeConnectionDataToSocket_round protectionTypeToEncryptionLevel
      builder pnSpace writableBytesFunc cipherOverhead sentTime bytesWritten
      (mkWriteState conn0 sched0 world0)
    = Returned
        (Return
           (mkWriteResult
              (getPktSent (snd (batchFlush (snd (batchFlush world0)))))
              0 bytesWritten))
        (mkWriteState
           (if loopDetectorCallback conn1
            then set_noWriteReason reason conn1 else conn1)
           sched1 (snd (batchFlush (snd (batchFlush world0)))))).
  { intros reason Hbuild.
    unfold writeConnectionDataToSocket_round. rewrite bind_get. simpl.
    rewrite Hnext.
    unfold onConnection at 1. unfold bind at 1. simpl. rewrite Hbudget.
    unfold bind at 1. rewrite (to_uint32_fits _ _ Hfits).
    unfold bind at 1. rewrite Hbuild. simpl.
    unfold flush, bind, get, ret. simpl.
    destruct (batchFlush (snd (batchFlush world0))) as [ok world2].
    reflexivity. }
  assert (Hbuild : forall reason,
    (SchedulingResult.packet result = None /\ reason = NO_FRAME
     \/ exists built,
          SchedulingResult.packet result = Some built
          /\ (builtFrames built = [] /\ reason = NO_FRAME
              \/ builtFrames built <> [] /\ builtBodyLen built = 0
                 /\ reason = NO_BODY)) ->
    iobufChainBasedBuildScheduleEncrypt (builder packetNum) pnSpace
      packetNum cipherOverhead
      (if Z.min (udpSendPacketLen conn0) budget <? cipherOverhead then 0
       else Z.min (udpSendPacketLen conn0) budget - cipherOverhead)
      (mkWriteState conn0 sched0 world0)
    = Returned DataPathResult.makeBuildFailure
        (mkWriteState
           (if loopDetectorCallback conn1
            then set_noWriteReason reason conn1 else conn1)
           sched1 (snd (batchFlush world0)))).
  { intros reason Hcase.
    unfold iobufChainBasedBuildScheduleEncrypt. rewrite bind_get. simpl.
    rewrite Hsched. unfold put, bind at 1.
    destruct Hcase as [[Hnone ->]|(built & Hsome & Hcase)].
    - rewrite Hnone. apply Hflushes.
    - rewrite Hsome.
      destruct Hcase as [[Hnil ->]|(Hframes & Hbody & ->)].
      + rewrite Hnil. apply Hflushes.
      + destruct (builtFrames built) as [|f fs]; [contradiction|].
        rewrite Hbody. simpl. apply Hflushes. }
  destruct Hfail as [Hnone|(built & Hsome & Hcase)].
  - exists NO_FRAME. split; [|now left].
    apply Hround, Hbuild. left. split; [exact Hnone|reflexivity].
  - destruct (builtFrames built) as [|f fs] eqn:Hframes.
    + exists NO_FRAME. split; [|now left].
      apply Hround, Hbuild. right. exists built. split; [exact Hsome|].
      left. split; [exact Hframes|reflexivity].
    + destruct Hcase as [Hnil|Hbody]; [discriminate|].
      exists NO_BODY. split; [|now right].
      apply Hround, Hbuild. right. exists built. split; [exact Hsome|].
      right. split; [rewrite Hframes; discriminate|].
      split; [exact Hbody|reflexivity].
Qed.

End MoreWriteLoopFacts.

Lemma writeConnectionDataToSocket_nothing_to_do_witness :
  (exists conn',
      writeConnectionDataToSocket sampleEncryptionLevel 4
        sampleShortHeaderBuilder PacketNumberSpace.AppData
        congestionControlWritableBytes 5 16 0
        (mkWriteState sampleConn ([] : list (list QuicWriteFrame))
           (0, true))
      = Returned (Some (mkWriteResult 0 0 0))
          (mkWriteState conn' ([] : list (list QuicWriteFrame)) (0, true))
      /\ nothingRecorded sampleConn conn')
  /\ (exists conn',
        @writeConnectionDataToSocket _ _ stuckSocketEnvironment
          sampleEncryptionLevel 4 sampleShortHeaderBuilder
          PacketNumberSpace.AppData congestionControlWritableBytes 5 16 0
          (mkWriteState sampleConn [[PingFrame]] tt)
        = Returned (Some (mkWriteResult 0 0 0))
            (mkWriteState conn' [[PingFrame]] tt)
        /\ nothingRecorded sampleConn conn')
  /\ (exists conn',
        writeConnectionDataToSocket sampleEncryptionLevel 4
          sampleShortHeaderBuilder PacketNumberSpace.AppData
          congestionControlWritableBytes 0 16 0
          (mkWriteState sampleConn [[PingFrame]] (0, true))
        = Returned (Some (mkWriteResult 0 0 0))
            (mkWriteState conn' [[PingFrame]] (0, true))
        /\ nothingRecorded sampleConn conn').
Proof.
  pose proof (writeConnectionDataToSocket_nothing_to_do
                sampleEncryptionLevel 4 sampleShortHeaderBuilder
                PacketNumberSpace.AppData congestionControlWritableBytes
                5 16 0
                (mkWriteState sampleConn
                   ([] : list (list QuicWriteFrame)) (0, true)))
    as (Hempty & _ & _).
  pose proof (@writeConnectionDataToSocket_nothing_to_do _ _
                stuckSocketEnvironment
                sampleEncryptionLevel 4 sampleShortHeaderBuilder
                PacketNumberSpace.AppData congestionControlWritableBytes
                5 16 0 (mkWriteState sampleConn [[PingFrame]] tt))
    as (_ & Hstuck & _).
  pose proof (writeConnectionDataToSocket_nothing_to_do
                sampleEncryptionLevel 4 sampleShortHeaderBuilder
                PacketNumberSpace.AppData congestionControlWritableBytes
                0 16 0 (mkWriteState sampleConn [[PingFrame]] (0, true)))
    as (_ & _ & Hlimit).
  split; [|split].
  - destruct (Hempty eq_refl eq_refl) as (conn' & Hrun & Hkept).
    exists conn'. split; [exact Hrun|exact Hkept].
  - destruct (Hstuck eq_refl eq_refl) as (conn' & Hrun & Hkept).
    exists conn'. split; [exact Hrun|exact Hkept].
  - destruct (Hlimit eq_refl eq_refl ltac:(simpl; lia) ltac:(lia))
      as (conn' & Hrun & Hkept).
    exists conn'. split; [exact Hrun|exact Hkept].
Defined.

Lemma build_failure_ends_the_loop_witness :
  exists reason,
    writeConnectionDataToSocket_round sampleEncryptionLevel
      sampleShortHeaderBuilder PacketNumberSpace.AppData
      congestionControlWritableBytes 16 0 0 emptyFramesWriteState
    = Returned (Return (mkWriteResult 0 0 0))
        (mkWriteState sampleConn ([] : list (list QuicWriteFrame))
           (0, true))
    /\ (reason = NO_FRAME \/ reason = NO_BODY).
Proof.
  assert (Hscheduled :
    SchedulingResult.packet
      (SchedulingResult.mk None (Some (mkBuilt [] 20 1216)) 0) = None
    \/ exists built,
         SchedulingResult.packet
           (SchedulingResult.mk None (Some (mkBuilt [] 20 1216)) 0)
         = Some built
         /\ (builtFrames built = [] \/ builtBodyLen built = 0)).
  { right. exists (mkBuilt [] 20 1216). split; [reflexivity|].
    left. reflexivity. }
  assert (Hschedule :
    scheduleFramesForPacket (sampleShortHeaderBuilder 0) 16
      (let w :=
         Z.min (udpSendPacketLen (connection emptyFramesWriteState))
           18446744073709551615 in
       if w <? 16 then 0 else w - 16)
      (scheduler emptyFramesWriteState, connection emptyFramesWriteState)
    = (SchedulingResult.mk None (Some (mkBuilt [] 20 1216)) 0,
       ([], sampleConn))).
  { vm_compute. reflexivity. }
  assert (Hfits :
    0 <= Z.min (udpSendPacketLen (connection emptyFramesWriteState))
           18446744073709551615 < 2 ^ 32).
  { vm_compute. split; [discriminate|reflexivity]. }
  destruct (build_failure_ends_the_loop sampleEncryptionLevel
              sampleShortHeaderBuilder PacketNumberSpace.AppData
              congestionControlWritableBytes 16 0 0 emptyFramesWriteState
              0 18446744073709551615
              (SchedulingResult.mk None (Some (mkBuilt [] 20 1216)) 0)
              [] sampleConn eq_refl eq_refl Hfits Hschedule Hscheduled)
    as (reason & Hround & Hreason).
  exists reason. split; [exact Hround|exact Hreason].
Defined.
